(** * NITS RDL deployment pipeline: retry orchestration

    A shallow embedding of the step-retry orchestration engine of
    [rdl_deployment_pipeline.py] (class [NITSPipelineOrchestrator]) and of
    the retry loop and entry point of [nits_rdl_deployment.py]
    (class [NITSRapidDeployment]).

    Subprocesses, the clock and the file system are external: they are
    taken as parameters of a [Section] (an abstract world [W] threaded
    through every call).  The orchestrator's mutable attribute
    [job_results] and the process environment [os.environ] are fields of
    an explicit state.  Every function returns the new state, the list of
    events it emitted (log calls, subprocess calls, sleeps) and an outcome
    that is either a returned value or a raised exception. *)

From Stdlib Require Import ZArith QArith Lia Ascii String.
From stdpp Require Import base option list gmap strings.

Local Open Scope Z_scope.

(** ** Python scaffolding *)

(** The exception classes the two scripts distinguish.  [TimeoutExpired]
    and [OtherException] are subclasses of [Exception]; [KeyboardInterrupt]
    and [SystemExit] derive from [BaseException] only. *)
Inductive exn : Type :=
| TimeoutExpired
| KeyboardInterrupt
| SystemExit (code : Z)
| OtherException (msg : string).

Definition is_Exception (e : exn) : bool :=
  match e with
  | TimeoutExpired | OtherException _ => true
  | KeyboardInterrupt | SystemExit _ => false
  end.

Inductive outcome (A : Type) : Type :=
| Return (a : A)
| Raise (e : exn).
Arguments Return {A} a.
Arguments Raise {A} e.

(** [range(n)] *)
Definition range (n : Z) : list Z := map Z.of_nat (seq 0 (Z.to_nat n)).

(** [str.title()] restricted to ASCII: the first cased character of every
    run of cased characters is upper-cased, the others lower-cased. *)
Definition is_upper (a : ascii) : bool :=
  let n := nat_of_ascii a in ((65 <=? n) && (n <=? 90))%nat.
Definition is_lower (a : ascii) : bool :=
  let n := nat_of_ascii a in ((97 <=? n) && (n <=? 122))%nat.
Definition to_upper (a : ascii) : ascii :=
  if is_lower a then ascii_of_nat (nat_of_ascii a - 32) else a.
Definition to_lower (a : ascii) : ascii :=
  if is_upper a then ascii_of_nat (nat_of_ascii a + 32) else a.

Fixpoint title_from (previous_is_cased : bool) (s : string) : string :=
  match s with
  | EmptyString => EmptyString
  | String a s' =>
      if is_upper a || is_lower a
      then String (if previous_is_cased then to_lower a else to_upper a)
                  (title_from true s')
      else String a (title_from false s')
  end.
Definition title (s : string) : string := title_from false s.

(** ** Data model of [rdl_deployment_pipeline.py] *)

Definition PIPELINE_VERSION : string := "1.0.0".
Definition NITS_VERSION : string := "2.0 (AI-Enhanced)".

Inductive PipelineStage : Type :=
| SETUP | VALIDATE | BUILD | TEST | DEPLOY | MONITOR.

#[global] Instance PipelineStage_eq_dec : EqDecision PipelineStage.
Proof. solve_decision. Defined.

Inductive PipelineEnvironment : Type :=
| DEVELOPMENT | STAGING | PRODUCTION.

Definition value (e : PipelineEnvironment) : string :=
  match e with
  | DEVELOPMENT => "development"
  | STAGING => "staging"
  | PRODUCTION => "production"
  end.

Module PipelineConfig.
Record t : Type := Build {
  environment : PipelineEnvironment;
  auto_deploy : bool;
  run_tests : bool;
  notify_on_failure : bool;
  slack_webhook : option string;
  github_token : option string;
  parallel_jobs : Z;
  timeout_minutes : Z;
  artifacts_retention_days : Z
}.
(** The dataclass defaults. *)
Definition default : t :=
  Build DEVELOPMENT false true true None None 2 30 30.
End PipelineConfig.

Module PipelineJob.
Record t : Type := Build {
  name : string;
  stage : PipelineStage;
  commands : list string;
  environment : gmap string string;
  depends_on : option (list string);
  timeout_minutes : Z;
  retry_count : Z
}.
(** Construction with the dataclass defaults
    ([depends_on=None], [timeout_minutes=15], [retry_count=2]). *)
Definition make (name : string) (stage : PipelineStage)
    (commands : list string) (environment : gmap string string) : t :=
  Build name stage commands environment None 15 2.
End PipelineJob.

(** What [subprocess.run(..., capture_output=True, text=True)] returns. *)
Record CompletedProcess : Type := {
  returncode : Z;
  stdout : string;
  stderr : string
}.

(** ** Events *)

Inductive level : Type := DEBUG | INFO | WARNING | ERROR.

(** The log calls of the orchestrator, one constructor per format string;
    durations (clock readings) are left out of the messages. *)
Inductive log_msg : Type :=
| MsgExecutingJob (job_name : string)
| MsgRunning (command : string)
| MsgCommandFailed (command : string)
| MsgErrorOutput (err : string)
| MsgOutput (out : string)
| MsgJobCompleted (job_name : string)
| MsgJobRetrying (job_name : string) (attempt_plus_one retry_count : Z)
| MsgJobTimedOut (job_name : string) (timeout_minutes : Z)
| MsgJobFailedWithError (job_name : string) (err : string)
| MsgPipelineHeader (system_version pipeline_version env : string)
| MsgJobOf (i total : Z) (job_name : string)
| MsgPipelineFailedAt (job_name : string)
| MsgPipelineCompleted (successful_jobs total_jobs : Z)
| MsgPipelineFailed (failed_jobs total_jobs : Z).

(** [EvAttempt] is a ghost marker: it records that the body of
    [for attempt in range(job.retry_count + 1)] was entered with the given
    value of [attempt].  The other events are the calls the source makes. *)
Inductive event : Type :=
| EvLog (lvl : level) (msg : log_msg)
| EvAttempt (attempt : Z)
| EvRun (command : string) (env : gmap string string) (timeout : Z)
        (result : outcome CompletedProcess)
| EvSleep (seconds : Z).

Definition attempts_of (evs : list event) : list Z :=
  omap (fun e => match e with EvAttempt a => Some a | _ => None end) evs.

Definition runs_of (evs : list event) : list (string * outcome CompletedProcess) :=
  omap (fun e => match e with EvRun c _ _ r => Some (c, r) | _ => None end) evs.

Definition envs_of (evs : list event) : list (gmap string string) :=
  omap (fun e => match e with EvRun _ env _ _ => Some env | _ => None end) evs.

Definition sleeps_of (evs : list event) : list Z :=
  omap (fun e => match e with EvSleep s => Some s | _ => None end) evs.

(** The jobs whose execution was started, from the
    ["Executing job: {job.name}"] log line of [execute_job]. *)
Definition executed_jobs (evs : list event) : list string :=
  omap (fun e => match e with
                 | EvLog INFO (MsgExecutingJob n) => Some n
                 | _ => None
                 end) evs.

Definition exited_with (p : string * outcome CompletedProcess) (ok : bool) : Prop :=
  exists r, p.2 = Return r /\ (returncode r =? 0) = ok.

(** The shape of the subprocess calls of one attempt: the commands are
    run in order from the first one; the calls stop after the first
    command that does not exit with status 0. *)
Definition stopped_at (cmds : list string)
    (runs : list (string * outcome CompletedProcess))
    (last_ok : string * outcome CompletedProcess -> Prop) : Prop :=
  exists pre c post oks failed,
    cmds = pre ++ c :: post
    /\ runs = oks ++ [failed]
    /\ oks.*1 = pre /\ failed.1 = c
    /\ Forall (fun p => exited_with p true) oks
    /\ last_ok failed.

(** ** The orchestrator *)

(** The outside world, of state [W]: what [subprocess.run(command,
    shell=True, env=..., timeout=...)] does in it and returns or raises, and
    what [time.sleep] does. *)
Class Shell (W : Type) : Type :=
  subprocess_run : W -> string -> gmap string string -> Z -> W * outcome CompletedProcess.

Class Clock (W : Type) : Type :=
  time_sleep : W -> Z -> W.

Section Orchestrator.

Context {W : Type} `{!Shell W, !Clock W}.

Record State : Type := mkState {
  os_environ : gmap string string;
  job_results : gmap string bool;
  world : W
}.

Definition set_world (st : State) (w : W) : State :=
  mkState (os_environ st) (job_results st) w.

(** [self.job_results[name] = b] *)
Definition record_result (st : State) (name : string) (b : bool) : State :=
  mkState (os_environ st) (<[name := b]> (job_results st)) (world st).

Definition sleep (st : State) (seconds : Z) : State :=
  set_world st (time_sleep (world st) seconds).

(** The inner loop [for command in job.commands] of one attempt.  The
    returned boolean is the value of [success] when the loop is left. *)
Fixpoint run_commands (job : PipelineJob.t) (cmds : list string) (st : State)
  : State * list event * outcome bool :=
  match cmds with
  | [] => (st, [], Return true)
  | command :: rest =>
      let env := PipelineJob.environment job ∪ os_environ st in
      let timeout := PipelineJob.timeout_minutes job * 60 in
      let '(w, r) := subprocess_run (world st) command env timeout in
      let st1 := set_world st w in
      let called := [EvLog DEBUG (MsgRunning command); EvRun command env timeout r] in
      match r with
      | Raise e => (st1, called, Raise e)
      | Return result =>
          if returncode result =? 0 then
            let '(st2, evs, o) := run_commands job rest st1 in
            (st2, called ++ EvLog DEBUG (MsgOutput (stdout result)) :: evs, o)
          else
            (st1,
             called ++ [EvLog ERROR (MsgCommandFailed command);
                        EvLog ERROR (MsgErrorOutput (stderr result))],
             Return false)
      end
  end.

(** How the loop [for attempt in range(job.retry_count + 1)] is left:
    by [return True] from its body, or by exhausting the range. *)
Inductive loop_exit : Type := ReturnedTrue | Exhausted.

Fixpoint attempts (job : PipelineJob.t) (rng : list Z) (st : State)
  : State * list event * outcome loop_exit :=
  match rng with
  | [] => (st, [], Return Exhausted)
  | attempt :: rest =>
      let '(st1, evs1, r) := run_commands job (PipelineJob.commands job) st in
      match r with
      | Raise e => (st1, EvAttempt attempt :: evs1, Raise e)
      | Return true =>
          (record_result st1 (PipelineJob.name job) true,
           EvAttempt attempt :: evs1
             ++ [EvLog INFO (MsgJobCompleted (PipelineJob.name job))],
           Return ReturnedTrue)
      | Return false =>
          if attempt <? PipelineJob.retry_count job then
            let '(st2, evs2, o) := attempts job rest (sleep st1 2) in
            (st2,
             EvAttempt attempt :: evs1
               ++ [EvLog WARNING (MsgJobRetrying (PipelineJob.name job)
                                    (attempt + 1) (PipelineJob.retry_count job));
                   EvSleep 2]
               ++ evs2,
             o)
          else
            let '(st2, evs2, o) := attempts job rest st1 in
            (st2, EvAttempt attempt :: evs1 ++ evs2, o)
      end
  end.

(** [NITSPipelineOrchestrator.execute_job] *)
Definition execute_job (st : State) (job : PipelineJob.t)
  : State * list event * outcome bool :=
  let name := PipelineJob.name job in
  let '(st1, evs, r) :=
    attempts job (range (PipelineJob.retry_count job + 1)) st in
  let evs := EvLog INFO (MsgExecutingJob name) :: evs in
  match r with
  | Return ReturnedTrue => (st1, evs, Return true)
  | Return Exhausted => (record_result st1 name false, evs, Return false)
  | Raise TimeoutExpired =>
      (record_result st1 name false,
       evs ++ [EvLog ERROR (MsgJobTimedOut name (PipelineJob.timeout_minutes job))],
       Return false)
  | Raise (OtherException msg) =>
      (record_result st1 name false,
       evs ++ [EvLog ERROR (MsgJobFailedWithError name msg)],
       Return false)
  | Raise e => (st1, evs, Raise e)
  end.

(** The jobs [run_pipeline] defines from the requested stages. *)
Definition plan_jobs (config : PipelineConfig.t) (stages : list PipelineStage)
  : list PipelineJob.t :=
  (if bool_decide (VALIDATE ∈ stages) then
     [PipelineJob.make "Environment Validation" VALIDATE
        ["python nits_rdl_deployment.py --help"] ∅]
   else [])
  ++ (if bool_decide (BUILD ∈ stages) then
        [PipelineJob.make "Build Application" BUILD
           ["rm -rf node_modules/.vite-temp"; "npm ci --include=dev"; "npm run build"]
           {["NODE_ENV" := "production"]}]
      else [])
  ++ (if bool_decide (DEPLOY ∈ stages) && PipelineConfig.auto_deploy config then
        let env_name := value (PipelineConfig.environment config) in
        [PipelineJob.Build ("Deploy to " +:+ title env_name) DEPLOY
           ["python rdl_deployment_pipeline.py --environment " +:+ env_name
              +:+ " --deploy-artifacts"]
           {["NODE_ENV" := "production"]} None 5 2]
      else []).

(** The loop [for i, job in enumerate(jobs, 1)]; the returned number is
    [successful_jobs] when the loop is left (normally or by [break]). *)
Fixpoint run_jobs (total_jobs : Z) (i : Z) (jobs : list PipelineJob.t)
    (successful_jobs : Z) (st : State)
  : State * list event * outcome Z :=
  match jobs with
  | [] => (st, [], Return successful_jobs)
  | job :: rest =>
      let announced := EvLog INFO (MsgJobOf i total_jobs (PipelineJob.name job)) in
      let '(st1, evs1, r) := execute_job st job in
      match r with
      | Raise e => (st1, announced :: evs1, Raise e)
      | Return true =>
          let '(st2, evs2, o) :=
            run_jobs total_jobs (i + 1) rest (successful_jobs + 1) st1 in
          (st2, announced :: evs1 ++ evs2, o)
      | Return false =>
          (st1,
           announced :: evs1
             ++ [EvLog ERROR (MsgPipelineFailedAt (PipelineJob.name job))],
           Return successful_jobs)
      end
  end.

(** [NITSPipelineOrchestrator.run_pipeline] with an explicit stage list
    ([None] is replaced by the default list by [run_pipeline_default]). *)
Definition run_pipeline (config : PipelineConfig.t) (st : State)
    (stages : list PipelineStage)
  : State * list event * outcome bool :=
  let header :=
    EvLog INFO (MsgPipelineHeader NITS_VERSION PIPELINE_VERSION
                  (value (PipelineConfig.environment config))) in
  let jobs := plan_jobs config stages in
  let total_jobs := Z.of_nat (length jobs) in
  let '(st1, evs, r) := run_jobs total_jobs 1 jobs 0 st in
  match r with
  | Raise e => (st1, header :: evs, Raise e)
  | Return successful_jobs =>
      if successful_jobs =? total_jobs then
        (st1,
         header :: evs ++ [EvLog INFO (MsgPipelineCompleted successful_jobs total_jobs)],
         Return true)
      else
        (st1,
         header :: evs
           ++ [EvLog ERROR (MsgPipelineFailed (total_jobs - successful_jobs) total_jobs)],
         Return false)
  end.

Definition run_pipeline_default (config : PipelineConfig.t) (st : State) :=
  run_pipeline config st [VALIDATE; BUILD; DEPLOY].

(** The state in which attempt number [n] (counted from 0) of a job
    starts when every earlier attempt failed on a non-zero exit status and
    was followed by the back-off sleep; [attempt_result] and
    [attempt_events] are what that attempt then does. *)
Fixpoint attempt_state (job : PipelineJob.t) (st : State) (n : nat) : State :=
  match n with
  | O => st
  | S n' =>
      sleep (run_commands job (PipelineJob.commands job) (attempt_state job st n')).1.1 2
  end.

Definition attempt_result (job : PipelineJob.t) (st : State) (n : nat) : outcome bool :=
  (run_commands job (PipelineJob.commands job) (attempt_state job st n)).2.

Definition attempt_events (job : PipelineJob.t) (st : State) (n : nat) : list event :=
  (run_commands job (PipelineJob.commands job) (attempt_state job st n)).1.2.

(** A world in which every command exits with status 0, and one in which
    every command exits with another status. *)
Definition all_commands_succeed : Prop :=
  forall w command env timeout, exists w' result,
    subprocess_run w command env timeout = (w', Return result)
    /\ returncode result = 0.


(** The state attempt number [n] leaves behind. *)
Definition attempt_end (job : PipelineJob.t) (st : State) (n : nat) : State :=
  (run_commands job (PipelineJob.commands job) (attempt_state job st n)).1.1.

(** What a failed attempt that is retried emits after its commands: the
    warning and the back-off sleep. *)
Definition retry_events (job : PipelineJob.t) (attempt : Z) : list event :=
  [EvLog WARNING (MsgJobRetrying (PipelineJob.name job) (attempt + 1)
                    (PipelineJob.retry_count job));
   EvSleep 2].

(** The events of attempt number [n] when it fails and is retried. *)
Definition failed_attempt (job : PipelineJob.t) (st : State) (n : nat) : list event :=
  EvAttempt (Z.of_nat n) :: attempt_events job st n ++ retry_events job (Z.of_nat n).

End Orchestrator.

Arguments State : clear implicits.
Arguments mkState {W} _ _ _.

(** ** The status report *)

(** Python's [a / b] on integers, as an exact rational; the float the
    interpreter returns is the correctly rounded value of this quotient. *)
Definition truediv (a b : Z) : outcome Q :=
  if b =? 0 then Raise (OtherException "division by zero")
  else Return (inject_Z a / inject_Z b)%Q.

Record StatusReport : Type := {
  report_pipeline_version : string;
  report_system_version : string;
  report_environment : string;
  report_job_results : gmap string bool;
  report_success_rate : Q;
  report_total_jobs : Z
}.

(** [len([r for r in self.job_results.values() if r])] *)
Definition successes (results : gmap string bool) : Z :=
  Z.of_nat (length (filter (fun r : bool => r = true) (map_to_list results).*2)).

(** [len(self.job_results)] *)
Definition len (results : gmap string bool) : Z := Z.of_nat (size results).

Definition success_rate (results : gmap string bool) : outcome Q :=
  truediv (successes results) (Z.max (len results) 1).

(** [generate_pipeline_status_report]; the two clock fields [start_time]
    and [duration_seconds] are left out. *)
Definition generate_pipeline_status_report {W : Type}
    (config : PipelineConfig.t) (st : State W) : outcome StatusReport :=
  match success_rate (job_results st) with
  | Raise e => Raise e
  | Return rate =>
      Return {| report_pipeline_version := PIPELINE_VERSION;
                report_system_version := NITS_VERSION;
                report_environment := value (PipelineConfig.environment config);
                report_job_results := job_results st;
                report_success_rate := rate;
                report_total_jobs := len (job_results st) |}
  end.

(** ** Process exit *)

(** [sys.exit(code)] raises [SystemExit]. *)
Definition sys_exit {A : Type} (code : Z) : outcome A := Raise (SystemExit code).

(** The exit status of the interpreter when the script ends with the given
    outcome: 0 at the normal end, the code of an uncaught [SystemExit], 1
    after the traceback of any other uncaught exception; an uncaught
    [KeyboardInterrupt] ends the process on SIGINT (status 130). *)
Definition exit_status (o : outcome unit) : Z :=
  match o with
  | Return _ => 0
  | Raise (SystemExit code) => code
  | Raise KeyboardInterrupt => 130
  | Raise _ => 1
  end.

(** The exit code the command-line interface documents for an operation
    that returned its success flag or raised: 0 on success, 1 on failure or
    on an error, 0 on a user interrupt.  (An operation that itself called
    [sys.exit] would keep its code; none of the operations does.) *)
Definition documented_exit_code (o : outcome bool) : Z :=
  match o with
  | Return true => 0
  | Return false => 1
  | Raise KeyboardInterrupt => 0
  | Raise (SystemExit code) => code
  | Raise _ => 1
  end.

(** ** Entry point of [rdl_deployment_pipeline.py] *)

Module RdlDeploymentPipeline.

(** The parsed command line. *)
Record Args : Type := {
  environment : PipelineEnvironment;
  auto_deploy : bool;
  validate_only : bool;
  create_workflow : bool;
  deploy_artifacts : bool;
  github_token : option string;
  parallel_jobs : Z;
  timeout : Z
}.

Inductive main_msg : Type :=
| MsgReportSaved
| MsgInterrupted
| MsgPipelineError (e : exn).

Inductive main_event : Type :=
| Orchestrator (e : event)
| MainLog (lvl : level) (msg : main_msg).

(** The three operations that only touch the file system, the network
    and the sibling script, and the writing of [pipeline-status.json]. *)
Class Operations (W : Type) : Type := {
  create_workflow_file : W -> W * outcome bool;
  validate_pipeline : W -> W * outcome bool;
  deploy_artifacts_op : W -> W * outcome bool;
  write_report : W -> StatusReport -> W * outcome unit
}.

Section Main.
Context {W : Type} `{!Shell W, !Clock W, !Operations W}.

(** [x or y] on optional strings: the empty string is falsy. *)
Definition or_else (x y : option string) : option string :=
  match x with
  | Some s => if bool_decide (s = EmptyString) then y else x
  | None => y
  end.

Definition make_config (args : Args) (environ : gmap string string)
  : PipelineConfig.t :=
  PipelineConfig.Build (environment args) (auto_deploy args) true true None
    (or_else (github_token args) (environ !! "GITHUB_TOKEN"))
    (parallel_jobs args) (timeout args) 30.

(** An operation of the orchestrator followed by
    [sys.exit(0 if success else 1)]. *)
Definition exit_with (st : State W) (op : W -> W * outcome bool)
  : State W * list main_event * outcome unit :=
  let '(w, r) := op (world st) in
  match r with
  | Raise e => (set_world st w, [], Raise e)
  | Return success => (set_world st w, [], sys_exit (if success then 0 else 1))
  end.

(** The body of the [try] statement of [main]. *)
Definition main_body (args : Args) (config : PipelineConfig.t) (st : State W)
  : State W * list main_event * outcome unit :=
  if create_workflow args then exit_with st create_workflow_file
  else if validate_only args then exit_with st validate_pipeline
  else if deploy_artifacts args then exit_with st deploy_artifacts_op
  else
    let stages := [VALIDATE; BUILD] ++ (if auto_deploy args then [DEPLOY] else []) in
    let '(st1, evs, r) := run_pipeline config st stages in
    let evs := map Orchestrator evs in
    match r with
    | Raise e => (st1, evs, Raise e)
    | Return success =>
        match generate_pipeline_status_report config st1 with
        | Raise e => (st1, evs, Raise e)
        | Return status_report =>
            let '(w, written) := write_report (world st1) status_report in
            match written with
            | Raise e => (set_world st1 w, evs, Raise e)
            | Return _ =>
                (set_world st1 w, evs ++ [MainLog INFO MsgReportSaved],
                 sys_exit (if success then 0 else 1))
            end
        end
    end.

(** [main] after argument parsing: the orchestrator is constructed
    (empty [job_results]), the body runs, and the two [except] clauses
    handle what it raises. *)
Definition main (args : Args) (environ : gmap string string) (w : W)
  : State W * list main_event * outcome unit :=
  let config := make_config args environ in
  let orchestrator := mkState environ ∅ w in
  let '(st, evs, o) := main_body args config orchestrator in
  match o with
  | Return _ => (st, evs, o)
  | Raise KeyboardInterrupt => (st, evs ++ [MainLog INFO MsgInterrupted], sys_exit 0)
  | Raise e =>
      if is_Exception e
      then (st, evs ++ [MainLog ERROR (MsgPipelineError e)], sys_exit 1)
      else (st, evs, Raise e)
  end.

(** What the mode selected by the arguments does, as one operation
    returning its success flag: the value [main] passes to [sys.exit],
    or the exception that reaches the [except] clauses. *)
Definition requested_operation (args : Args) (environ : gmap string string) (w : W)
  : outcome bool :=
  if create_workflow args then (create_workflow_file w).2
  else if validate_only args then (validate_pipeline w).2
  else if deploy_artifacts args then (deploy_artifacts_op w).2
  else
    let config := make_config args environ in
    let stages := [VALIDATE; BUILD] ++ (if auto_deploy args then [DEPLOY] else []) in
    let '(st1, _, r) :=
      run_pipeline config (mkState environ ∅ w) stages in
    match r with
    | Raise e => Raise e
    | Return success =>
        match generate_pipeline_status_report config st1 with
        | Raise e => Raise e
        | Return status_report =>
            match (write_report (world st1) status_report).2 with
            | Raise e => Raise e
            | Return _ => Return success
            end
        end
    end.
End Main.

End RdlDeploymentPipeline.

(** ** [nits_rdl_deployment.py]: the deployment steps and the entry point *)

Module NitsRdlDeployment.

Record DeploymentConfig : Type := {
  environment : string;
  port : Z;
  host : string;
  build_dir : string;
  node_env : string;
  ssl_enabled : bool;
  ssl_cert_path : option string;
  ssl_key_path : option string;
  auto_open_browser : bool;
  log_level : string;
  health_check_interval : Z;
  max_retries : Z
}.

Record Args : Type := {
  env : string;
  args_port : Z;
  args_host : string;
  no_browser : bool;
  args_log_level : string;
  build_only : bool
}.

(** [DeploymentConfig(environment=..., port=..., host=...,
    auto_open_browser=..., log_level=...)], the other fields at their
    defaults. *)
Definition make_config (args : Args) : DeploymentConfig :=
  {| environment := env args; port := args_port args; host := args_host args;
     build_dir := "dist"; node_env := "production"; ssl_enabled := false;
     ssl_cert_path := None; ssl_key_path := None;
     auto_open_browser := negb (no_browser args);
     log_level := args_log_level args;
     health_check_interval := 30; max_retries := 3 |}.

Inductive deploy_msg : Type :=
| MsgBanner (env : string)
| MsgStep (step_name : string)
| MsgStepRetrying (step_name : string) (retry_count max_retries : Z)
| MsgStepFailedAfter (step_name : string) (max_retries : Z)
| MsgDeploymentCompleted
| MsgDeploymentFailed
| MsgDeploymentInterrupted
| MsgUnexpectedError (e : exn).

Inductive deploy_event : Type :=
| DLog (lvl : level) (msg : deploy_msg)
| DCall (step_name : string) (result : outcome bool)
| DSleep (seconds : Z).

(** The calls of step functions, in order. *)
Definition calls_of (evs : list deploy_event) : list (string * outcome bool) :=
  omap (fun e => match e with DCall n r => Some (n, r) | _ => None end) evs.

(** The four step functions, each returning its success flag or
    raising, and [stop_server]. *)
Class Steps (W : Type) : Type := {
  validate_environment : W -> W * outcome bool;
  install_dependencies : W -> W * outcome bool;
  build_application : W -> W * outcome bool;
  start_server : W -> W * outcome bool;
  stop_server : W -> W
}.

Section Deploy.
Context {W : Type} `{!Clock W, !Steps W}.

(** How the [while] loop of one step is left: by [break] or by its
    condition becoming false, or by [return False] out of [deploy]. *)
Inductive step_exit : Type := LoopLeft | ReturnedFalse.

(** [while retry_count < self.config.max_retries: ...] for one step.
    [fuel] bounds the number of iterations; [None] means it ran out. *)
Fixpoint retry_loop (fuel : nat) (max_retries : Z) (step_name : string)
    (step_func : W -> W * outcome bool) (retry_count : Z) (w : W)
  : option (W * list deploy_event * outcome step_exit) :=
  if retry_count <? max_retries then
    match fuel with
    | O => None
    | S fuel' =>
        let '(w1, r) := step_func w in
        match r with
        | Raise e => Some (w1, [DCall step_name r], Raise e)
        | Return true => Some (w1, [DCall step_name r], Return LoopLeft)
        | Return false =>
            let retry_count := retry_count + 1 in
            if retry_count <? max_retries then
              match retry_loop fuel' max_retries step_name step_func retry_count
                      (time_sleep w1 2) with
              | None => None
              | Some (w2, evs, o) =>
                  Some (w2,
                        DCall step_name r
                          :: DLog WARNING (MsgStepRetrying step_name retry_count max_retries)
                          :: DSleep 2 :: evs,
                        o)
              end
            else
              Some (w1,
                    [DCall step_name r;
                     DLog ERROR (MsgStepFailedAfter step_name max_retries)],
                    Return ReturnedFalse)
        end
    end
  else Some (w, [], Return LoopLeft).

(** [for step_name, step_func in steps: ...]; the value is what
    [deploy] returns. *)
Fixpoint run_steps (max_retries : Z)
    (steps : list (string * (W -> W * outcome bool))) (w : W)
  : option (W * list deploy_event * outcome bool) :=
  match steps with
  | [] => Some (w, [], Return true)
  | (step_name, step_func) :: rest =>
      match retry_loop (Z.to_nat max_retries) max_retries step_name step_func 0 w with
      | None => None
      | Some (w1, evs1, Raise e) =>
          Some (w1, DLog INFO (MsgStep step_name) :: evs1, Raise e)
      | Some (w1, evs1, Return ReturnedFalse) =>
          Some (w1, DLog INFO (MsgStep step_name) :: evs1, Return false)
      | Some (w1, evs1, Return LoopLeft) =>
          match run_steps max_retries rest w1 with
          | None => None
          | Some (w2, evs2, o) =>
              Some (w2, DLog INFO (MsgStep step_name) :: evs1 ++ evs2, o)
          end
      end
  end.

Definition steps : list (string * (W -> W * outcome bool)) :=
  [("Environment Validation", validate_environment);
   ("Dependency Installation", install_dependencies);
   ("Application Build", build_application);
   ("Server Start", start_server)].

(** [NITSRapidDeployment.deploy] *)
Definition deploy (config : DeploymentConfig) (w : W)
  : option (W * list deploy_event * outcome bool) :=
  match run_steps (max_retries config) steps w with
  | None => None
  | Some (w1, evs, o) => Some (w1, DLog INFO (MsgBanner (environment config)) :: evs, o)
  end.

(** [f() and g()]: [g] is called only when [f] returned true. *)
Definition and_then (f g : W -> W * list deploy_event * outcome bool) (w : W)
  : W * list deploy_event * outcome bool :=
  let '(w1, evs1, r) := f w in
  match r with
  | Return true => let '(w2, evs2, o) := g w1 in (w2, evs1 ++ evs2, o)
  | _ => (w1, evs1, r)
  end.

Definition call (step_name : string) (step_func : W -> W * outcome bool) (w : W)
  : W * list deploy_event * outcome bool :=
  let '(w1, r) := step_func w in (w1, [DCall step_name r], r).

(** The build-only mode: validation, installation and build, once
    each, without retry. *)
Definition build_only_steps : W -> W * list deploy_event * outcome bool :=
  and_then (call "Environment Validation" validate_environment)
    (and_then (call "Dependency Installation" install_dependencies)
              (call "Application Build" build_application)).

(** The operation the arguments select. *)
Definition requested_operation (args : Args) (w : W)
  : option (W * list deploy_event * outcome bool) :=
  if build_only args then Some (build_only_steps w)
  else deploy (make_config args) w.

(** The body of the [try] statement of [main]. *)
Definition main_body (args : Args) (w : W)
  : option (W * list deploy_event * outcome unit) :=
  match requested_operation args w with
  | None => None
  | Some (w1, evs, Raise e) => Some (w1, evs, Raise e)
  | Some (w1, evs, Return success) =>
      if success
      then Some (w1, evs ++ [DLog INFO MsgDeploymentCompleted], sys_exit 0)
      else Some (w1, evs ++ [DLog ERROR MsgDeploymentFailed], sys_exit 1)
  end.

(** [main] after argument parsing: the body and the two [except]
    clauses. *)
Definition main (args : Args) (w : W)
  : option (W * list deploy_event * outcome unit) :=
  match main_body args w with
  | None => None
  | Some (w1, evs, Return u) => Some (w1, evs, Return u)
  | Some (w1, evs, Raise KeyboardInterrupt) =>
      Some (stop_server w1, evs ++ [DLog INFO MsgDeploymentInterrupted], sys_exit 0)
  | Some (w1, evs, Raise e) =>
      if is_Exception e
      then Some (w1, evs ++ [DLog ERROR (MsgUnexpectedError e)], sys_exit 1)
      else Some (w1, evs, Raise e)
  end.
End Deploy.

End NitsRdlDeployment.

(** ** Environment checks of the two scripts *)

Module Checks.

(** What [subprocess.run([tool, "--version"], ...)] does: the tool runs
    (whatever its exit status), the executable is missing
    ([FileNotFoundError]), or another exception is raised. *)
Inductive tool_result : Type :=
| Ran (result : CompletedProcess)
| NotFound
| Failed (e : exn).

(** The project directory: which tools can be started, and which paths
    below the project root exist. *)
Class Project (W : Type) : Type := {
  run_tool : W -> list string -> W * tool_result;
  path_exists : W -> string -> bool
}.

(** The log lines of the two validations; the version strings printed by
    the tools are left out of the messages. *)
Inductive check_msg : Type :=
| MsgValidating
| MsgToolDetected (tool : string)
| MsgToolNotFound (tool : string)
| MsgPackageJsonMissing
| MsgRequiredFileMissing (file : string)
| MsgEnvironmentValid
| MsgValidatingPipeline
| MsgEnvironmentValidationFailed
| MsgTokenConfigured
| MsgTokenNotConfigured
| MsgPipelineFileMissing (file : string)
| MsgPipelineValid.

Inductive check_event : Type :=
| CLog (lvl : level) (msg : check_msg)
| CTool (argv : list string) (result : tool_result).

Definition tools_of (evs : list check_event) : list (list string) :=
  omap (fun e => match e with CTool argv _ => Some argv | _ => None end) evs.

(** The files the error lines name as missing. *)
Definition reported_missing (evs : list check_event) : list string :=
  omap (fun e => match e with
                 | CLog ERROR MsgPackageJsonMissing => Some "package.json"
                 | CLog ERROR (MsgRequiredFileMissing f) => Some f
                 | CLog ERROR (MsgPipelineFileMissing f) => Some f
                 | _ => None
                 end) evs.

Section Checks.

Context {W : Type} `{!Project W}.

(** [for file in required_files: if not (root / file).exists(): ...]: the
    first file of the list that does not exist. *)
Fixpoint first_missing (w : W) (files : list string) : option string :=
  match files with
  | [] => None
  | file :: rest => if path_exists w file then first_missing w rest else Some file
  end.

(** One of the two [try: subprocess.run(...) except FileNotFoundError]
    blocks; [Return true] means the block was left normally. *)
Definition detect (tool : string) (w : W) : W * list check_event * outcome bool :=
  let argv := [tool; "--version"] in
  let '(w1, r) := run_tool w argv in
  match r with
  | Ran _ => (w1, [CTool argv r; CLog INFO (MsgToolDetected tool)], Return true)
  | NotFound => (w1, [CTool argv r; CLog ERROR (MsgToolNotFound tool)], Return false)
  | Failed e => (w1, [CTool argv r], Raise e)
  end.

Definition required_files : list string :=
  ["vite.config.ts"; "src/App.tsx"; "tailwind.config.js"].

(** [NITSRapidDeployment.validate_environment] *)
Definition validate_environment (w : W) : W * list check_event * outcome bool :=
  let start := CLog INFO MsgValidating in
  let '(w1, evs1, r1) := detect "node" w in
  match r1 with
  | Raise e => (w1, start :: evs1, Raise e)
  | Return false => (w1, start :: evs1, Return false)
  | Return true =>
      let '(w2, evs2, r2) := detect "npm" w1 in
      match r2 with
      | Raise e => (w2, start :: evs1 ++ evs2, Raise e)
      | Return false => (w2, start :: evs1 ++ evs2, Return false)
      | Return true =>
          if negb (path_exists w2 "package.json") then
            (w2, start :: evs1 ++ evs2 ++ [CLog ERROR MsgPackageJsonMissing], Return false)
          else
            match first_missing w2 required_files with
            | Some file =>
                (w2, start :: evs1 ++ evs2 ++ [CLog ERROR (MsgRequiredFileMissing file)],
                 Return false)
            | None =>
                (w2, start :: evs1 ++ evs2 ++ [CLog INFO MsgEnvironmentValid], Return true)
            end
      end
  end.

Definition pipeline_required_files : list string :=
  ["package.json"; "nits_rdl_deployment.py"].

(** [NITSPipelineOrchestrator.validate_pipeline] *)
Definition validate_pipeline (config : PipelineConfig.t) (w : W)
  : W * list check_event * outcome bool :=
  let start := CLog INFO MsgValidatingPipeline in
  let '(w1, evs1, r) := validate_environment w in
  match r with
  | Raise e => (w1, start :: evs1, Raise e)
  | Return false =>
      (w1, start :: evs1 ++ [CLog ERROR MsgEnvironmentValidationFailed], Return false)
  | Return true =>
      let token :=
        match PipelineConfig.github_token config with
        | Some s =>
            if bool_decide (s = EmptyString) then CLog WARNING MsgTokenNotConfigured
            else CLog INFO MsgTokenConfigured
        | None => CLog WARNING MsgTokenNotConfigured
        end in
      match first_missing w1 pipeline_required_files with
      | Some file =>
          (w1, start :: evs1 ++ [token; CLog ERROR (MsgPipelineFileMissing file)],
           Return false)
      | None =>
          (w1, start :: evs1 ++ [token; CLog INFO MsgPipelineValid], Return true)
      end
  end.

End Checks.

End Checks.

(** ** The static file server of [nits_rdl_deployment.py] *)

Module Server.

(** [s.startswith(prefix)] and [s.endswith(suffix)] *)
Fixpoint startswith (s prefix : string) : bool :=
  match prefix with
  | EmptyString => true
  | String b prefix' =>
      match s with
      | EmptyString => false
      | String a s' => if Ascii.eqb a b then startswith s' prefix' else false
      end
  end.

Fixpoint endswith (s suffix : string) : bool :=
  if String.eqb s suffix then true
  else match s with
       | EmptyString => false
       | String _ s' => endswith s' suffix
       end.

Definition static_suffixes : list string :=
  [".css"; ".js"; ".png"; ".jpg"; ".svg"; ".ico"].

(** [NITSSecureHTTPRequestHandler.do_GET]: the value of [self.path] when
    the request is handed to [SimpleHTTPRequestHandler.do_GET]. *)
Definition do_GET (path : string) : string :=
  if negb (startswith path "/assets/") && negb (existsb (endswith path) static_suffixes)
  then if negb (String.eqb path "/") then "/index.html" else path
  else path.

(** What [sock.bind((host, port))] does: it succeeds, raises [OSError], or
    raises something else. *)
Inductive bind_result : Type :=
| Bound
| BindOSError
| BindFailed (e : exn).

(** The machine the server runs on. *)
Class Host (W : Type) : Type := {
  path_exists : W -> string -> bool;
  bind : W -> string -> Z -> W * bind_result;
  chdir : W -> string -> W * outcome unit;
  TCPServer : W -> string -> Z -> W * outcome unit;
  serve_forever : W -> W * outcome unit;
  shutdown : W -> W
}.

Inductive server_msg : Type :=
| MsgBuildDirectoryNotFound
| MsgPortUnavailable (original_port new_port : Z)
| MsgStartingServer (host : string) (port : Z)
| MsgDeployed (host : string) (port : Z) (build_dir : string)
| MsgOpeningBrowser
| MsgHealthMonitoringStarted
| MsgServerRunning
| MsgShutdownSignal
| MsgServerError (e : exn)
| MsgStoppingServer
| MsgServerStopped
| MsgNoArtifacts
| MsgDeployingArtifacts.

Inductive server_event : Type :=
| SLog (lvl : level) (msg : server_msg)
| Probe (host : string) (port : Z) (result : bind_result)
| Chdir (dir : string) (result : outcome unit)
| Listen (host : string) (port : Z) (result : outcome unit)
| BrowserTimer (host : string) (port : Z)
| HealthThread
| Serve (result : outcome unit)
| Shutdown.

Definition probes_of (evs : list server_event) : list (Z * bind_result) :=
  omap (fun e => match e with Probe _ p r => Some (p, r) | _ => None end) evs.

Definition listens_of (evs : list server_event) : list (string * Z) :=
  omap (fun e => match e with Listen h p _ => Some (h, p) | _ => None end) evs.

(** The results of the operations inside the [try] statement of
    [start_server]. *)
Definition raised_in_try (evs : list server_event) : list exn :=
  omap (fun e => match e with
                 | Chdir _ (Raise x) | Listen _ _ (Raise x) | Serve (Raise x) => Some x
                 | _ => None
                 end) evs.

(** The attributes of a [NITSRapidDeployment] object that the server
    methods read and write; [server_process] holds the address the
    [TCPServer] was created on. *)
Record Deployment : Type := {
  config : NitsRdlDeployment.DeploymentConfig;
  server_process : option (string * Z);
  health_monitor_active : bool
}.

(** [NITSRapidDeployment(config)] *)
Definition new (config : NitsRdlDeployment.DeploymentConfig) : Deployment :=
  {| config := config; server_process := None; health_monitor_active := false |}.

(** [DeploymentConfig()] with every field at its default. *)
Definition default_config : NitsRdlDeployment.DeploymentConfig :=
  {| NitsRdlDeployment.environment := "development";
     NitsRdlDeployment.port := 5000;
     NitsRdlDeployment.host := "localhost";
     NitsRdlDeployment.build_dir := "dist";
     NitsRdlDeployment.node_env := "production";
     NitsRdlDeployment.ssl_enabled := false;
     NitsRdlDeployment.ssl_cert_path := None;
     NitsRdlDeployment.ssl_key_path := None;
     NitsRdlDeployment.auto_open_browser := true;
     NitsRdlDeployment.log_level := "INFO";
     NitsRdlDeployment.health_check_interval := 30;
     NitsRdlDeployment.max_retries := 3 |}.

(** [self.config.port = p] *)
Definition set_port (d : Deployment) (p : Z) : Deployment :=
  let c := config d in
  {| config :=
       {| NitsRdlDeployment.environment := NitsRdlDeployment.environment c;
          NitsRdlDeployment.port := p;
          NitsRdlDeployment.host := NitsRdlDeployment.host c;
          NitsRdlDeployment.build_dir := NitsRdlDeployment.build_dir c;
          NitsRdlDeployment.node_env := NitsRdlDeployment.node_env c;
          NitsRdlDeployment.ssl_enabled := NitsRdlDeployment.ssl_enabled c;
          NitsRdlDeployment.ssl_cert_path := NitsRdlDeployment.ssl_cert_path c;
          NitsRdlDeployment.ssl_key_path := NitsRdlDeployment.ssl_key_path c;
          NitsRdlDeployment.auto_open_browser := NitsRdlDeployment.auto_open_browser c;
          NitsRdlDeployment.log_level := NitsRdlDeployment.log_level c;
          NitsRdlDeployment.health_check_interval :=
            NitsRdlDeployment.health_check_interval c;
          NitsRdlDeployment.max_retries := NitsRdlDeployment.max_retries c |};
     server_process := server_process d;
     health_monitor_active := health_monitor_active d |}.

Section Server.

Context {W : Type} `{!Host W}.

(** [NITSRapidDeployment.check_port_availability]: [True] when the bind
    succeeds, [False] on [OSError]; any other exception escapes. *)
Definition check_port_availability (host : string) (port : Z) (w : W)
  : W * list server_event * outcome bool :=
  let '(w1, r) := bind w host port in
  match r with
  | Bound => (w1, [Probe host port r], Return true)
  | BindOSError => (w1, [Probe host port r], Return false)
  | BindFailed e => (w1, [Probe host port r], Raise e)
  end.

(** [while port < start_port + 100: ...] of [find_available_port]; [fuel]
    bounds the number of iterations, [None] means it ran out. *)
Fixpoint find_port_loop (fuel : nat) (host : string) (start_port port : Z) (w : W)
  : option (W * list server_event * outcome Z) :=
  if port <? start_port + 100 then
    match fuel with
    | O => None
    | S fuel' =>
        let '(w1, evs1, r) := check_port_availability host port w in
        match r with
        | Raise e => Some (w1, evs1, Raise e)
        | Return true => Some (w1, evs1, Return port)
        | Return false =>
            match find_port_loop fuel' host start_port (port + 1) w1 with
            | None => None
            | Some (w2, evs2, o) => Some (w2, evs1 ++ evs2, o)
            end
        end
    end
  else Some (w, [], Raise (OtherException "No available ports found in range")).

(** [NITSRapidDeployment.find_available_port] *)
Definition find_available_port (host : string) (start_port : Z) (w : W)
  : option (W * list server_event * outcome Z) :=
  find_port_loop 100 host start_port start_port w.

(** [NITSRapidDeployment.stop_server] *)
Definition stop_server (d : Deployment) (w : W) : Deployment * W * list server_event :=
  let stopped :=
    {| config := config d; server_process := None; health_monitor_active := false |} in
  match server_process d with
  | Some _ =>
      (stopped, shutdown w,
       [SLog INFO MsgStoppingServer; Shutdown; SLog INFO MsgServerStopped])
  | None => (stopped, w, [SLog INFO MsgStoppingServer; SLog INFO MsgServerStopped])
  end.

(** [NITSRapidDeployment.start_health_monitoring]: the flag is set and the
    daemon thread started. *)
Definition start_health_monitoring (d : Deployment) : Deployment * list server_event :=
  ({| config := config d; server_process := server_process d;
      health_monitor_active := true |},
   [HealthThread; SLog INFO MsgHealthMonitoringStarted]).

(** The body of the [try] statement of [start_server]. *)
Definition serve (d : Deployment) (w : W)
  : Deployment * W * list server_event * outcome unit :=
  let c := config d in
  let host := NitsRdlDeployment.host c in
  let port := NitsRdlDeployment.port c in
  let '(w1, r1) := chdir w (NitsRdlDeployment.build_dir c) in
  let evs1 := [Chdir (NitsRdlDeployment.build_dir c) r1] in
  match r1 with
  | Raise e => (d, w1, evs1, Raise e)
  | Return _ =>
      let '(w2, r2) := TCPServer w1 host port in
      let evs2 := evs1 ++ [Listen host port r2] in
      match r2 with
      | Raise e => (d, w2, evs2, Raise e)
      | Return _ =>
          let d1 :=
            {| config := c; server_process := Some (host, port);
               health_monitor_active := health_monitor_active d |} in
          let browser :=
            if NitsRdlDeployment.auto_open_browser c
            then [BrowserTimer host port; SLog INFO MsgOpeningBrowser] else [] in
          let '(d2, health) :=
            if String.eqb (NitsRdlDeployment.environment c) "production"
            then start_health_monitoring d1 else (d1, []) in
          let '(w3, r3) := serve_forever w2 in
          (d2, w3,
           evs2 ++ SLog INFO (MsgDeployed host port (NitsRdlDeployment.build_dir c))
             :: browser ++ health ++ [SLog INFO MsgServerRunning; Serve r3],
           r3)
      end
  end.

(** The [try] statement with its two [except] clauses, and the final
    [return True]. *)
Definition serve_guarded (d : Deployment) (w : W)
  : Deployment * W * list server_event * outcome bool :=
  let '(d1, w1, evs, r) := serve d w in
  match r with
  | Return _ => (d1, w1, evs, Return true)
  | Raise KeyboardInterrupt =>
      let '(d2, w2, evs2) := stop_server d1 w1 in
      (d2, w2, evs ++ SLog INFO MsgShutdownSignal :: evs2, Return true)
  | Raise e =>
      if is_Exception e
      then (d1, w1, evs ++ [SLog ERROR (MsgServerError e)], Return false)
      else (d1, w1, evs, Raise e)
  end.

(** [NITSRapidDeployment.start_server] *)
Definition start_server (d : Deployment) (w : W)
  : option (Deployment * W * list server_event * outcome bool) :=
  let c := config d in
  let host := NitsRdlDeployment.host c in
  let port := NitsRdlDeployment.port c in
  if negb (path_exists w (NitsRdlDeployment.build_dir c)) then
    Some (d, w, [SLog ERROR MsgBuildDirectoryNotFound], Return false)
  else
    let '(w1, evs1, r1) := check_port_availability host port w in
    let chosen :=
      match r1 with
      | Raise e => Some (d, w1, evs1, Raise e)
      | Return true => Some (d, w1, evs1, Return tt)
      | Return false =>
          match find_available_port host port w1 with
          | None => None
          | Some (w2, evs2, Raise e) => Some (d, w2, evs1 ++ evs2, Raise e)
          | Some (w2, evs2, Return p) =>
              Some (set_port d p, w2,
                    evs1 ++ evs2 ++ [SLog WARNING (MsgPortUnavailable port p)],
                    Return tt)
          end
      end in
    match chosen with
    | None => None
    | Some (d1, w2, evs, Raise e) => Some (d1, w2, evs, Raise e)
    | Some (d1, w2, evs, Return _) =>
        let '(d2, w3, evs3, o) := serve_guarded d1 w2 in
        Some (d2, w3,
              evs ++ SLog INFO (MsgStartingServer host
                                  (NitsRdlDeployment.port (config d1))) :: evs3,
              o)
    end.

(** [NITSPipelineOrchestrator.deploy_artifacts]: the deployment object is
    built from [DeploymentConfig(environment=..., auto_open_browser=False)]. *)
Definition artifacts_config (config : PipelineConfig.t)
  : NitsRdlDeployment.DeploymentConfig :=
  {| NitsRdlDeployment.environment := value (PipelineConfig.environment config);
     NitsRdlDeployment.port := 5000;
     NitsRdlDeployment.host := "localhost";
     NitsRdlDeployment.build_dir := "dist";
     NitsRdlDeployment.node_env := "production";
     NitsRdlDeployment.ssl_enabled := false;
     NitsRdlDeployment.ssl_cert_path := None;
     NitsRdlDeployment.ssl_key_path := None;
     NitsRdlDeployment.auto_open_browser := false;
     NitsRdlDeployment.log_level := "INFO";
     NitsRdlDeployment.health_check_interval := 30;
     NitsRdlDeployment.max_retries := 3 |}.

Definition deploy_artifacts (config : PipelineConfig.t) (w : W)
  : option (Deployment * W * list server_event * outcome bool) :=
  if negb (path_exists w "dist") then
    Some (new (artifacts_config config), w,
          [SLog INFO MsgDeployingArtifacts; SLog ERROR MsgNoArtifacts], Return false)
  else
    match start_server (new (artifacts_config config)) w with
    | None => None
    | Some (d, w1, evs, o) => Some (d, w1, SLog INFO MsgDeployingArtifacts :: evs, o)
    end.

End Server.

End Server.

(** Concrete machines for the server: the ports of [busy] cannot be bound,
    a port above 65535 makes [bind] raise [OverflowError], the directories
    of [dirs] exist, and serving ends with [served]. *)
Definition machine (busy : list Z) (dirs : list string) (served : outcome unit)
  : Server.Host unit :=
  {| Server.path_exists := fun _ path => bool_decide (path ∈ dirs);
     Server.bind := fun w host port =>
       (w, if 65535 <? port then Server.BindFailed (OtherException "OverflowError")
           else if bool_decide (port ∈ busy) then Server.BindOSError
           else Server.Bound);
     Server.chdir := fun w dir => (w, Return tt);
     Server.TCPServer := fun w host port => (w, Return tt);
     Server.serve_forever := fun w => (w, served);
     Server.shutdown := fun w => w |}.

(** Concrete project directories: the tools of [tools] can be started and
    the paths of [files] exist. *)
Definition project (tools : list string) (files : list string) : Checks.Project unit :=
  {| Checks.run_tool := fun w argv =>
       (w, match argv with
           | tool :: _ =>
               if bool_decide (tool ∈ tools)
               then Checks.Ran {| returncode := 1; stdout := "v18"; stderr := EmptyString |}
               else Checks.NotFound
           | [] => Checks.NotFound
           end);
     Checks.path_exists := fun _ path => bool_decide (path ∈ files) |}.

(** ** Projections of the events of [deploy] *)

(** The steps that returned [True], and the sleeps, in order. *)
Definition successful_steps (evs : list NitsRdlDeployment.deploy_event) : list string :=
  omap (fun e => match e with
                 | NitsRdlDeployment.DCall n (Return true) => Some n
                 | _ => None
                 end) evs.

Definition deploy_sleeps (evs : list NitsRdlDeployment.deploy_event) : list Z :=
  omap (fun e => match e with NitsRdlDeployment.DSleep s => Some s | _ => None end) evs.

Definition step_names : list string :=
  ["Environment Validation"; "Dependency Installation"; "Application Build";
   "Server Start"].

(** ** Projections of the events of the server *)

(** The browser timers started, the health threads started, the
    shutdowns, the directories [os.chdir] was called with, and the
    addresses on which a [TCPServer] was created. *)
Definition browser_timers (evs : list Server.server_event) : list (string * Z) :=
  omap (fun e => match e with Server.BrowserTimer h p => Some (h, p) | _ => None end) evs.

Definition health_threads (evs : list Server.server_event) : list unit :=
  omap (fun e => match e with Server.HealthThread => Some tt | _ => None end) evs.

Definition shutdowns (evs : list Server.server_event) : list unit :=
  omap (fun e => match e with Server.Shutdown => Some tt | _ => None end) evs.

Definition changed_directories (evs : list Server.server_event) : list string :=
  omap (fun e => match e with Server.Chdir dir _ => Some dir | _ => None end) evs.

Definition created_servers (evs : list Server.server_event) : list (string * Z) :=
  omap (fun e => match e with
                 | Server.Listen h p (Return _) => Some (h, p)
                 | _ => None
                 end) evs.

(** The bind results [find_available_port] goes through before it returns
    [port]: an [OSError] for each port from [start] up to [port]. *)
Definition busy_until (start port : Z) : list (Z * Server.bind_result) :=
  (fun q => (q, Server.BindOSError)) <$> seqZ start (port - start).

(** ** Concrete worlds

    A scripted world counts the subprocess calls made so far; the n-th call
    gets the n-th entry of the script, and every call past its end gets
    [rest].  Sleeping changes nothing. *)

Definition exit_code (n : Z) : outcome CompletedProcess :=
  Return {| returncode := n; stdout := EmptyString; stderr := EmptyString |}.

Definition scripted (script : list (outcome CompletedProcess))
    (rest : outcome CompletedProcess) : Shell nat :=
  fun w command env timeout => (S w, nth w script rest).

Definition no_sleep : Clock nat := fun w seconds => w.

Definition fresh_state (environ : gmap string string) : State nat := mkState environ ∅ O.

(** A job with two commands and the default retry budget. *)
Definition two_commands : PipelineJob.t :=
  PipelineJob.make "Build" BUILD ["npm ci"; "npm run build"] {["NODE_ENV" := "production"]}.

(** A job with a single command, a timeout of one minute and a budget of
    two retries. *)
Definition one_command : PipelineJob.t :=
  PipelineJob.Build "Slow" TEST ["sleep 120"] ∅ None 1 2.

(** Deployment steps over a world that counts the calls of step functions:
    [build_application] returns [False] on the calls numbered below
    [first_good_call] and [True] from then on; the other steps succeed. *)
Definition always (o : outcome bool) (w : nat) : nat * outcome bool := (S w, o).

Definition build_fails_until (first_good_call : nat) : NitsRdlDeployment.Steps nat :=
  {| NitsRdlDeployment.validate_environment := always (Return true);
     NitsRdlDeployment.install_dependencies := always (Return true);
     NitsRdlDeployment.build_application :=
       fun w => (S w, Return (first_good_call <=? w)%nat);
     NitsRdlDeployment.start_server := always (Return true);
     NitsRdlDeployment.stop_server := fun w => w |}.

Definition deployment_args : NitsRdlDeployment.Args :=
  {| NitsRdlDeployment.env := "development";
     NitsRdlDeployment.args_port := 5000;
     NitsRdlDeployment.args_host := "localhost";
     NitsRdlDeployment.no_browser := true;
     NitsRdlDeployment.args_log_level := "INFO";
     NitsRdlDeployment.build_only := false |}.

(** The same arguments with [--build-only], and a configuration whose
    [max_retries] is 0. *)
Definition build_only_args : NitsRdlDeployment.Args :=
  {| NitsRdlDeployment.env := "development";
     NitsRdlDeployment.args_port := 5000;
     NitsRdlDeployment.args_host := "localhost";
     NitsRdlDeployment.no_browser := true;
     NitsRdlDeployment.args_log_level := "INFO";
     NitsRdlDeployment.build_only := true |}.

Definition without_retries : NitsRdlDeployment.DeploymentConfig :=
  {| NitsRdlDeployment.environment := "development";
     NitsRdlDeployment.port := 5000;
     NitsRdlDeployment.host := "localhost";
     NitsRdlDeployment.build_dir := "dist";
     NitsRdlDeployment.node_env := "production";
     NitsRdlDeployment.ssl_enabled := false;
     NitsRdlDeployment.ssl_cert_path := None;
     NitsRdlDeployment.ssl_key_path := None;
     NitsRdlDeployment.auto_open_browser := true;
     NitsRdlDeployment.log_level := "INFO";
     NitsRdlDeployment.health_check_interval := 30;
     NitsRdlDeployment.max_retries := 0 |}.

(** A job that is given no retry budget at all, and a job without
    commands. *)
Definition negative_budget : PipelineJob.t :=
  PipelineJob.Build "Never" TEST ["true"] ∅ None 1 (-1).

Definition no_commands : PipelineJob.t :=
  PipelineJob.Build "Empty" TEST [] ∅ None 1 2.

(** What a run that returned consists of. *)
Definition run_of {A : Type} (run : option A) (default : A) : A :=
  match run with Some r => r | None => default end.

(** * Properties of the orchestrator *)

Section OrchestratorFacts.

Context {W : Type} `{!Shell W, !Clock W}.

Implicit Types (st : State W) (job : PipelineJob.t) (evs : list event).

(** ** The projections of an event list *)

Lemma attempts_of_app evs1 evs2 :
  attempts_of (evs1 ++ evs2) = attempts_of evs1 ++ attempts_of evs2.
Proof. apply omap_app. Qed.

Lemma runs_of_app evs1 evs2 : runs_of (evs1 ++ evs2) = runs_of evs1 ++ runs_of evs2.
Proof. apply omap_app. Qed.

Lemma envs_of_app evs1 evs2 : envs_of (evs1 ++ evs2) = envs_of evs1 ++ envs_of evs2.
Proof. apply omap_app. Qed.

Lemma sleeps_of_app evs1 evs2 :
  sleeps_of (evs1 ++ evs2) = sleeps_of evs1 ++ sleeps_of evs2.
Proof. apply omap_app. Qed.

Lemma executed_jobs_app evs1 evs2 :
  executed_jobs (evs1 ++ evs2) = executed_jobs evs1 ++ executed_jobs evs2.
Proof. apply omap_app. Qed.

(** ** One attempt *)

(** An attempt writes neither [os.environ] nor [job_results], starts no
    attempt and does not sleep. *)
Lemma run_commands_frame job cmds st :
  os_environ (run_commands job cmds st).1.1 = os_environ st
  /\ job_results (run_commands job cmds st).1.1 = job_results st
  /\ attempts_of (run_commands job cmds st).1.2 = []
  /\ sleeps_of (run_commands job cmds st).1.2 = []
  /\ executed_jobs (run_commands job cmds st).1.2 = [].
Proof.
  revert st. induction cmds as [|command rest IH]; intros st; simpl; [done|].
  destruct (subprocess_run _ _ _ _) as [w [result|e]]; simpl; [|done].
  destruct (returncode result =? 0); simpl; [|done].
  specialize (IH (set_world st w)).
  destruct (run_commands job rest (set_world st w)) as [[st2 evs] o]; simpl in *.
  done.
Qed.

(** Every subprocess of an attempt is given the job's overrides merged
    over the environment of the state the attempt started in. *)
Lemma run_commands_envs job cmds st :
  Forall (fun env => env = PipelineJob.environment job ∪ os_environ st)
         (envs_of (run_commands job cmds st).1.2).
Proof.
  revert st. induction cmds as [|command rest IH]; intros st; simpl; [constructor|].
  destruct (subprocess_run _ _ _ _) as [w [result|e]]; simpl;
    [|by repeat constructor].
  destruct (returncode result =? 0); simpl; [|by repeat constructor].
  specialize (IH (set_world st w)).
  destruct (run_commands job rest (set_world st w)) as [[st2 evs] o]; simpl in *.
  by constructor.
Qed.

Lemma stopped_at_cons cmds runs P command result :
  returncode result = 0 ->
  stopped_at cmds runs P ->
  stopped_at (command :: cmds) ((command, Return result) :: runs) P.
Proof.
  intros Hz (pre & c & post & oks & failed & -> & -> & <- & <- & Hoks & HP).
  exists (command :: oks.*1), failed.1, post, ((command, Return result) :: oks), failed.
  repeat split; try done.
  constructor; [|done]. exists result. split; [done|]. by apply Z.eqb_eq.
Qed.

Lemma run_commands_shape job cmds st :
  match (run_commands job cmds st).2 with
  | Return true =>
      (runs_of (run_commands job cmds st).1.2).*1 = cmds
      /\ Forall (fun p => exited_with p true) (runs_of (run_commands job cmds st).1.2)
  | Return false =>
      stopped_at cmds (runs_of (run_commands job cmds st).1.2)
        (fun p => exited_with p false)
  | Raise e =>
      stopped_at cmds (runs_of (run_commands job cmds st).1.2)
        (fun p => p.2 = Raise e)
  end.
Proof.
  revert st. induction cmds as [|command rest IH]; intros st; simpl.
  { split; [done|constructor]. }
  destruct (subprocess_run _ _ _ _) as [w [result|e]] eqn:Hrun; simpl.
  - destruct (returncode result =? 0) eqn:Hcode; simpl.
    + apply Z.eqb_eq in Hcode.
      specialize (IH (set_world st w)).
      destruct (run_commands job rest (set_world st w)) as [[st2 evs] o]; simpl in *.
      destruct o as [[|]|e].
      * destruct IH as [IH1 IH2]. split; [f_equal; exact IH1|].
        constructor; [|done]. exists result. split; [done|]. by apply Z.eqb_eq.
      * by apply stopped_at_cons.
      * by apply stopped_at_cons.
    + exists [], command, rest, [], (command, Return result).
      repeat split; try done. exists result. by split.
  - exists [], command, rest, [], (command, Raise e). by repeat split.
Qed.

(** ** The retry loop *)

Lemma range_seq (n : Z) : range n = Z.of_nat <$> seq 0 (Z.to_nat n).
Proof. reflexivity. Qed.

Lemma attempts_of_failed_attempt job st i :
  attempts_of (failed_attempt job st i) = [Z.of_nat i].
Proof.
  unfold failed_attempt, attempt_events.
  cbn [attempts_of omap list_omap]. rewrite attempts_of_app.
  destruct (run_commands_frame job (PipelineJob.commands job) (attempt_state job st i))
    as (_ & _ & -> & _). done.
Qed.

Lemma attempts_of_failed_attempts job st a k :
  attempts_of (concat (failed_attempt job st <$> seq a k)) = Z.of_nat <$> seq a k.
Proof.
  revert a. induction k as [|k IH]; intros a; [done|].
  cbn [seq fmap list_fmap concat]. rewrite attempts_of_app, attempts_of_failed_attempt.
  simpl. f_equal. apply IH.
Qed.

Lemma sleeps_of_failed_attempts job st a k :
  sleeps_of (concat (failed_attempt job st <$> seq a k)) = replicate k 2.
Proof.
  revert a. induction k as [|k IH]; intros a; [done|].
  cbn [seq fmap list_fmap concat replicate]. rewrite sleeps_of_app, IH.
  unfold failed_attempt, attempt_events.
  cbn [sleeps_of omap list_omap]. rewrite sleeps_of_app.
  destruct (run_commands_frame job (PipelineJob.commands job) (attempt_state job st a))
    as (_ & _ & _ & -> & _). done.
Qed.

(** As long as attempts fail on a non-zero exit status and the retry
    budget is not used up, the loop sleeps and goes on with the next
    attempt, which runs the whole command list again. *)
Lemma attempts_retry job st k : forall a n,
  (k <= n)%nat ->
  Z.of_nat (a + k) <= PipelineJob.retry_count job ->
  (forall i, (a <= i < a + k)%nat -> attempt_result job st i = Return false) ->
  attempts job (Z.of_nat <$> seq a n) (attempt_state job st a) =
    let '(st2, evs2, o) :=
      attempts job (Z.of_nat <$> seq (a + k) (n - k)) (attempt_state job st (a + k)) in
    (st2, concat (failed_attempt job st <$> seq a k) ++ evs2, o).
Proof.
  induction k as [|k IH]; intros a n Hn Hr Hfail.
  { rewrite Nat.add_0_r, Nat.sub_0_r. simpl.
    by destruct (attempts _ _ _) as [[st2 evs2] o]. }
  destruct n as [|n]; [lia|].
  cbn [seq fmap list_fmap attempts].
  pose proof (Hfail a ltac:(lia)) as Ha.
  unfold attempt_result in Ha.
  destruct (run_commands job (PipelineJob.commands job) (attempt_state job st a))
    as [[st1 evs1] r] eqn:Hrun.
  simpl in Ha. subst r.
  replace (Z.of_nat a <? PipelineJob.retry_count job) with true
    by (symmetry; apply Z.ltb_lt; lia).
  assert (sleep st1 2 = attempt_state job st (S a)) as ->.
  { simpl. by rewrite Hrun. }
  rewrite (IH (S a) n) by (try lia; intros i Hi; apply Hfail; lia).
  replace (S a + k)%nat with (a + S k)%nat by lia.
  replace (S n - S k)%nat with (n - k)%nat by lia.
  destruct (attempts _ _ _) as [[st2 evs2] o].
  f_equal. f_equal.
  cbn [concat]. unfold failed_attempt at 2.
  unfold attempt_events. rewrite Hrun. simpl.
  unfold retry_events. by rewrite <- !app_assoc.
Qed.

Lemma run_commands_eta job st n :
  run_commands job (PipelineJob.commands job) (attempt_state job st n)
  = (attempt_end job st n, attempt_events job st n, attempt_result job st n).
Proof.
  unfold attempt_end, attempt_events, attempt_result.
  by destruct (run_commands _ _ _) as [[? ?] ?].
Qed.

Lemma attempts_succeeds job st k m :
  attempt_result job st k = Return true ->
  attempts job (Z.of_nat <$> seq k (S m)) (attempt_state job st k)
  = (record_result (attempt_end job st k) (PipelineJob.name job) true,
     EvAttempt (Z.of_nat k) :: attempt_events job st k
       ++ [EvLog INFO (MsgJobCompleted (PipelineJob.name job))],
     Return ReturnedTrue).
Proof.
  intros Hk. cbn [seq fmap list_fmap attempts].
  by rewrite run_commands_eta, Hk.
Qed.

Lemma attempts_raises job st k m e :
  attempt_result job st k = Raise e ->
  attempts job (Z.of_nat <$> seq k (S m)) (attempt_state job st k)
  = (attempt_end job st k, EvAttempt (Z.of_nat k) :: attempt_events job st k, Raise e).
Proof.
  intros Hk. cbn [seq fmap list_fmap attempts].
  by rewrite run_commands_eta, Hk.
Qed.


(** The loop of [execute_job] after [k] failed attempts within the
    budget. *)
Lemma attempts_after_failures job st k :
  Z.of_nat k <= PipelineJob.retry_count job ->
  (forall i, (i < k)%nat -> attempt_result job st i = Return false) ->
  attempts job (range (PipelineJob.retry_count job + 1)) st =
    let '(st2, evs2, o) :=
      attempts job
        (Z.of_nat <$> seq k (S (Z.to_nat (PipelineJob.retry_count job) - k)))
        (attempt_state job st k) in
    (st2, concat (failed_attempt job st <$> seq 0 k) ++ evs2, o).
Proof.
  intros Hr Hfail. rewrite range_seq.
  change st with (attempt_state job st 0) at 1.
  rewrite (attempts_retry job st k 0) by (try lia; intros i Hi; apply Hfail; lia).
  replace (Z.to_nat (PipelineJob.retry_count job + 1) - k)%nat
    with (S (Z.to_nat (PipelineJob.retry_count job) - k)) by lia.
  done.
Qed.




(** ** Frame properties of [execute_job] *)

Lemma attempts_frame job rng st :
  os_environ (attempts job rng st).1.1 = os_environ st
  /\ job_results (attempts job rng st).1.1
     = match (attempts job rng st).2 with
       | Return ReturnedTrue => <[PipelineJob.name job := true]> (job_results st)
       | _ => job_results st
       end
  /\ Forall (fun env => env = PipelineJob.environment job ∪ os_environ st)
            (envs_of (attempts job rng st).1.2)
  /\ executed_jobs (attempts job rng st).1.2 = [].
Proof.
  revert st. induction rng as [|attempt rest IH]; intros st.
  { simpl. repeat split; constructor. }
  cbn [attempts].
  pose proof (run_commands_frame job (PipelineJob.commands job) st)
    as (Henv & Hres & _ & _ & Hexec).
  pose proof (run_commands_envs job (PipelineJob.commands job) st) as Henvs.
  destruct (run_commands job (PipelineJob.commands job) st) as [[st1 evs1] r].
  simpl in Henv, Hres, Hexec, Henvs.
  destruct r as [[|]|e]; simpl.
  - rewrite Henv, Hres. repeat split; try done.
    + change (EvAttempt attempt :: ?l) with ([EvAttempt attempt] ++ l).
      rewrite !envs_of_app. simpl. by rewrite app_nil_r.
    + change (EvAttempt attempt :: ?l) with ([EvAttempt attempt] ++ l).
      rewrite !executed_jobs_app, Hexec. done.
  - destruct (attempt <? PipelineJob.retry_count job).
    + specialize (IH (sleep st1 2)).
      destruct (attempts job rest (sleep st1 2)) as [[st2 evs2] o].
      simpl in *. destruct IH as (IH1 & IH2 & IH3 & IH4).
      rewrite Henv in *. rewrite Hres in *.
      repeat split; try done.
      * change (EvAttempt attempt :: ?l) with ([EvAttempt attempt] ++ l).
        rewrite !envs_of_app. simpl. by apply Forall_app.
      * change (EvAttempt attempt :: ?l) with ([EvAttempt attempt] ++ l).
        rewrite !executed_jobs_app, Hexec. simpl. by rewrite IH4.
    + specialize (IH st1).
      destruct (attempts job rest st1) as [[st2 evs2] o].
      simpl in *. destruct IH as (IH1 & IH2 & IH3 & IH4).
      rewrite Henv in *. rewrite Hres in *.
      repeat split; try done.
      * change (EvAttempt attempt :: ?l) with ([EvAttempt attempt] ++ l).
        rewrite !envs_of_app. simpl. by apply Forall_app.
      * change (EvAttempt attempt :: ?l) with ([EvAttempt attempt] ++ l).
        rewrite !executed_jobs_app, Hexec, IH4. done.
  - repeat split; done.
Qed.

(** What [execute_job] does to [job_results]. *)
Lemma execute_job_job_results job st :
  match (execute_job st job).2 with
  | Return b =>
      job_results (execute_job st job).1.1
      = <[PipelineJob.name job := b]> (job_results st)
  | Raise e =>
      is_Exception e = false
      /\ job_results (execute_job st job).1.1 = job_results st
  end.
Proof.
  unfold execute_job.
  pose proof (attempts_frame job (range (PipelineJob.retry_count job + 1)) st)
    as (_ & Hres & _).
  destruct (attempts job (range (PipelineJob.retry_count job + 1)) st)
    as [[st1 evs] r].
  simpl in Hres.
  destruct r as [[|]|[| |code|msg]]; simpl; rewrite ?Hres; done.
Qed.

(** C9. When [execute_job] returns [b] for a job, [job_results] maps the
    job's name to [b] and is unchanged at every other name; so a failed
    job is recorded (as [False]).  The only way not to return is an
    exception outside [Exception] (a user interrupt), which leaves
    [job_results] as it was. *)
Theorem execute_job_records_result job st :
  match (execute_job st job).2 with
  | Return b =>
      job_results (execute_job st job).1.1 !! PipelineJob.name job = Some b
      /\ (forall other, other <> PipelineJob.name job ->
            job_results (execute_job st job).1.1 !! other = job_results st !! other)
      /\ job_results (execute_job st job).1.1
         = <[PipelineJob.name job := b]> (job_results st)
  | Raise e =>
      is_Exception e = false
      /\ job_results (execute_job st job).1.1 = job_results st
  end.
Proof.
  pose proof (execute_job_job_results job st) as Hrec.
  destruct (execute_job st job).2 as [b|e]; [|exact Hrec].
  rewrite Hrec. split; [apply lookup_insert_eq|].
  split; [|reflexivity].
  intros other Hne. by apply lookup_insert_ne.
Qed.

(** C7. [execute_job] leaves [os.environ] as it found it; every
    subprocess it starts is given a separate mapping, the job's overrides
    merged over [os.environ] (an override wins over the ambient value). *)
Theorem execute_job_preserves_environ job st :
  os_environ (execute_job st job).1.1 = os_environ st
  /\ Forall (fun env =>
               env = PipelineJob.environment job ∪ os_environ st
               /\ forall key,
                    env !! key = match PipelineJob.environment job !! key with
                                 | Some v => Some v
                                 | None => os_environ st !! key
                                 end)
            (envs_of (execute_job st job).1.2).
Proof.
  unfold execute_job.
  pose proof (attempts_frame job (range (PipelineJob.retry_count job + 1)) st)
    as (Henv & _ & Henvs & _).
  destruct (attempts job (range (PipelineJob.retry_count job + 1)) st)
    as [[st1 evs] r].
  simpl in Henv, Henvs.
  assert (Forall (fun env =>
               env = PipelineJob.environment job ∪ os_environ st
               /\ forall key,
                    env !! key = match PipelineJob.environment job !! key with
                                 | Some v => Some v
                                 | None => os_environ st !! key
                                 end) (envs_of evs)) as Hall.
  { eapply Forall_impl; [exact Henvs|]. intros env ->. split; [done|].
    intros key. rewrite lookup_union.
    destruct (PipelineJob.environment job !! key), (os_environ st !! key); done. }
  destruct r as [[|]|[| |code|msg]]; simpl; (split; [done|]);
    rewrite ?envs_of_app; simpl; rewrite ?app_nil_r; done.
Qed.

(** ** Timeouts *)

(** An attempt that raises ends with the subprocess call that raised. *)
Lemma run_commands_raise_last job cmds st e :
  (run_commands job cmds st).2 = Raise e ->
  exists before command env timeout,
    (run_commands job cmds st).1.2 = before ++ [EvRun command env timeout (Raise e)].
Proof.
  revert st. induction cmds as [|command rest IH]; intros st; simpl; [done|].
  destruct (subprocess_run _ _ _ _) as [w [result|e']]; simpl.
  - destruct (returncode result =? 0); simpl; [|done].
    specialize (IH (set_world st w)).
    destruct (run_commands job rest (set_world st w)) as [[st2 evs] o]; simpl in *.
    intros Ho. destruct (IH Ho) as (before & c & env & t & ->).
    eexists (_ :: _ :: _ :: before), c, env, t. reflexivity.
  - intros [= ->]. eexists [_], _, _, _. reflexivity.
Qed.

(** C3, as the code has it.  When a command of attempt number [k] exceeds
    the timeout, the job is reported with the timed-out message (the last
    two events are the subprocess call that raised [TimeoutExpired] and
    the ["timed out"] error line, not the ["Command failed"] line),
    [execute_job] returns [False] and records it, and no attempt and no
    sleep follows, whatever is left of the retry budget. *)
Theorem execute_job_timeout_ends_job job st (k : nat) :
  Z.of_nat k <= PipelineJob.retry_count job ->
  (forall i, (i < k)%nat -> attempt_result job st i = Return false) ->
  attempt_result job st k = Raise TimeoutExpired ->
  (execute_job st job).2 = Return false
  /\ job_results (execute_job st job).1.1 !! PipelineJob.name job = Some false
  /\ attempts_of (execute_job st job).1.2 = range (Z.of_nat k + 1)
  /\ sleeps_of (execute_job st job).1.2 = replicate k 2
  /\ exists before command env timeout,
       (execute_job st job).1.2
       = before ++ [EvRun command env timeout (Raise TimeoutExpired);
                    EvLog ERROR (MsgJobTimedOut (PipelineJob.name job)
                                   (PipelineJob.timeout_minutes job))].
Proof.
  intros Hr Hfail Hk.
  pose proof (execute_job_job_results job st) as Hrec.
  pose proof (run_commands_frame job (PipelineJob.commands job) (attempt_state job st k))
    as (_ & _ & Hat & Hsl & _).
  fold (attempt_events job st k) in Hat, Hsl.
  pose proof (run_commands_raise_last job (PipelineJob.commands job)
                (attempt_state job st k) TimeoutExpired Hk)
    as (before & c & env & t & Hlast).
  fold (attempt_events job st k) in Hlast.
  revert Hrec. unfold execute_job.
  rewrite (attempts_after_failures job st k) by done.
  rewrite attempts_raises with (e := TimeoutExpired) by done.
  simpl. intros Hrec.
  split; [done|]. split; [by rewrite Hrec, lookup_insert_eq|].
  split; [|split].
  - rewrite !attempts_of_app, attempts_of_failed_attempts. simpl.
    rewrite Hat, range_seq. simpl.
    replace (Z.to_nat (Z.of_nat k + 1)) with (k + 1)%nat by lia.
    by rewrite seq_app, fmap_app, app_nil_r.
  - rewrite !sleeps_of_app, sleeps_of_failed_attempts. simpl.
    rewrite Hsl. simpl. by rewrite !app_nil_r.
  - rewrite Hlast.
    exists (EvLog INFO (MsgExecutingJob (PipelineJob.name job))
              :: concat (failed_attempt job st <$> seq 0 k)
              ++ EvAttempt (Z.of_nat k) :: before), c, env, t.
    simpl. f_equal. rewrite <- !app_assoc. simpl. by rewrite <- app_assoc.
Qed.

(** ** Short-circuit and full re-run *)

Lemma attempts_head job st k m :
  exists rest,
    (attempts job (Z.of_nat <$> seq k (S m)) (attempt_state job st k)).1.2
    = EvAttempt (Z.of_nat k) :: attempt_events job st k ++ rest.
Proof.
  cbn [seq fmap list_fmap attempts]. rewrite run_commands_eta.
  destruct (attempt_result job st k) as [[|]|e]; simpl.
  - eauto.
  - destruct (Z.of_nat k <? PipelineJob.retry_count job).
    + destruct (attempts _ _ _) as [[st2 evs2] o]. simpl. eauto.
    + destruct (attempts _ _ _) as [[st2 evs2] o]. simpl. eauto.
  - exists []. by rewrite app_nil_r.
Qed.

Lemma attempt_runs_prefix job st i :
  exists n,
    (runs_of (attempt_events job st i)).*1 = take n (PipelineJob.commands job)
    /\ (PipelineJob.commands job <> [] -> (1 <= n)%nat).
Proof.
  pose proof (run_commands_shape job (PipelineJob.commands job) (attempt_state job st i))
    as Hshape.
  fold (attempt_events job st i) in Hshape.
  assert (forall P, stopped_at (PipelineJob.commands job)
                      (runs_of (attempt_events job st i)) P ->
                    exists n,
                      (runs_of (attempt_events job st i)).*1
                      = take n (PipelineJob.commands job)
                      /\ (PipelineJob.commands job <> [] -> (1 <= n)%nat)) as Hstop.
  { intros P (pre & c & post & oks & failed & Hc & -> & <- & <- & _).
    exists (S (length oks)). split; [|lia].
    rewrite Hc, fmap_app. simpl.
    rewrite (cons_middle failed.1 (oks.*1) post), app_assoc, take_app_length'; [done|].
    rewrite length_app, length_fmap. simpl. lia. }
  destruct (run_commands _ _ _).2 as [[|]|e]; eauto.
  destruct Hshape as [Hcmds _].
  exists (length (PipelineJob.commands job)). split.
  - by rewrite firstn_all.
  - destruct (PipelineJob.commands job); [done|simpl; lia].
Qed.

(** C6. Let the first [k] attempts of a job fail on a non-zero exit status,
    within the retry budget.  Each of them ran the commands from the
    first one up to and including the first command with a non-zero exit
    status, and none after it.  The events of [execute_job] are then: for
    each of these attempts its subprocess calls, the retry warning and a
    sleep of 2 seconds, followed by attempt number [k], which starts again
    from the first command of the whole list. *)
Theorem retry_reruns_whole_sequence job st (k : nat) :
  Z.of_nat k <= PipelineJob.retry_count job ->
  (forall i, (i < k)%nat -> attempt_result job st i = Return false) ->
  (forall i, (i < k)%nat ->
     stopped_at (PipelineJob.commands job) (runs_of (attempt_events job st i))
       (fun p => exited_with p false))
  /\ (exists rest,
        (execute_job st job).1.2
        = EvLog INFO (MsgExecutingJob (PipelineJob.name job))
            :: concat ((fun i : nat =>
                          EvAttempt (Z.of_nat i) :: attempt_events job st i
                            ++ [EvLog WARNING
                                  (MsgJobRetrying (PipelineJob.name job)
                                     (Z.of_nat i + 1) (PipelineJob.retry_count job));
                                EvSleep 2]) <$> seq 0 k)
            ++ EvAttempt (Z.of_nat k) :: attempt_events job st k ++ rest)
  /\ (forall i, (i <= k)%nat ->
        exists n,
          (runs_of (attempt_events job st i)).*1 = take n (PipelineJob.commands job)
          /\ (PipelineJob.commands job <> [] -> (1 <= n)%nat))
  /\ (forall i, (i <= k)%nat ->
        sleeps_of (attempt_events job st i) = []
        /\ attempts_of (attempt_events job st i) = []).
Proof.
  intros Hr Hfail. split; [|split; [|split]].
  - intros i Hi.
    pose proof (run_commands_shape job (PipelineJob.commands job)
                  (attempt_state job st i)) as Hshape.
    specialize (Hfail i Hi). unfold attempt_result in Hfail.
    by rewrite Hfail in Hshape.
  - unfold execute_job.
    rewrite (attempts_after_failures job st k) by done.
    destruct (attempts_head job st k (Z.to_nat (PipelineJob.retry_count job) - k))
      as [rest Hrest].
    destruct (attempts _ _ _) as [[st2 evs2] o]. simpl in Hrest. subst evs2.
    change (fun i : nat => EvAttempt (Z.of_nat i) :: attempt_events job st i ++ _)
      with (failed_attempt job st).
    destruct o as [[|]|[| |code|msg]]; simpl;
      first [ by exists rest
            | eexists (rest ++ [_]); f_equal;
              rewrite <- !app_assoc; simpl; by rewrite <- !app_assoc ].
  - intros i _. apply attempt_runs_prefix.
  - intros i _.
    pose proof (run_commands_frame job (PipelineJob.commands job)
                  (attempt_state job st i)) as (_ & _ & Hat & Hsl & _).
    by split.
Qed.

(** ** The job loop of [run_pipeline] *)

Lemma execute_job_executed job st :
  executed_jobs (execute_job st job).1.2 = [PipelineJob.name job].
Proof.
  unfold execute_job.
  pose proof (attempts_frame job (range (PipelineJob.retry_count job + 1)) st)
    as (_ & _ & _ & Hexec).
  destruct (attempts job (range (PipelineJob.retry_count job + 1)) st)
    as [[st1 evs] r].
  simpl in Hexec.
  destruct r as [[|]|[| |code|msg]]; simpl;
    rewrite ?executed_jobs_app, Hexec; done.
Qed.

(** What the loop has done when it is left with [successful_jobs]
    increased by [p]: the first [p] jobs succeeded, and the job after
    them, if there is one, failed and was the last one executed. *)
Lemma run_jobs_spec total jobs : forall i s st st' evs s',
  run_jobs total i jobs s st = (st', evs, Return s') ->
  NoDup (PipelineJob.name <$> jobs) ->
  (forall j, j ∈ jobs -> job_results st !! PipelineJob.name j = None) ->
  exists p : nat,
    s' = s + Z.of_nat p
    /\ (p <= length jobs)%nat
    /\ executed_jobs evs = PipelineJob.name <$> take (S p) jobs
    /\ size (job_results st') = (size (job_results st) + length (take (S p) jobs))%nat
    /\ (forall q j, jobs !! q = Some j -> (q < p)%nat ->
          job_results st' !! PipelineJob.name j = Some true)
    /\ (forall j, jobs !! p = Some j ->
          job_results st' !! PipelineJob.name j = Some false
          /\ EvLog INFO (MsgJobOf (i + Z.of_nat p) total (PipelineJob.name j)) ∈ evs)
    /\ (forall n, n ∉ PipelineJob.name <$> take (S p) jobs ->
          job_results st' !! n = job_results st !! n).
Proof.
  induction jobs as [|job rest IH]; intros i s st st' evs s' Hrun Hnodup Hfresh.
  { simpl in Hrun. injection Hrun as <- <- <-. exists O.
    repeat split; simpl; try done; lia. }
  cbn [run_jobs] in Hrun.
  pose proof (execute_job_job_results job st) as Hrec.
  pose proof (execute_job_executed job st) as Hexec.
  destruct (execute_job st job) as [[st1 evs1] r]. simpl in Hrec, Hexec.
  apply NoDup_cons in Hnodup as [Hnotin Hnodup].
  assert (job_results st !! PipelineJob.name job = None) as Hnone
    by (apply Hfresh; left).
  destruct r as [[|]|e]; [| |done].
  - pose proof Hrec as Hins.
    assert (job_results st1 !! PipelineJob.name job = Some true) as Hhere
      by (by rewrite Hins, lookup_insert_eq).
    assert (forall other, other <> PipelineJob.name job ->
              job_results st1 !! other = job_results st !! other) as Hother
      by (intros other Hne; by rewrite Hins, lookup_insert_ne).
    destruct (run_jobs total (i + 1) rest (s + 1) st1) as [[st2 evs2] o] eqn:Hrest.
    injection Hrun as <- <- ->.
    destruct (IH _ _ _ _ _ _ Hrest Hnodup) as (p & -> & Hp & Hex & Hsize & Hok & Hbad & Hframe).
    { intros j Hj. rewrite Hother; [apply Hfresh; by right|].
      intros Heq. apply Hnotin. rewrite <- Heq. by apply list_elem_of_fmap_2. }
    exists (S p). split; [lia|]. split; [simpl; lia|].
    split; [|split; [|split; [|split]]].
    + change (?a :: evs1 ++ evs2) with ([a] ++ evs1 ++ evs2).
      rewrite !executed_jobs_app, Hexec, Hex. done.
    + rewrite Hsize, Hins, map_size_insert_None by done. simpl. lia.
    + intros [|q] j Hj Hq; simpl in Hj.
      * injection Hj as <-. rewrite Hframe; [done|].
        intros Hin. apply Hnotin.
        eapply list_elem_of_fmap in Hin as (x & -> & Hx).
        apply list_elem_of_fmap_2. by eapply subseteq_take.
      * apply (Hok q); [done|lia].
    + intros j Hj. simpl in Hj. destruct (Hbad j Hj) as [Hf Hin]. split; [done|].
      replace (i + Z.of_nat (S p)) with (i + 1 + Z.of_nat p) by lia.
      right. apply elem_of_app. by right.
    + intros n Hn. rewrite Hframe.
      * apply Hother. intros ->. apply Hn. left.
      * intros Hin. apply Hn. by right.
  - pose proof Hrec as Hins.
    assert (job_results st1 !! PipelineJob.name job = Some false) as Hhere
      by (by rewrite Hins, lookup_insert_eq).
    assert (forall other, other <> PipelineJob.name job ->
              job_results st1 !! other = job_results st !! other) as Hother
      by (intros other Hne; by rewrite Hins, lookup_insert_ne).
    injection Hrun as <- <- <-. exists O.
    split; [lia|]. split; [simpl; lia|].
    split; [|split; [|split; [|split]]].
    + change (?a :: evs1 ++ ?l) with ([a] ++ evs1 ++ l).
      rewrite !executed_jobs_app, Hexec. done.
    + rewrite Hins, map_size_insert_None by done. simpl. lia.
    + intros q j _ Hq. lia.
    + intros j Hj. injection Hj as <-. split; [done|].
      rewrite Z.add_0_r. left.
    + intros n Hn. apply Hother. intros ->. apply Hn. left.
Qed.

(** The planned jobs have pairwise distinct names. *)
Lemma plan_jobs_NoDup config stages :
  NoDup (PipelineJob.name <$> plan_jobs config stages).
Proof.
  unfold plan_jobs.
  destruct (bool_decide (VALIDATE ∈ stages)), (bool_decide (BUILD ∈ stages)),
    (bool_decide (DEPLOY ∈ stages)), (PipelineConfig.auto_deploy config),
    (PipelineConfig.environment config);
    simpl; apply (bool_decide_unpack _); by vm_compute.
Qed.

Lemma run_pipeline_result config st stages :
  (run_pipeline config st stages).1.1
  = (run_jobs (Z.of_nat (length (plan_jobs config stages))) 1
       (plan_jobs config stages) 0 st).1.1
  /\ executed_jobs (run_pipeline config st stages).1.2
     = executed_jobs (run_jobs (Z.of_nat (length (plan_jobs config stages))) 1
                        (plan_jobs config stages) 0 st).1.2
  /\ (forall e, e ∈ (run_jobs (Z.of_nat (length (plan_jobs config stages))) 1
                       (plan_jobs config stages) 0 st).1.2 ->
                e ∈ (run_pipeline config st stages).1.2)
  /\ (run_pipeline config st stages).2
     = match (run_jobs (Z.of_nat (length (plan_jobs config stages))) 1
                (plan_jobs config stages) 0 st).2 with
       | Return s => Return (s =? Z.of_nat (length (plan_jobs config stages)))
       | Raise e => Raise e
       end.
Proof.
  unfold run_pipeline.
  destruct (run_jobs _ _ _ _ _) as [[st1 evs] [s|e]]; simpl.
  - destruct (s =? _); simpl; repeat split; try done.
    + change (?a :: evs ++ ?l) with ([a] ++ evs ++ l).
      rewrite !executed_jobs_app. simpl. by rewrite app_nil_r.
    + intros e He. right. apply elem_of_app. by left.
    + change (?a :: evs ++ ?l) with ([a] ++ evs ++ l).
      rewrite !executed_jobs_app. simpl. by rewrite app_nil_r.
    + intros e He. right. apply elem_of_app. by left.
  - repeat split; try done. intros e' He. by right.
Qed.

(** C2. On a freshly constructed orchestrator, when [run_pipeline]
    returns [False] there is a first failed job, the one the loop
    [for i, job in enumerate(jobs, 1)] numbered [i]: the jobs before it
    succeeded, it is recorded as failed, the jobs executed are exactly the
    first [i] planned jobs (none after it), and [job_results] holds [i]
    entries (the failed job included), whatever the number of planned
    jobs. *)
Theorem run_pipeline_halts_at_first_failure config st stages :
  job_results st = ∅ ->
  (run_pipeline config st stages).2 = Return false ->
  exists (i : nat) (job : PipelineJob.t),
    (1 <= i <= length (plan_jobs config stages))%nat
    /\ plan_jobs config stages !! (i - 1)%nat = Some job
    /\ EvLog INFO (MsgJobOf (Z.of_nat i)
                     (Z.of_nat (length (plan_jobs config stages)))
                     (PipelineJob.name job))
         ∈ (run_pipeline config st stages).1.2
    /\ job_results (run_pipeline config st stages).1.1 !! PipelineJob.name job
       = Some false
    /\ (forall q j, plan_jobs config stages !! q = Some j -> (q < i - 1)%nat ->
          job_results (run_pipeline config st stages).1.1 !! PipelineJob.name j
          = Some true)
    /\ executed_jobs (run_pipeline config st stages).1.2
       = PipelineJob.name <$> take i (plan_jobs config stages)
    /\ size (job_results (run_pipeline config st stages).1.1) = i.
Proof.
  intros Hempty Hverdict.
  destruct (run_pipeline_result config st stages) as (-> & -> & Hevs & Hres).
  rewrite Hres in Hverdict. clear Hres.
  destruct (run_jobs _ _ _ _ _) as [[st1 evs] [s|e]] eqn:Hrun; [|done].
  simpl in *. injection Hverdict as Hs. apply Z.eqb_neq in Hs.
  destruct (run_jobs_spec _ _ _ _ _ _ _ _ Hrun (plan_jobs_NoDup config stages))
    as (p & -> & Hp & Hex & Hsize & Hok & Hbad & _).
  { intros j _. by rewrite Hempty, lookup_empty. }
  assert (p < length (plan_jobs config stages))%nat as Hlt by lia.
  destruct (lookup_lt_is_Some_2 _ _ Hlt) as [job Hjob].
  destruct (Hbad job Hjob) as [Hfalse Hin].
  exists (S p), job. replace (S p - 1)%nat with p by lia.
  split; [lia|]. split; [done|]. split.
  { apply Hevs. by replace (Z.of_nat (S p)) with (1 + Z.of_nat p) by lia. }
  split; [done|]. split; [done|]. split; [done|].
  rewrite Hsize, Hempty, map_size_empty, length_take. lia.
Qed.

(** C5. On a freshly constructed orchestrator, the value [run_pipeline]
    returns is [True] exactly when [job_results] has as many entries as
    there are planned jobs and every entry is [True]. *)
Theorem run_pipeline_verdict config st stages (b : bool) :
  job_results st = ∅ ->
  (run_pipeline config st stages).2 = Return b ->
  b = true
  <-> size (job_results (run_pipeline config st stages).1.1)
      = length (plan_jobs config stages)
      /\ forall n v,
           job_results (run_pipeline config st stages).1.1 !! n = Some v -> v = true.
Proof.
  intros Hempty Hverdict.
  destruct (run_pipeline_result config st stages) as (-> & _ & _ & Hres).
  rewrite Hres in Hverdict. clear Hres.
  destruct (run_jobs _ _ _ _ _) as [[st1 evs] [s|e]] eqn:Hrun; [|done].
  simpl in *. injection Hverdict as <-.
  destruct (run_jobs_spec _ _ _ _ _ _ _ _ Hrun (plan_jobs_NoDup config stages))
    as (p & -> & Hp & _ & Hsize & Hok & Hbad & Hframe).
  { intros j _. by rewrite Hempty, lookup_empty. }
  split.
  - intros Hs. apply Z.eqb_eq in Hs.
    assert (p = length (plan_jobs config stages)) as Hall by lia.
    split.
    + rewrite Hsize, Hempty, map_size_empty, length_take. lia.
    + intros n v Hn.
      destruct (decide (n ∈ PipelineJob.name <$> take (S p) (plan_jobs config stages)))
        as [Hin|Hnotin].
      * apply list_elem_of_fmap in Hin as (j & -> & Hj).
        apply elem_of_take in Hj as (q & Hq & _).
        rewrite (Hok q j Hq) in Hn; [congruence|].
        apply lookup_lt_Some in Hq. lia.
      * rewrite (Hframe n Hnotin), Hempty, lookup_empty in Hn. done.
  - intros [Hlen Htrue].
    apply Z.eqb_eq.
    destruct (decide (p = length (plan_jobs config stages))) as [->|Hne]; [lia|].
    assert (p < length (plan_jobs config stages))%nat as Hlt by lia.
    destruct (lookup_lt_is_Some_2 _ _ Hlt) as [job Hjob].
    destruct (Hbad job Hjob) as [Hfalse _].
    by specialize (Htrue _ _ Hfalse).
Qed.

(** ** A world in which every command succeeds *)

Lemma run_commands_succeeds job cmds st :
  all_commands_succeed -> (run_commands job cmds st).2 = Return true.
Proof.
  intros Hok. revert st. induction cmds as [|command rest IH]; intros st; [done|].
  simpl.
  destruct (Hok (world st) command
              (PipelineJob.environment job ∪ os_environ st)
              (PipelineJob.timeout_minutes job * 60))
    as (w' & result & -> & ->).
  simpl. specialize (IH (set_world st w')).
  by destruct (run_commands job rest (set_world st w')) as [[st2 evs] o].
Qed.

Lemma execute_job_succeeds job st :
  all_commands_succeed -> 0 <= PipelineJob.retry_count job ->
  (execute_job st job).2 = Return true.
Proof.
  intros Hok Hr. unfold execute_job.
  rewrite (attempts_after_failures job st 0) by (try lia; intros i Hi; lia).
  rewrite attempts_succeeds; [done|].
  by apply run_commands_succeeds.
Qed.

Lemma run_jobs_succeeds total jobs : forall i s st,
  all_commands_succeed ->
  Forall (fun job => 0 <= PipelineJob.retry_count job) jobs ->
  (run_jobs total i jobs s st).2 = Return (s + Z.of_nat (length jobs)).
Proof.
  induction jobs as [|job rest IH]; intros i s st Hok Hr.
  { simpl. f_equal. lia. }
  apply Forall_cons in Hr as [Hjob Hrest].
  cbn [run_jobs].
  pose proof (execute_job_succeeds job st Hok Hjob) as Hres.
  destruct (execute_job st job) as [[st1 evs1] r]. simpl in Hres. subst r.
  specialize (IH (i + 1) (s + 1) st1 Hok Hrest).
  destruct (run_jobs total (i + 1) rest (s + 1) st1) as [[st2 evs2] o].
  simpl in *. rewrite IH. f_equal. lia.
Qed.

Lemma plan_jobs_retry_count config stages :
  Forall (fun job => 0 <= PipelineJob.retry_count job) (plan_jobs config stages).
Proof.
  unfold plan_jobs.
  destruct (bool_decide (VALIDATE ∈ stages)), (bool_decide (BUILD ∈ stages)),
    (bool_decide (DEPLOY ∈ stages) && PipelineConfig.auto_deploy config);
    simpl; repeat constructor; done.
Qed.

(** C10. With [auto_deploy] false the planned jobs are those of the stage
    list without [DEPLOY], none of them is a Deploy job, and where every
    command succeeds a run that requests Validate, Build and Deploy
    returns [True] having executed the Validate and Build jobs only. *)
Theorem deploy_job_needs_auto_deploy config stages :
  PipelineConfig.auto_deploy config = false ->
  plan_jobs config stages = plan_jobs config (filter (fun s => s <> DEPLOY) stages)
  /\ Forall (fun job => PipelineJob.stage job <> DEPLOY) (plan_jobs config stages)
  /\ forall st,
       job_results st = ∅ ->
       all_commands_succeed ->
       (run_pipeline config st [VALIDATE; BUILD; DEPLOY]).2 = Return true
       /\ executed_jobs (run_pipeline config st [VALIDATE; BUILD; DEPLOY]).1.2
          = ["Environment Validation"; "Build Application"]
       /\ size (job_results (run_pipeline config st [VALIDATE; BUILD; DEPLOY]).1.1)
          = 2%nat.
Proof.
  intros Hauto. split; [|split].
  - unfold plan_jobs. rewrite Hauto, !andb_false_r.
    assert (forall s, s <> DEPLOY ->
              bool_decide (s ∈ filter (fun s => s <> DEPLOY) stages)
              = bool_decide (s ∈ stages)) as Hmem.
    { intros s Hs. apply bool_decide_ext. rewrite list_elem_of_filter. tauto. }
    by rewrite !Hmem by done.
  - unfold plan_jobs. rewrite Hauto, !andb_false_r.
    destruct (bool_decide (VALIDATE ∈ stages)), (bool_decide (BUILD ∈ stages));
      simpl; repeat constructor; done.
  - intros st Hempty Hok.
    destruct (run_pipeline_result config st [VALIDATE; BUILD; DEPLOY])
      as (-> & -> & _ & ->).
    assert (plan_jobs config [VALIDATE; BUILD; DEPLOY]
            = plan_jobs PipelineConfig.default [VALIDATE; BUILD]) as Hplan.
    { unfold plan_jobs. by rewrite Hauto. }
    pose proof (plan_jobs_retry_count config [VALIDATE; BUILD; DEPLOY]) as Hretry.
    pose proof (plan_jobs_NoDup config [VALIDATE; BUILD; DEPLOY]) as Hnodup.
    rewrite Hplan in *.
    set (jobs := plan_jobs PipelineConfig.default [VALIDATE; BUILD]) in *.
    pose proof (run_jobs_succeeds (Z.of_nat (length jobs)) jobs 1 0 st Hok Hretry)
      as Hres.
    destruct (run_jobs _ _ _ _ _) as [[st1 evs] o] eqn:Hrun.
    cbn [snd] in Hres. subst o.
    destruct (run_jobs_spec _ _ _ _ _ _ _ _ Hrun Hnodup)
      as (p & Hp & _ & Hex & Hsize & _).
    { intros j _. by rewrite Hempty, lookup_empty. }
    assert (p = length jobs) as -> by lia.
    cbn [fst snd]. rewrite Z.eqb_refl, Hex, Hsize, Hempty, map_size_empty.
    done.
Qed.

End OrchestratorFacts.

(** * The status report *)

Lemma successes_empty (results : gmap string bool) :
  len results = 0 -> successes results = 0.
Proof.
  unfold len, successes. intros Hlen.
  assert (size results = 0%nat) as Hsize by lia.
  apply map_size_empty_inv in Hsize. subst results.
  by rewrite map_to_list_empty.
Qed.

Lemma success_rate_returns (results : gmap string bool) :
  success_rate results
  = Return (inject_Z (successes results) / inject_Z (Z.max (len results) 1))%Q.
Proof.
  unfold success_rate, truediv.
  assert (0 <= len results) as Hlen by (unfold len; lia).
  destruct (Z.max (len results) 1 =? 0) eqn:Hmax; [apply Z.eqb_eq in Hmax; lia|done].
Qed.

(** C4. [success_rate] never raises; it is the number of [True] entries
    divided by the number of entries when there is an entry, and 0 when
    there is none. *)
Theorem success_rate_value (results : gmap string bool) :
  exists rate : Q,
    success_rate results = Return rate
    /\ (0 < len results ->
        (rate == inject_Z (successes results) / inject_Z (len results))%Q)
    /\ (len results = 0 -> (rate == 0)%Q).
Proof.
  rewrite success_rate_returns.
  eexists. split; [reflexivity|]. split.
  - intros Hpos. by replace (Z.max (len results) 1) with (len results) by lia.
  - intros Hzero. rewrite (successes_empty results Hzero), Hzero. reflexivity.
Qed.

(** The report carries that rate and the number of entries. *)
Lemma generate_pipeline_status_report_total {W : Type}
    (config : PipelineConfig.t) (st : State W) :
  exists report,
    generate_pipeline_status_report config st = Return report
    /\ success_rate (job_results st) = Return (report_success_rate report)
    /\ report_total_jobs report = len (job_results st)
    /\ report_job_results report = job_results st.
Proof.
  unfold generate_pipeline_status_report.
  rewrite success_rate_returns. eexists. repeat split.
Qed.

(** * The deployment steps of [nits_rdl_deployment.py] *)

Section DeploymentFacts.

Import NitsRdlDeployment.
Context {W : Type} `{!Clock W, !Steps W}.

(** The loop of a step ends: [max_retries - retry_count] iterations are
    enough. *)
Lemma retry_loop_total max step_name (step_func : W -> W * outcome bool) :
  forall fuel retry_count w,
    (Z.to_nat (max - retry_count) <= fuel)%nat ->
    exists r, retry_loop fuel max step_name step_func retry_count w = Some r.
Proof.
  induction fuel as [|fuel IH]; intros retry_count w Hfuel; simpl.
  - destruct (retry_count <? max) eqn:Hlt; [apply Z.ltb_lt in Hlt; lia|eauto].
  - destruct (retry_count <? max) eqn:Hlt; [|eauto].
    destruct (step_func w) as [w1 [[|]|e]]; eauto.
    destruct (retry_count + 1 <? max) eqn:Hnext; [|eauto].
    apply Z.ltb_lt in Hlt.
    destruct (IH (retry_count + 1) (time_sleep w1 2)) as [[[w2 evs] o] ->]; [lia|].
    eauto.
Qed.

Lemma run_steps_total max (l : list (string * (W -> W * outcome bool))) w :
  exists r, run_steps max l w = Some r.
Proof.
  revert w. induction l as [|[step_name step_func] rest IH]; intros w; simpl; [eauto|].
  destruct (retry_loop_total max step_name step_func (Z.to_nat max) 0 w)
    as [[[w1 evs1] o] ->]; [lia|].
  destruct o as [[|]|e]; eauto.
  destruct (IH w1) as [[[w2 evs2] o2] ->]. eauto.
Qed.

Lemma deploy_total config w : exists r, deploy config w = Some r.
Proof.
  unfold deploy.
  destruct (run_steps_total (max_retries config) steps w) as [[[w1 evs] o] ->]. eauto.
Qed.

(** A step that fails whenever it is called is called [max_retries]
    times, with a sleep of 2 seconds between two calls, and then
    [deploy] returns [False]: the bound counts attempts, so it stands for
    [retry_count + 1]. *)
Lemma retry_loop_always_failing max step_name (step_func : W -> W * outcome bool) :
  (forall w, (step_func w).2 = Return false) ->
  forall fuel retry_count w,
    retry_count < max ->
    (Z.to_nat (max - retry_count) <= fuel)%nat ->
    exists w' evs,
      retry_loop fuel max step_name step_func retry_count w
      = Some (w', evs, Return ReturnedFalse)
      /\ length (calls_of evs) = Z.to_nat (max - retry_count)
      /\ Forall (fun c => c = (step_name, Return false)) (calls_of evs).
Proof.
  intros Hfail. induction fuel as [|fuel IH]; intros retry_count w Hlt Hfuel; [lia|].
  simpl. replace (retry_count <? max) with true by (symmetry; apply Z.ltb_lt; lia).
  specialize (Hfail w). destruct (step_func w) as [w1 r]. simpl in Hfail. subst r.
  destruct (retry_count + 1 <? max) eqn:Hnext.
  - apply Z.ltb_lt in Hnext.
    destruct (IH (retry_count + 1) (time_sleep w1 2)) as (w' & evs & -> & Hlen & Hall);
      [lia|lia|].
    eexists _, _. split; [reflexivity|]. simpl. split; [rewrite Hlen; lia|].
    by constructor.
  - apply Z.ltb_ge in Hnext.
    eexists _, _. split; [reflexivity|]. simpl. split; [lia|]. by repeat constructor.
Qed.

End DeploymentFacts.

(** * Exit codes of the two entry points *)

Section EntryPoints.

Context {W : Type}.
Context `{!Shell W, !Clock W}.
Context `{!RdlDeploymentPipeline.Operations W, !NitsRdlDeployment.Steps W}.

Lemma documented_exit_code_table :
  documented_exit_code (Return true) = 0
  /\ documented_exit_code (Return false) = 1
  /\ documented_exit_code (Raise KeyboardInterrupt) = 0
  /\ forall e, is_Exception e = true -> documented_exit_code (Raise e) = 1.
Proof. repeat split. by intros [| | |]. Qed.

Lemma pipeline_exit_with_code (st : State W) (op : W -> W * outcome bool) :
  let '(st1, evs, o) := RdlDeploymentPipeline.exit_with st op in
  exit_status
    match o with
    | Return _ => o
    | Raise KeyboardInterrupt => sys_exit 0
    | Raise e => if is_Exception e then sys_exit 1 else Raise e
    end
  = documented_exit_code (op (world st)).2.
Proof.
  unfold RdlDeploymentPipeline.exit_with.
  by destruct (op (world st)) as [w1 [[|]|[| |code|msg]]].
Qed.

Lemma pipeline_main_exit_code (args : RdlDeploymentPipeline.Args)
    (environ : gmap string string) (w : W) :
  exit_status (RdlDeploymentPipeline.main args environ w).2
  = documented_exit_code (RdlDeploymentPipeline.requested_operation args environ w).
Proof.
  unfold RdlDeploymentPipeline.main, RdlDeploymentPipeline.main_body,
    RdlDeploymentPipeline.requested_operation.
  set (config := RdlDeploymentPipeline.make_config args environ).
  set (st := mkState environ ∅ w).
  destruct (RdlDeploymentPipeline.create_workflow args).
  { pose proof (pipeline_exit_with_code st RdlDeploymentPipeline.create_workflow_file) as Hcode.
    change (world st) with w in Hcode.
    destruct (RdlDeploymentPipeline.exit_with _ _) as [[st1 evs] o].
    rewrite <- Hcode. by destruct o as [u|[| |code|msg]]. }
  destruct (RdlDeploymentPipeline.validate_only args).
  { pose proof (pipeline_exit_with_code st RdlDeploymentPipeline.validate_pipeline) as Hcode.
    change (world st) with w in Hcode.
    destruct (RdlDeploymentPipeline.exit_with _ _) as [[st1 evs] o].
    rewrite <- Hcode. by destruct o as [u|[| |code|msg]]. }
  destruct (RdlDeploymentPipeline.deploy_artifacts args).
  { pose proof (pipeline_exit_with_code st RdlDeploymentPipeline.deploy_artifacts_op) as Hcode.
    change (world st) with w in Hcode.
    destruct (RdlDeploymentPipeline.exit_with _ _) as [[st1 evs] o].
    rewrite <- Hcode. by destruct o as [u|[| |code|msg]]. }
  destruct (run_pipeline config st _) as [[st1 evs] [success|[| |code|msg]]]; try done.
  destruct (generate_pipeline_status_report config st1) as [report|[| |code|msg]];
    try done.
  destruct (RdlDeploymentPipeline.write_report (world st1) report)
    as [w1 [u|[| |code|msg]]]; done.
Qed.

Lemma deployment_main_exit_code (args : NitsRdlDeployment.Args) (w : W) :
  exists w1 evs1 op w2 evs2 o,
    NitsRdlDeployment.requested_operation args w = Some (w1, evs1, op)
    /\ NitsRdlDeployment.main args w = Some (w2, evs2, o)
    /\ exit_status o = documented_exit_code op.
Proof.
  unfold NitsRdlDeployment.main, NitsRdlDeployment.main_body.
  assert (exists r, NitsRdlDeployment.requested_operation args w = Some r)
    as [[[w1 evs1] op] ->].
  { unfold NitsRdlDeployment.requested_operation.
    destruct (NitsRdlDeployment.build_only args); [eauto|].
    apply deploy_total. }
  destruct op as [[|]|[| |code|msg]]; simpl; eexists _, _, _, _, _, _;
    (split; [reflexivity|]); (split; [reflexivity|]); done.
Qed.

(** C8. For every mode of [rdl_deployment_pipeline.py] and of
    [nits_rdl_deployment.py], the exit status of the process is the one
    documented for what the requested operation did: 0 when it returned
    success, 1 when it returned failure or raised an [Exception], 0 when
    it was interrupted by [KeyboardInterrupt]. *)
Theorem main_exit_codes (pipeline_args : RdlDeploymentPipeline.Args)
    (deployment_args : NitsRdlDeployment.Args)
    (environ : gmap string string) (w : W) :
  (documented_exit_code (Return true) = 0
   /\ documented_exit_code (Return false) = 1
   /\ documented_exit_code (Raise KeyboardInterrupt) = 0
   /\ forall e, is_Exception e = true -> documented_exit_code (Raise e) = 1)
  /\ exit_status (RdlDeploymentPipeline.main pipeline_args environ w).2
     = documented_exit_code
         (RdlDeploymentPipeline.requested_operation pipeline_args environ w)
  /\ exists w1 evs1 op w2 evs2 o,
       NitsRdlDeployment.requested_operation deployment_args w = Some (w1, evs1, op)
       /\ NitsRdlDeployment.main deployment_args w = Some (w2, evs2, o)
       /\ exit_status o = documented_exit_code op.
Proof.
  split; [apply documented_exit_code_table|].
  split; [apply pipeline_main_exit_code|apply deployment_main_exit_code].
Qed.

End EntryPoints.

(** * The theorems on concrete runs *)


(** Validation succeeds and the build fails on all three attempts: the
    pipeline stops at job 2 of 2 with two recorded results. *)
Lemma run_pipeline_halts_at_first_failure_witness :
  let shell := scripted [exit_code 0] (exit_code 1) in
  let run :=
    @run_pipeline nat shell no_sleep PipelineConfig.default (fresh_state ∅)
      [VALIDATE; BUILD] in
  job_results (fresh_state ∅) = ∅
  /\ run.2 = Return false
  /\ exists (i : nat) (job : PipelineJob.t),
       plan_jobs PipelineConfig.default [VALIDATE; BUILD] !! (i - 1)%nat = Some job
       /\ job_results run.1.1 !! PipelineJob.name job = Some false
       /\ executed_jobs run.1.2
          = PipelineJob.name <$> take i (plan_jobs PipelineConfig.default [VALIDATE; BUILD])
       /\ size (job_results run.1.1) = i.
Proof.
  intros shell run.
  assert (job_results (fresh_state ∅) = ∅) as Hempty by reflexivity.
  assert (run.2 = Return false) as Hverdict by (vm_compute; reflexivity).
  split; [exact Hempty|]. split; [exact Hverdict|].
  destruct (@run_pipeline_halts_at_first_failure nat shell no_sleep
              PipelineConfig.default (fresh_state ∅) [VALIDATE; BUILD] Hempty Hverdict)
    as (i & job & _ & Hjob & _ & Hfalse & _ & Hexec & Hsize).
  exists i, job. repeat split; assumption.
Defined.

(** The single command of a job with two retries left exceeds the timeout
    on the first attempt. *)
Lemma execute_job_timeout_ends_job_witness :
  let shell := scripted [] (Raise TimeoutExpired) in
  let run := @execute_job nat shell no_sleep (fresh_state ∅) one_command in
  Z.of_nat 0 <= PipelineJob.retry_count one_command
  /\ @attempt_result nat shell no_sleep one_command (fresh_state ∅) 0 = Raise TimeoutExpired
  /\ run.2 = Return false
  /\ attempts_of run.1.2 = range (Z.of_nat 0 + 1)
  /\ sleeps_of run.1.2 = [].
Proof.
  intros shell run.
  assert (Z.of_nat 0 <= PipelineJob.retry_count one_command) as Hr
    by (vm_compute; discriminate).
  assert (@attempt_result nat shell no_sleep one_command (fresh_state ∅) 0
          = Raise TimeoutExpired) as Hk by reflexivity.
  destruct (@execute_job_timeout_ends_job nat shell no_sleep one_command (fresh_state ∅)
              0%nat Hr) as (Hres & _ & Hattempts & Hsleeps & _).
  { intros i Hi. lia. }
  { exact Hk. }
  repeat split; assumption.
Defined.

(** Validation and build both succeed. *)
Lemma run_pipeline_verdict_witness :
  let shell := scripted [] (exit_code 0) in
  let run :=
    @run_pipeline nat shell no_sleep PipelineConfig.default (fresh_state ∅)
      [VALIDATE; BUILD] in
  job_results (fresh_state ∅) = ∅
  /\ run.2 = Return true
  /\ (true = true
      <-> size (job_results run.1.1)
          = length (plan_jobs PipelineConfig.default [VALIDATE; BUILD])
          /\ forall n v, job_results run.1.1 !! n = Some v -> v = true).
Proof.
  intros shell run.
  assert (job_results (fresh_state ∅) = ∅) as Hempty by reflexivity.
  assert (run.2 = Return true) as Hverdict by (vm_compute; reflexivity).
  split; [exact Hempty|]. split; [exact Hverdict|].
  exact (@run_pipeline_verdict nat shell no_sleep PipelineConfig.default (fresh_state ∅)
           [VALIDATE; BUILD] true Hempty Hverdict).
Defined.

(** The first attempt runs [npm ci] with success and fails on
    [npm run build]; the second attempt starts again with [npm ci]. *)
Lemma retry_reruns_whole_sequence_witness :
  let shell := scripted [exit_code 0; exit_code 1] (exit_code 0) in
  let run := @execute_job nat shell no_sleep (fresh_state ∅) two_commands in
  Z.of_nat 1 <= PipelineJob.retry_count two_commands
  /\ @attempt_result nat shell no_sleep two_commands (fresh_state ∅) 0 = Return false
  /\ (runs_of run.1.2).*1 = ["npm ci"; "npm run build"; "npm ci"; "npm run build"]
  /\ sleeps_of run.1.2 = [2]
  /\ exists n,
       (runs_of (@attempt_events nat shell no_sleep two_commands (fresh_state ∅) 1)).*1
       = take n (PipelineJob.commands two_commands)
       /\ (PipelineJob.commands two_commands <> [] -> (1 <= n)%nat).
Proof.
  intros shell run.
  assert (Z.of_nat 1 <= PipelineJob.retry_count two_commands) as Hr
    by (vm_compute; discriminate).
  assert (@attempt_result nat shell no_sleep two_commands (fresh_state ∅) 0 = Return false)
    as Hfirst by reflexivity.
  destruct (@retry_reruns_whole_sequence nat shell no_sleep two_commands (fresh_state ∅)
              1%nat Hr) as (_ & _ & Hprefix & _).
  { intros [|i] Hi; [exact Hfirst|lia]. }
  split; [exact Hr|]. split; [exact Hfirst|].
  split; [reflexivity|]. split; [reflexivity|].
  exact (Hprefix 1%nat (le_n 1)).
Defined.

(** Without auto-deploy, a run that requests the three stages in a world
    where every command exits with status 0. *)
Lemma deploy_job_needs_auto_deploy_witness :
  let shell := scripted [] (exit_code 0) in
  let run :=
    @run_pipeline nat shell no_sleep PipelineConfig.default (fresh_state ∅)
      [VALIDATE; BUILD; DEPLOY] in
  PipelineConfig.auto_deploy PipelineConfig.default = false
  /\ plan_jobs PipelineConfig.default [VALIDATE; BUILD; DEPLOY]
     = plan_jobs PipelineConfig.default
         (filter (fun s => s <> DEPLOY) [VALIDATE; BUILD; DEPLOY])
  /\ run.2 = Return true
  /\ executed_jobs run.1.2 = ["Environment Validation"; "Build Application"].
Proof.
  intros shell run.
  assert (PipelineConfig.auto_deploy PipelineConfig.default = false) as Hauto
    by reflexivity.
  destruct (@deploy_job_needs_auto_deploy nat shell no_sleep PipelineConfig.default
              [VALIDATE; BUILD; DEPLOY] Hauto) as (Hplan & _ & Hrun).
  destruct (Hrun (fresh_state ∅)) as (Hres & Hexec & _).
  { reflexivity. }
  { intros w command env timeout.
    exists (S w), {| returncode := 0; stdout := EmptyString; stderr := EmptyString |}.
    split; [by destruct w|reflexivity]. }
  repeat split; assumption.
Defined.

(** C3, as stated, fails: the job has a retry budget of 2, its command
    exceeds the timeout on the first attempt, and no second attempt is
    made, whereas the same job failing on exit status 1 is attempted three
    times with two sleeps. *)
Lemma timeout_is_not_retried :
  let timing_out := scripted [] (Raise TimeoutExpired) in
  let failing := scripted [] (exit_code 1) in
  let timed_out := @execute_job nat timing_out no_sleep (fresh_state ∅) one_command in
  let failed := @execute_job nat failing no_sleep (fresh_state ∅) one_command in
  PipelineJob.retry_count one_command = 2
  /\ (runs_of timed_out.1.2).*2 = [Raise TimeoutExpired]
  /\ attempts_of timed_out.1.2 = [0]
  /\ sleeps_of timed_out.1.2 = []
  /\ timed_out.2 = Return false
  /\ attempts_of failed.1.2 = [0; 1; 2]
  /\ sleeps_of failed.1.2 = [2; 2]
  /\ ~ (attempts_of timed_out.1.2 = attempts_of failed.1.2).
Proof. vm_compute. repeat split. discriminate. Qed.


(** * Scenarios *)

(** Validation succeeds; the build fails twice (on its first command, then
    on its second) and succeeds on the third attempt: the pipeline
    succeeds, the build having been attempted three times. *)
Example build_succeeds_on_third_attempt :
  let shell := scripted [exit_code 0; exit_code 1; exit_code 0; exit_code 1] (exit_code 0) in
  let run :=
    @run_pipeline nat shell no_sleep PipelineConfig.default (fresh_state ∅)
      [VALIDATE; BUILD] in
  run.2 = Return true
  /\ attempts_of run.1.2 = [0; 0; 1; 2]
  /\ sleeps_of run.1.2 = [2; 2]
  /\ (runs_of run.1.2).*1
     = ["python nits_rdl_deployment.py --help";
        "rm -rf node_modules/.vite-temp";
        "rm -rf node_modules/.vite-temp"; "npm ci --include=dev";
        "rm -rf node_modules/.vite-temp"; "npm ci --include=dev"; "npm run build"]
  /\ map_to_list (job_results run.1.1)
     = [("Environment Validation", true); ("Build Application", true)].
Proof. vm_compute. repeat split. Qed.

(** With auto-deploy in production the third job is named by
    [env_name.title()]. *)
Example production_plan :
  PipelineJob.name <$>
    plan_jobs (PipelineConfig.Build PRODUCTION true true true None None 2 30 30)
      [VALIDATE; BUILD; DEPLOY]
  = ["Environment Validation"; "Build Application"; "Deploy to Production"].
Proof. reflexivity. Qed.

(** [deploy] with the default [max_retries = 3]: a build that never
    succeeds is called three times, then [deploy] returns [False] and the
    process exits with status 1; a build that succeeds on its third call
    lets the deployment go on to the server start and exit with status 0. *)
Example deploy_gives_up_after_three_calls :
  match @NitsRdlDeployment.main nat no_sleep (build_fails_until 100) deployment_args O with
  | Some (_, evs, o) =>
      NitsRdlDeployment.calls_of evs
      = [("Environment Validation", Return true);
         ("Dependency Installation", Return true);
         ("Application Build", Return false);
         ("Application Build", Return false);
         ("Application Build", Return false)]
      /\ exit_status o = 1
  | None => False
  end.
Proof. vm_compute. by split. Qed.

Example deploy_succeeds_on_third_call :
  match @NitsRdlDeployment.main nat no_sleep (build_fails_until 4) deployment_args O with
  | Some (_, evs, o) =>
      NitsRdlDeployment.calls_of evs
      = [("Environment Validation", Return true);
         ("Dependency Installation", Return true);
         ("Application Build", Return false);
         ("Application Build", Return false);
         ("Application Build", Return true);
         ("Server Start", Return true)]
      /\ exit_status o = 0
  | None => False
  end.
Proof. vm_compute. by split. Qed.

(** The report of a run in which validation succeeded and the build
    failed: one success out of two recorded jobs. *)
Example half_of_the_jobs_succeeded :
  let shell := scripted [exit_code 0] (exit_code 1) in
  let run :=
    @run_pipeline nat shell no_sleep PipelineConfig.default (fresh_state ∅)
      [VALIDATE; BUILD] in
  success_rate (job_results run.1.1) = Return (1 # 2)%Q
  /\ success_rate (∅ : gmap string bool) = Return (0 # 1)%Q.
Proof. vm_compute. by split. Qed.

(** * Bounds and edge cases of [execute_job] *)

Section ExecuteJobBounds.

Context {W : Type} `{!Shell W, !Clock W}.

Implicit Types (st : State W) (job : PipelineJob.t) (evs : list event).

Lemma run_commands_run_count job cmds st :
  (length (runs_of (run_commands job cmds st).1.2) <= length cmds)%nat.
Proof.
  revert st. induction cmds as [|command rest IH]; intros st; simpl; [done|].
  destruct (subprocess_run _ _ _ _) as [w [result|e]]; simpl; [|lia].
  destruct (returncode result =? 0); simpl; [|lia].
  specialize (IH (set_world st w)).
  destruct (run_commands job rest (set_world st w)) as [[st2 evs] o]; simpl in *. lia.
Qed.

Lemma attempts_bounds job : forall n a st,
  let evs := (attempts job (Z.of_nat <$> seq a n) st).1.2 in
  (length (attempts_of evs) <= n)%nat
  /\ (length (runs_of evs) <= n * length (PipelineJob.commands job))%nat
  /\ Forall (fun s => s = 2) (sleeps_of evs)
  /\ (length (sleeps_of evs) <= Z.to_nat (PipelineJob.retry_count job) - a)%nat.
Proof.
  induction n as [|n IH]; intros a st; cbn zeta.
  { simpl. repeat split; first [lia | by constructor | done]. }
  cbn [seq fmap list_fmap attempts].
  pose proof (run_commands_frame job (PipelineJob.commands job) st)
    as (_ & _ & Hat & Hsl & _).
  pose proof (run_commands_run_count job (PipelineJob.commands job) st) as Hruns.
  destruct (run_commands job (PipelineJob.commands job) st) as [[st1 evs1] r].
  cbn [fst snd] in Hat, Hsl, Hruns.
  destruct r as [[|]|e].
  - cbn [fst snd].
    change (EvAttempt ?a :: ?l) with ([EvAttempt a] ++ l).
    rewrite !attempts_of_app, !runs_of_app, !sleeps_of_app, Hat, Hsl. simpl.
    rewrite app_nil_r. repeat split; first [lia | by constructor | done].
  - destruct (Z.of_nat a <? PipelineJob.retry_count job) eqn:Hlt.
    + apply Z.ltb_lt in Hlt.
      specialize (IH (S a) (sleep st1 2)). cbn zeta in IH.
      destruct (attempts job (Z.of_nat <$> seq (S a) n) (sleep st1 2)) as [[st2 evs2] o].
      cbn [fst snd] in *. destruct IH as (IH1 & IH2 & IH3 & IH4).
      change (EvAttempt ?a :: ?l) with ([EvAttempt a] ++ l).
      rewrite !attempts_of_app, !runs_of_app, !sleeps_of_app, Hat, Hsl. simpl.
      rewrite !length_app. repeat split; first [lia | by constructor | done].
    + specialize (IH (S a) st1). cbn zeta in IH.
      destruct (attempts job (Z.of_nat <$> seq (S a) n) st1) as [[st2 evs2] o].
      cbn [fst snd] in *. destruct IH as (IH1 & IH2 & IH3 & IH4).
      change (EvAttempt ?a :: ?l) with ([EvAttempt a] ++ l).
      rewrite !attempts_of_app, !runs_of_app, !sleeps_of_app, Hat, Hsl. simpl.
      rewrite !length_app. repeat split; first [lia | by constructor | done].
  - cbn [fst snd].
    change (EvAttempt ?a :: ?l) with ([EvAttempt a] ++ l).
    rewrite !attempts_of_app, !runs_of_app, !sleeps_of_app, Hat, Hsl. simpl.
    repeat split; first [lia | by constructor | done].
Qed.

(** The events of [execute_job] are those of its loop, between the first
    log line and, after an exception, the error line. *)
Lemma execute_job_events job st :
  let loop := (attempts job (range (PipelineJob.retry_count job + 1)) st).1.2 in
  attempts_of (execute_job st job).1.2 = attempts_of loop
  /\ runs_of (execute_job st job).1.2 = runs_of loop
  /\ sleeps_of (execute_job st job).1.2 = sleeps_of loop.
Proof.
  unfold execute_job.
  destruct (attempts job (range (PipelineJob.retry_count job + 1)) st)
    as [[st1 evs] r].
  destruct r as [[|]|[| |code|msg]]; cbn [fst snd];
    rewrite ?attempts_of_app, ?runs_of_app, ?sleeps_of_app; simpl;
    rewrite ?app_nil_r; done.
Qed.

(** X1. Whatever the commands do, a job with [retry_count = r] is attempted
    at most [r + 1] times, starts at most [(r + 1) * len(commands)]
    subprocesses, and sleeps at most [r] times, 2 seconds each time. *)
Theorem execute_job_bounds job st :
  (length (attempts_of (execute_job st job).1.2)
   <= Z.to_nat (PipelineJob.retry_count job + 1))%nat
  /\ (length (runs_of (execute_job st job).1.2)
      <= Z.to_nat (PipelineJob.retry_count job + 1)
         * length (PipelineJob.commands job))%nat
  /\ Forall (fun s => s = 2) (sleeps_of (execute_job st job).1.2)
  /\ (length (sleeps_of (execute_job st job).1.2)
      <= Z.to_nat (PipelineJob.retry_count job))%nat.
Proof.
  destruct (execute_job_events job st) as (-> & -> & ->).
  rewrite range_seq.
  pose proof (attempts_bounds job (Z.to_nat (PipelineJob.retry_count job + 1)) 0 st)
    as (H1 & H2 & H3 & H4).
  repeat split; try done. lia.
Qed.

(** How the loop ends, read off the last subprocess calls. *)
Lemma attempts_last_runs job rng : forall st,
  match (attempts job rng st).2 with
  | Return ReturnedTrue =>
      exists before final,
        runs_of (attempts job rng st).1.2 = before ++ final
        /\ final.*1 = PipelineJob.commands job
        /\ Forall (fun p => exited_with p true) final
  | Return Exhausted =>
      forall p, last (runs_of (attempts job rng st).1.2) = Some p -> exited_with p false
  | Raise e =>
      exists command, last (runs_of (attempts job rng st).1.2) = Some (command, Raise e)
  end.
Proof.
  induction rng as [|attempt rest IH]; intros st.
  { simpl. intros p Hp. done. }
  cbn [attempts].
  pose proof (run_commands_shape job (PipelineJob.commands job) st) as Hshape.
  destruct (run_commands job (PipelineJob.commands job) st) as [[st1 evs1] r].
  cbn [fst snd] in Hshape.
  assert (forall P, stopped_at (PipelineJob.commands job) (runs_of evs1) P ->
                    exists p, last (runs_of evs1) = Some p /\ P p) as Hstop.
  { intros P (pre & c & post & oks & failed & _ & -> & _ & _ & _ & HP).
    exists failed. by rewrite last_snoc. }
  destruct r as [[|]|e].
  - cbn [fst snd]. destruct Hshape as [Hcmds Hok].
    exists [], (runs_of evs1). split; [|done].
    change (EvAttempt attempt :: ?l) with ([EvAttempt attempt] ++ l).
    rewrite !runs_of_app. simpl. by rewrite app_nil_r.
  - destruct (Hstop _ Hshape) as (p1 & Hlast1 & Hp1).
    assert (forall st' tail,
              match (attempts job rest st').2 with
              | Return ReturnedTrue =>
                  exists before final,
                    runs_of (EvAttempt attempt :: evs1 ++ tail
                               ++ (attempts job rest st').1.2) = before ++ final
                    /\ final.*1 = PipelineJob.commands job
                    /\ Forall (fun p => exited_with p true) final
              | Return Exhausted =>
                  forall p,
                    last (runs_of (EvAttempt attempt :: evs1 ++ tail
                                     ++ (attempts job rest st').1.2)) = Some p ->
                    runs_of tail = [] -> exited_with p false
              | Raise e =>
                  exists command,
                    last (runs_of (EvAttempt attempt :: evs1 ++ tail
                                     ++ (attempts job rest st').1.2))
                    = Some (command, Raise e)
              end) as Hrest.
    { intros st' tail. specialize (IH st').
      destruct (attempts job rest st') as [[st2 evs2] o]. cbn [fst snd] in *.
      change (EvAttempt attempt :: ?l) with ([EvAttempt attempt] ++ l).
      rewrite !runs_of_app. simpl.
      destruct o as [[|]|e].
      - destruct IH as (before & final & -> & Hfinal & Hok).
        exists (runs_of evs1 ++ runs_of tail ++ before), final.
        split; [by rewrite <- !app_assoc|done].
      - intros p Hp Htail. rewrite Htail in Hp. simpl in Hp.
        destruct (runs_of evs2) as [|x l] eqn:Hruns2.
        + rewrite app_nil_r, Hlast1 in Hp. by injection Hp as <-.
        + apply IH. rewrite last_app in Hp.
          destruct (last (x :: l)) as [y|] eqn:Hy; [done|].
          by apply last_None in Hy.
      - destruct IH as [command Hlast]. exists command.
        rewrite !last_app, Hlast. done. }
    destruct (attempt <? PipelineJob.retry_count job).
    + specialize (Hrest (sleep st1 2)
                    [EvLog WARNING (MsgJobRetrying (PipelineJob.name job) (attempt + 1)
                                      (PipelineJob.retry_count job)); EvSleep 2]).
      destruct (attempts job rest (sleep st1 2)) as [[st2 evs2] o].
      cbn [fst snd] in *. destruct o as [[|]|e]; try done.
      intros p Hp. by apply Hrest.
    + specialize (Hrest st1 []).
      destruct (attempts job rest st1) as [[st2 evs2] o].
      cbn [fst snd] in *. destruct o as [[|]|e]; try done.
      intros p Hp. by apply Hrest.
  - cbn [fst snd]. destruct (Hstop _ Hshape) as ([c o] & Hlast & Ho).
    simpl in Ho. subst o. by exists c.
Qed.

(** X2. [execute_job] returns [True] only when its last subprocess calls
    ran every command of the job, in order, each with exit status 0.  When
    it returns [False] the last subprocess call, if there was one, did not
    exit with status 0; when an interrupt escapes, the last call raised
    it. *)
Theorem execute_job_result_sound job st :
  match (execute_job st job).2 with
  | Return true =>
      exists before final,
        runs_of (execute_job st job).1.2 = before ++ final
        /\ final.*1 = PipelineJob.commands job
        /\ Forall (fun p => exited_with p true) final
  | Return false =>
      forall p, last (runs_of (execute_job st job).1.2) = Some p -> ~ exited_with p true
  | Raise e =>
      exists command, last (runs_of (execute_job st job).1.2) = Some (command, Raise e)
  end.
Proof.
  destruct (execute_job_events job st) as (_ & -> & _).
  pose proof (attempts_last_runs job (range (PipelineJob.retry_count job + 1)) st) as Hlast.
  unfold execute_job.
  destruct (attempts job (range (PipelineJob.retry_count job + 1)) st)
    as [[st1 evs] r].
  cbn [fst snd] in *.
  assert (forall p, exited_with p false -> ~ exited_with p true) as Hne.
  { intros p (r1 & Hr1 & Hc1) (r2 & Hr2 & Hc2). congruence. }
  destruct r as [[|]|[| |code|msg]]; cbn [fst snd]; try done.
  - intros p Hp. apply Hne. by apply Hlast.
  - destruct Hlast as [c Hc]. intros p Hp (r & Hr & _).
    rewrite Hc in Hp. injection Hp as <-. done.
  - destruct Hlast as [c Hc]. intros p Hp (r & Hr & _).
    rewrite Hc in Hp. injection Hp as <-. done.
Qed.

End ExecuteJobBounds.

(** * Degenerate jobs, errors and the plan *)

Section PipelineEdges.

Context {W : Type} `{!Shell W, !Clock W}.

Implicit Types (st : State W) (job : PipelineJob.t) (evs : list event).

(** X3. A job whose [retry_count] is negative is never run: no attempt is
    made and no subprocess started, and the job is recorded and reported
    as failed. *)
Theorem execute_job_negative_retry_count job st :
  PipelineJob.retry_count job < 0 ->
  execute_job st job
  = (record_result st (PipelineJob.name job) false,
     [EvLog INFO (MsgExecutingJob (PipelineJob.name job))],
     Return false).
Proof.
  intros Hneg. unfold execute_job, range.
  replace (Z.to_nat (PipelineJob.retry_count job + 1)) with 0%nat by lia.
  reflexivity.
Qed.

(** X4. A job without commands succeeds on its first attempt without
    starting a subprocess or sleeping, whatever the world does. *)
Theorem execute_job_no_commands job st :
  PipelineJob.commands job = [] ->
  0 <= PipelineJob.retry_count job ->
  execute_job st job
  = (record_result st (PipelineJob.name job) true,
     [EvLog INFO (MsgExecutingJob (PipelineJob.name job));
      EvAttempt 0;
      EvLog INFO (MsgJobCompleted (PipelineJob.name job))],
     Return true).
Proof.
  intros Hcmds Hr. unfold execute_job, range.
  replace (Z.to_nat (PipelineJob.retry_count job + 1))
    with (S (Z.to_nat (PipelineJob.retry_count job))) by lia.
  cbn [seq map attempts]. rewrite Hcmds. reflexivity.
Qed.

(** X5. An exception other than a timeout raised by a command of attempt
    number [k] ends the job like a timeout does: it is logged as the job's
    error, the job is recorded as failed, [False] is returned, and no
    attempt and no sleep follows. *)
Theorem execute_job_error_ends_job job st (k : nat) (msg : string) :
  Z.of_nat k <= PipelineJob.retry_count job ->
  (forall i, (i < k)%nat -> attempt_result job st i = Return false) ->
  attempt_result job st k = Raise (OtherException msg) ->
  (execute_job st job).2 = Return false
  /\ job_results (execute_job st job).1.1 !! PipelineJob.name job = Some false
  /\ attempts_of (execute_job st job).1.2 = range (Z.of_nat k + 1)
  /\ sleeps_of (execute_job st job).1.2 = replicate k 2
  /\ last (execute_job st job).1.2
     = Some (EvLog ERROR (MsgJobFailedWithError (PipelineJob.name job) msg)).
Proof.
  intros Hr Hfail Hk.
  pose proof (execute_job_job_results job st) as Hrec.
  pose proof (run_commands_frame job (PipelineJob.commands job) (attempt_state job st k))
    as (_ & _ & Hat & Hsl & _).
  fold (attempt_events job st k) in Hat, Hsl.
  revert Hrec. unfold execute_job.
  rewrite (attempts_after_failures job st k) by done.
  rewrite attempts_raises with (e := OtherException msg) by done.
  cbn [fst snd]. intros Hrec.
  split; [done|]. split; [by rewrite Hrec, lookup_insert_eq|].
  split; [|split].
  - change (EvLog ?l ?m :: ?t) with ([EvLog l m] ++ t).
    rewrite !attempts_of_app, attempts_of_failed_attempts.
    change (EvAttempt ?a :: ?t) with ([EvAttempt a] ++ t).
    rewrite attempts_of_app, Hat, range_seq. simpl.
    replace (Z.to_nat (Z.of_nat k + 1)) with (k + 1)%nat by lia.
    by rewrite seq_app, fmap_app, !app_nil_r.
  - change (EvLog ?l ?m :: ?t) with ([EvLog l m] ++ t).
    rewrite !sleeps_of_app, sleeps_of_failed_attempts.
    change (EvAttempt ?a :: ?t) with ([EvAttempt a] ++ t).
    rewrite sleeps_of_app, Hsl. simpl. by rewrite !app_nil_r.
  - change (EvLog INFO ?m :: ?t ++ ?u) with ((EvLog INFO m :: t) ++ u).
    apply last_snoc.
Qed.

(** X6. The planned jobs depend only on which of the stages Validate,
    Build and Deploy are requested, not on their order, their repetition
    or the presence of other stages; the jobs always come in the order
    Validate, Build, Deploy, the Deploy job only with [auto_deploy]. *)
Theorem plan_jobs_stages config stages :
  PipelineJob.stage <$> plan_jobs config stages
  = filter (fun s => s ∈ stages /\ (s = DEPLOY -> PipelineConfig.auto_deploy config = true))
      [VALIDATE; BUILD; DEPLOY]
  /\ forall stages',
       (forall s, s ∈ [VALIDATE; BUILD; DEPLOY] -> s ∈ stages <-> s ∈ stages') ->
       plan_jobs config stages' = plan_jobs config stages.
Proof.
  split.
  - unfold plan_jobs.
    rewrite !filter_cons, filter_nil.
    destruct (decide (VALIDATE ∈ stages)) as [Hv|Hv],
      (decide (BUILD ∈ stages)) as [Hb|Hb],
      (decide (DEPLOY ∈ stages)) as [Hd|Hd],
      (PipelineConfig.auto_deploy config) eqn:Hauto;
      rewrite ?(bool_decide_eq_true_2 _ Hv), ?(bool_decide_eq_false_2 _ Hv),
        ?(bool_decide_eq_true_2 _ Hb), ?(bool_decide_eq_false_2 _ Hb),
        ?(bool_decide_eq_true_2 _ Hd), ?(bool_decide_eq_false_2 _ Hd);
      repeat (destruct (decide _) as [[? ?]|?]);
      first [ reflexivity
            | exfalso; intuition discriminate ].
  - intros stages' Hsame. unfold plan_jobs.
    rewrite (bool_decide_ext (VALIDATE ∈ stages') (VALIDATE ∈ stages))
      by (symmetry; apply Hsame; repeat constructor).
    rewrite (bool_decide_ext (BUILD ∈ stages') (BUILD ∈ stages))
      by (symmetry; apply Hsame; repeat constructor).
    rewrite (bool_decide_ext (DEPLOY ∈ stages') (DEPLOY ∈ stages))
      by (symmetry; apply Hsame; repeat constructor).
    done.
Qed.

(** X7. When none of the requested stages yields a job (an empty stage
    list, only Setup, Test or Monitor, or Deploy without [auto_deploy]),
    [run_pipeline] reports success without starting a subprocess and
    without touching [job_results]. *)
Theorem run_pipeline_nothing_to_do config st stages :
  VALIDATE ∉ stages -> BUILD ∉ stages ->
  DEPLOY ∉ stages \/ PipelineConfig.auto_deploy config = false ->
  (run_pipeline config st stages).2 = Return true
  /\ (run_pipeline config st stages).1.1 = st
  /\ runs_of (run_pipeline config st stages).1.2 = []
  /\ executed_jobs (run_pipeline config st stages).1.2 = [].
Proof.
  intros Hv Hb Hd.
  assert (plan_jobs config stages = []) as Hplan.
  { unfold plan_jobs.
    rewrite (bool_decide_eq_false_2 _ Hv), (bool_decide_eq_false_2 _ Hb).
    destruct Hd as [Hd| ->].
    - by rewrite (bool_decide_eq_false_2 _ Hd).
    - by rewrite andb_false_r. }
  unfold run_pipeline. rewrite Hplan. done.
Qed.

End PipelineEdges.

(** * What [run_pipeline] leaves untouched, and the report after a run *)

Section PipelineFrame.

Context {W : Type} `{!Shell W, !Clock W}.

Implicit Types (st : State W) (job : PipelineJob.t) (evs : list event).

Lemma execute_job_envs job st :
  os_environ (execute_job st job).1.1 = os_environ st
  /\ Forall (fun env => env = PipelineJob.environment job ∪ os_environ st)
            (envs_of (execute_job st job).1.2).
Proof.
  unfold execute_job.
  pose proof (attempts_frame job (range (PipelineJob.retry_count job + 1)) st)
    as (Henv & _ & Henvs & _).
  destruct (attempts job (range (PipelineJob.retry_count job + 1)) st)
    as [[st1 evs] r].
  cbn [fst snd] in Henv, Henvs.
  destruct r as [[|]|[| |code|msg]]; cbn [fst snd]; (split; [done|]);
    rewrite ?envs_of_app; simpl; rewrite ?app_nil_r; done.
Qed.

Lemma run_jobs_frame total jobs : forall i s st,
  os_environ (run_jobs total i jobs s st).1.1 = os_environ st
  /\ (forall n, n ∉ PipelineJob.name <$> jobs ->
        job_results (run_jobs total i jobs s st).1.1 !! n = job_results st !! n)
  /\ Forall (fun env => exists job,
                 job ∈ jobs /\ env = PipelineJob.environment job ∪ os_environ st)
            (envs_of (run_jobs total i jobs s st).1.2).
Proof.
  induction jobs as [|job rest IH]; intros i s st.
  { simpl. repeat split; constructor. }
  cbn [run_jobs].
  pose proof (execute_job_job_results job st) as Hrec.
  pose proof (execute_job_envs job st) as [Henv Henvs].
  destruct (execute_job st job) as [[st1 evs1] r]. cbn [fst snd] in *.
  assert (Forall (fun env => exists job0,
                    job0 ∈ job :: rest
                    /\ env = PipelineJob.environment job0 ∪ os_environ st)
                 (envs_of evs1)) as Hhere.
  { eapply Forall_impl; [exact Henvs|]. intros env ->. exists job. split; [left|done]. }
  assert (forall n b, n ∉ PipelineJob.name <$> job :: rest ->
            <[PipelineJob.name job := b]> (job_results st) !! n = job_results st !! n)
    as Hother.
  { intros n b Hn. apply lookup_insert_ne. intros <-. apply Hn. left. }
  destruct r as [[|]|e].
  - specialize (IH (i + 1) (s + 1) st1).
    destruct (run_jobs total (i + 1) rest (s + 1) st1) as [[st2 evs2] o].
    cbn [fst snd] in *. destruct IH as (IH1 & IH2 & IH3).
    split; [congruence|]. split.
    + intros n Hn. transitivity (job_results st1 !! n).
      * apply IH2. intros Hin. apply Hn. by right.
      * rewrite Hrec. by apply Hother.
    + change (?a :: evs1 ++ evs2) with ([a] ++ evs1 ++ evs2).
      rewrite !envs_of_app. simpl. apply Forall_app. split; [done|].
      eapply Forall_impl; [exact IH3|]. intros env (job0 & Hin & ->).
      exists job0. split; [by right|]. by rewrite Henv.
  - cbn [fst snd]. split; [done|]. split.
    + intros n Hn. rewrite Hrec. by apply Hother.
    + change (?a :: evs1 ++ ?l) with ([a] ++ evs1 ++ l).
      rewrite !envs_of_app. simpl. by rewrite app_nil_r.
  - cbn [fst snd]. destruct Hrec as [_ Hrec]. split; [done|]. split.
    + intros n _. by rewrite Hrec.
    + done.
Qed.

Lemma plan_jobs_environment config stages :
  Forall (fun job => PipelineJob.environment job = ∅
                     \/ PipelineJob.environment job = {["NODE_ENV" := "production"]})
         (plan_jobs config stages).
Proof.
  unfold plan_jobs.
  destruct (bool_decide (VALIDATE ∈ stages)), (bool_decide (BUILD ∈ stages)),
    (bool_decide (DEPLOY ∈ stages) && PipelineConfig.auto_deploy config);
    simpl; repeat constructor; by (left + right).
Qed.

(** X8. [run_pipeline] leaves [os.environ] as it found it and changes
    [job_results] at the names of the planned jobs only; the environment it
    gives to a subprocess differs from [os.environ] at most in [NODE_ENV],
    which it sets to [production] for the Build and Deploy jobs. *)
Theorem run_pipeline_frame config st stages :
  os_environ (run_pipeline config st stages).1.1 = os_environ st
  /\ (forall n, n ∉ PipelineJob.name <$> plan_jobs config stages ->
        job_results (run_pipeline config st stages).1.1 !! n = job_results st !! n)
  /\ Forall (fun env =>
               (forall key, key <> "NODE_ENV" -> env !! key = os_environ st !! key)
               /\ (env = os_environ st \/ env !! "NODE_ENV" = Some "production"))
            (envs_of (run_pipeline config st stages).1.2).
Proof.
  pose proof (run_jobs_frame (Z.of_nat (length (plan_jobs config stages)))
                (plan_jobs config stages) 1 0 st) as (Henv & Hres & Henvs).
  pose proof (plan_jobs_environment config stages) as Hplan.
  unfold run_pipeline.
  destruct (run_jobs _ _ _ _ _) as [[st1 evs] r]. cbn [fst snd] in *.
  assert (Forall (fun env =>
               (forall key, key <> "NODE_ENV" -> env !! key = os_environ st !! key)
               /\ (env = os_environ st \/ env !! "NODE_ENV" = Some "production"))
            (envs_of evs)) as Hall.
  { eapply Forall_impl; [exact Henvs|]. intros env (job & Hin & ->).
    rewrite Forall_forall in Hplan. destruct (Hplan job Hin) as [-> | ->].
    - rewrite (left_id_L ∅ (∪)). split; [done|by left].
    - split.
      + intros key Hkey. rewrite lookup_union, lookup_singleton_ne by done.
        by destruct (os_environ st !! key).
      + right. rewrite lookup_union, lookup_singleton_eq.
        by destruct (os_environ st !! "NODE_ENV"). }
  destruct r as [s|e]; [destruct (s =? _)|]; cbn [fst snd];
    (split; [done|]); (split; [done|]);
    change (?a :: ?l) with ([a] ++ l);
    rewrite ?envs_of_app; simpl; rewrite ?app_nil_r; done.
Qed.

End PipelineFrame.

(** * The success rate *)

Lemma successes_le_len (results : gmap string bool) : 0 <= successes results <= len results.
Proof.
  unfold successes, len. split; [lia|].
  pose proof (length_filter (fun r : bool => r = true) (map_to_list results).*2) as Hle.
  rewrite length_fmap, length_map_to_list in Hle. lia.
Qed.

Lemma successes_all (results : gmap string bool) :
  successes results = len results
  <-> forall n v, results !! n = Some v -> v = true.
Proof.
  unfold successes, len. rewrite <- length_map_to_list.
  rewrite <- (length_fmap snd (map_to_list results)).
  split.
  - intros Hlen n v Hn.
    destruct v; [done|]. exfalso.
    assert (false ∈ (map_to_list results).*2) as Hin.
    { apply list_elem_of_fmap. exists (n, false). split; [done|].
      by apply elem_of_map_to_list. }
    pose proof (length_filter_lt (fun r : bool => r = true) _ false Hin) as Hlt.
    specialize (Hlt ltac:(done)). lia.
  - intros Hall. f_equal. f_equal.
    assert (Forall (fun r : bool => r = true) (map_to_list results).*2) as Htrue.
    { apply Forall_forall. intros v Hin.
      apply list_elem_of_fmap in Hin as ([n v'] & -> & Hin).
      apply elem_of_map_to_list in Hin. by apply (Hall n). }
    induction Htrue as [|v l Hv _ IH]; [done|].
    by rewrite filter_cons_True, IH.
Qed.

Lemma success_rate_fraction (results : gmap string bool) :
  exists p : positive,
    Z.max (len results) 1 = Z.pos p
    /\ success_rate results = Return (inject_Z (successes results) / inject_Z (Z.pos p))%Q
    /\ (inject_Z (successes results) / inject_Z (Z.pos p) == successes results # p)%Q.
Proof.
  rewrite success_rate_returns.
  destruct (Z.max (len results) 1) as [|p|p] eqn:Hmax; [lia| |lia].
  exists p. split; [done|]. split; [done|]. symmetry. apply Qmake_Qdiv.
Qed.

(** X9. The success rate of a report lies between 0 and 1, and it is 1
    exactly when at least one job is recorded and every recorded job
    succeeded. *)
Theorem success_rate_range (results : gmap string bool) :
  exists rate : Q,
    success_rate results = Return rate
    /\ (0 <= rate)%Q /\ (rate <= 1)%Q
    /\ ((rate == 1)%Q
        <-> results <> ∅ /\ forall n v, results !! n = Some v -> v = true).
Proof.
  destruct (success_rate_fraction results) as (p & Hmax & -> & Hfrac).
  pose proof (successes_le_len results) as [Hlo Hhi].
  eexists. split; [reflexivity|].
  rewrite Hfrac. unfold Qle, Qeq. simpl.
  split; [lia|]. split; [lia|].
  rewrite <- successes_all.
  assert (len results = 0 <-> results = ∅) as Hempty.
  { unfold len. rewrite <- map_size_empty_iff. lia. }
  split.
  - intros Heq. split; [|lia]. intros Hnone. apply Hempty in Hnone. lia.
  - intros [Hne Hall]. assert (len results <> 0) by (by rewrite Hempty). lia.
Qed.

Lemma successes_insert (results : gmap string bool) (n : string) (b : bool) :
  results !! n = None ->
  successes (<[n := b]> results) = successes results + (if b then 1 else 0).
Proof.
  intros Hnone. unfold successes.
  rewrite (map_to_list_insert results n b Hnone). rewrite fmap_cons. simpl.
  destruct b.
  - rewrite filter_cons_True by done. simpl. lia.
  - rewrite filter_cons_False by done. lia.
Qed.

Section ReportAfterRun.

Context {W : Type} `{!Shell W, !Clock W}.

Implicit Types (st : State W) (job : PipelineJob.t) (evs : list event).

Lemma run_jobs_successes total jobs : forall i s st st' evs s',
  run_jobs total i jobs s st = (st', evs, Return s') ->
  NoDup (PipelineJob.name <$> jobs) ->
  (forall j, j ∈ jobs -> job_results st !! PipelineJob.name j = None) ->
  successes (job_results st') = successes (job_results st) + (s' - s).
Proof.
  induction jobs as [|job rest IH]; intros i s st st' evs s' Hrun Hnodup Hfresh.
  { simpl in Hrun. injection Hrun as <- <- <-. lia. }
  cbn [run_jobs] in Hrun.
  pose proof (execute_job_job_results job st) as Hrec.
  destruct (execute_job st job) as [[st1 evs1] r]. cbn [fst snd] in Hrec.
  apply NoDup_cons in Hnodup as [Hnotin Hnodup].
  assert (job_results st !! PipelineJob.name job = None) as Hnone
    by (apply Hfresh; left).
  destruct r as [[|]|e]; [| |done].
  - destruct (run_jobs total (i + 1) rest (s + 1) st1) as [[st2 evs2] o] eqn:Hrest.
    injection Hrun as <- <- ->.
    rewrite (IH _ _ _ _ _ _ Hrest Hnodup).
    + rewrite Hrec, successes_insert by done. lia.
    + intros j Hj. rewrite Hrec, lookup_insert_ne; [apply Hfresh; by right|].
      intros Heq. apply Hnotin. rewrite Heq. by apply list_elem_of_fmap_2.
  - injection Hrun as <- <- <-.
    rewrite Hrec, successes_insert by done. lia.
Qed.

(** X10. After a run on a freshly constructed orchestrator the report
    counts what the run did: after a successful run every recorded job is
    a success and the rate is 1 (if there was a job at all); after a failed
    run all recorded jobs but one are successes, so the rate is
    [(n - 1) / n] for [n] recorded jobs, and never 1. *)
Theorem report_after_run config st stages (b : bool) :
  job_results st = ∅ ->
  (run_pipeline config st stages).2 = Return b ->
  exists rate : Q,
    success_rate (job_results (run_pipeline config st stages).1.1) = Return rate
    /\ (b = true ->
        successes (job_results (run_pipeline config st stages).1.1)
        = len (job_results (run_pipeline config st stages).1.1)
        /\ len (job_results (run_pipeline config st stages).1.1)
           = Z.of_nat (length (plan_jobs config stages))
        /\ (plan_jobs config stages <> [] -> (rate == 1)%Q))
    /\ (b = false ->
        successes (job_results (run_pipeline config st stages).1.1)
        = len (job_results (run_pipeline config st stages).1.1) - 1
        /\ 0 < len (job_results (run_pipeline config st stages).1.1)
        /\ (rate == inject_Z (len (job_results (run_pipeline config st stages).1.1) - 1)
                    / inject_Z (len (job_results (run_pipeline config st stages).1.1)))%Q
        /\ ~ (rate == 1)%Q).
Proof.
  intros Hempty Hverdict.
  destruct (run_pipeline_result config st stages) as (-> & _ & _ & Hres).
  rewrite Hres in Hverdict. clear Hres.
  destruct (run_jobs _ _ _ _ _) as [[st1 evs] [s|e]] eqn:Hrun; [|done].
  cbn [fst snd] in *. injection Hverdict as <-.
  assert (forall j, j ∈ plan_jobs config stages ->
                    job_results st !! PipelineJob.name j = None) as Hfresh.
  { intros j _. by rewrite Hempty, lookup_empty. }
  pose proof (run_jobs_successes _ _ _ _ _ _ _ _ Hrun (plan_jobs_NoDup config stages) Hfresh)
    as Hsucc.
  destruct (run_jobs_spec _ _ _ _ _ _ _ _ Hrun (plan_jobs_NoDup config stages) Hfresh)
    as (p & -> & Hp & _ & Hsize & _).
  assert (successes (job_results st) = 0) as Hzero.
  { rewrite Hempty. apply successes_empty. unfold len. by rewrite map_size_empty. }
  rewrite Hempty, map_size_empty, length_take in Hsize.
  assert (len (job_results st1)
          = Z.of_nat (Nat.min (S p) (length (plan_jobs config stages)))) as Hlen.
  { unfold len. by rewrite Hsize. }
  destruct (success_rate_fraction (job_results st1)) as (q & Hmax & -> & Hfrac).
  eexists. split; [reflexivity|].
  rewrite Hfrac. unfold Qeq. simpl. split.
  - intros Hs. apply Z.eqb_eq in Hs.
    split; [lia|]. split; [lia|].
    intros Hne. destruct (plan_jobs config stages); [done|]. simpl in *. lia.
  - intros Hs. apply Z.eqb_neq in Hs.
    split; [lia|]. split; [lia|].
    assert (len (job_results st1) = Z.pos q) as Hq by lia.
    split; [|lia].
    rewrite Hq.
    replace (Z.pos q - 1) with (successes (job_results st1)) by lia.
    change (inject_Z (successes (job_results st1)) / inject_Z (Z.pos q))%Q
      with (Qmult (inject_Z (successes (job_results st1))) (Qinv (inject_Z (Z.pos q)))).
    simpl. lia.
Qed.

End ReportAfterRun.


(** * The deployment steps, in order *)

Section DeploySteps.

Import NitsRdlDeployment.
Context {W : Type} `{!Clock W, !Steps W}.

Lemma calls_of_app (evs1 evs2 : list deploy_event) :
  calls_of (evs1 ++ evs2) = calls_of evs1 ++ calls_of evs2.
Proof. apply omap_app. Qed.

Lemma successful_steps_app (evs1 evs2 : list deploy_event) :
  successful_steps (evs1 ++ evs2) = successful_steps evs1 ++ successful_steps evs2.
Proof. apply omap_app. Qed.

Lemma deploy_sleeps_app (evs1 evs2 : list deploy_event) :
  deploy_sleeps (evs1 ++ evs2) = deploy_sleeps evs1 ++ deploy_sleeps evs2.
Proof. apply omap_app. Qed.

(** The calls of one step: failed calls, each followed by a sleep of 2
    seconds, until a call succeeds or raises, or until [max_retries] calls
    have failed. *)
Lemma retry_loop_shape max step_name (step_func : W -> W * outcome bool) :
  forall fuel retry_count w w' evs o,
    retry_loop fuel max step_name step_func retry_count w = Some (w', evs, o) ->
    retry_count < max ->
    exists k : nat,
      deploy_sleeps evs = replicate k 2
      /\ match o with
         | Return LoopLeft =>
             calls_of evs
             = replicate k (step_name, Return false) ++ [(step_name, Return true)]
             /\ successful_steps evs = [step_name]
             /\ retry_count + Z.of_nat k < max
         | Return ReturnedFalse =>
             calls_of evs = replicate (S k) (step_name, Return false)
             /\ successful_steps evs = []
             /\ retry_count + Z.of_nat k + 1 = max
         | Raise e =>
             calls_of evs
             = replicate k (step_name, Return false) ++ [(step_name, Raise e)]
             /\ successful_steps evs = []
             /\ retry_count + Z.of_nat k < max
         end.
Proof.
  induction fuel as [|fuel IH]; intros retry_count w w' evs o Hrun Hlt; simpl in Hrun.
  { replace (retry_count <? max) with true in Hrun by (symmetry; apply Z.ltb_lt; lia).
    done. }
  replace (retry_count <? max) with true in Hrun by (symmetry; apply Z.ltb_lt; lia).
  destruct (step_func w) as [w1 [[|]|e]].
  - injection Hrun as <- <- <-. exists O. simpl. repeat split; lia.
  - destruct (retry_count + 1 <? max) eqn:Hnext.
    + apply Z.ltb_lt in Hnext.
      destruct (retry_loop fuel max step_name step_func (retry_count + 1)
                  (time_sleep w1 2)) as [[[w2 evs2] o2]|] eqn:Hrest; [|done].
      injection Hrun as <- <- <-.
      destruct (IH _ _ _ _ _ Hrest Hnext) as (k & Hsl & Ho).
      exists (S k). simpl. split; [by rewrite Hsl|].
      destruct o2 as [[|]|e]; destruct Ho as (-> & -> & Hk); repeat split; lia.
    + apply Z.ltb_ge in Hnext. injection Hrun as <- <- <-.
      exists O. simpl. repeat split; lia.
  - injection Hrun as <- <- <-. exists O. simpl. repeat split; lia.
Qed.

(** X11. With [max_retries <= 0] no step function is ever called, and
    [deploy] nevertheless returns [True]. *)
Theorem deploy_without_attempts (config : DeploymentConfig) (w : W) :
  max_retries config <= 0 ->
  exists evs,
    deploy config w = Some (w, evs, Return true)
    /\ calls_of evs = []
    /\ deploy_sleeps evs = [].
Proof.
  intros Hmax. unfold deploy, steps.
  assert (forall step_name (step_func : W -> W * outcome bool) w0,
            retry_loop (Z.to_nat (max_retries config)) (max_retries config)
              step_name step_func 0 w0 = Some (w0, [], Return LoopLeft)) as Hskip.
  { intros step_name step_func w0.
    replace (Z.to_nat (max_retries config)) with O by lia. simpl.
    by replace (0 <? max_retries config) with false by (symmetry; apply Z.ltb_ge; lia). }
  cbn [run_steps]. rewrite !Hskip. eexists. split; [reflexivity|]. by split.
Qed.

Lemma run_steps_shape max (l : list (string * (W -> W * outcome bool))) :
  0 < max ->
  forall w w' evs o,
    run_steps max l w = Some (w', evs, o) ->
    exists n : nat,
      (n <= length l)%nat
      /\ successful_steps evs = take n l.*1
      /\ Forall (fun s => s = 2) (deploy_sleeps evs)
      /\ (length (calls_of evs) <= Z.to_nat max * length l)%nat
      /\ match o with
         | Return true => n = length l
         | Return false =>
             exists step_name before,
               l.*1 !! n = Some step_name
               /\ calls_of evs
                  = before ++ replicate (Z.to_nat max) (step_name, Return false)
         | Raise e =>
             exists step_name before,
               l.*1 !! n = Some step_name
               /\ calls_of evs = before ++ [(step_name, Raise e)]
         end.
Proof.
  intros Hmax. induction l as [|[step_name step_func] rest IH]; intros w w' evs o Hrun.
  { simpl in Hrun. injection Hrun as <- <- <-. exists O. simpl.
    repeat split; first [lia | constructor]. }
  cbn [run_steps] in Hrun.
  destruct (retry_loop (Z.to_nat max) max step_name step_func 0 w)
    as [[[w1 evs1] o1]|] eqn:Hloop; [|done].
  destruct (retry_loop_shape _ _ _ _ _ _ _ _ _ Hloop Hmax) as (k & Hsl & Ho).
  assert (Forall (fun s => s = 2) (deploy_sleeps evs1)) as Hsl2.
  { rewrite Hsl. by apply Forall_replicate. }
  destruct o1 as [[|]|e].
  - destruct Ho as (Hcalls & Hsucc & Hk).
    destruct (run_steps max rest w1) as [[[w2 evs2] o2]|] eqn:Hrest; [|done].
    injection Hrun as <- <- <-.
    destruct (IH _ _ _ _ Hrest) as (n & Hn & Hsucc2 & Hsl3 & Hlen & Ho2).
    exists (S n). split; [simpl; lia|].
    change (DLog INFO (MsgStep step_name) :: evs1 ++ evs2)
      with ([DLog INFO (MsgStep step_name)] ++ evs1 ++ evs2).
    rewrite !successful_steps_app, !deploy_sleeps_app, !calls_of_app, Hsucc, Hsucc2.
    split; [done|]. split; [simpl; by apply Forall_app|]. split.
    { simpl. rewrite length_app, Hcalls, length_app, length_replicate. simpl. lia. }
    destruct o2 as [[|]|e].
    + simpl. lia.
    + destruct Ho2 as (nm & before & Hnm & ->).
      exists nm, (calls_of evs1 ++ before). split; [done|].
      simpl. by rewrite <- app_assoc.
    + destruct Ho2 as (nm & before & Hnm & ->).
      exists nm, (calls_of evs1 ++ before). split; [done|].
      simpl. by rewrite <- app_assoc.
  - destruct Ho as (Hcalls & Hsucc & Hk).
    injection Hrun as <- <- <-. exists O. split; [simpl; lia|].
    change (DLog INFO (MsgStep step_name) :: evs1)
      with ([DLog INFO (MsgStep step_name)] ++ evs1).
    rewrite !successful_steps_app, !deploy_sleeps_app, !calls_of_app, Hsucc.
    split; [done|]. split; [done|]. split.
    { simpl. rewrite Hcalls, length_replicate. lia. }
    exists step_name, []. split; [done|]. simpl. rewrite Hcalls.
    f_equal. lia.
  - destruct Ho as (Hcalls & Hsucc & Hk).
    injection Hrun as <- <- <-. exists O. split; [simpl; lia|].
    change (DLog INFO (MsgStep step_name) :: evs1)
      with ([DLog INFO (MsgStep step_name)] ++ evs1).
    rewrite !successful_steps_app, !deploy_sleeps_app, !calls_of_app, Hsucc.
    split; [done|]. split; [done|]. split.
    { simpl. rewrite Hcalls, length_app, length_replicate. simpl. lia. }
    exists step_name, (replicate k (step_name, Return false)). by split.
Qed.

(** X12. With [max_retries > 0], the steps of [deploy] that returned
    [True] are an initial part of validation, installation, build and
    server start, in this order, each once.  [deploy] returns [True] only
    when all four did; it returns [False] right after [max_retries] failed
    calls in a row of the next step, and an exception comes from a call of
    the next step.  No step is called after a step that failed, there are
    at most [4 * max_retries] calls, and every sleep lasts 2 seconds. *)
Theorem deploy_steps_in_order (config : DeploymentConfig) (w w' : W) evs o :
  0 < max_retries config ->
  deploy config w = Some (w', evs, o) ->
  exists n : nat,
    (n <= 4)%nat
    /\ successful_steps evs = take n step_names
    /\ Forall (fun s => s = 2) (deploy_sleeps evs)
    /\ (length (calls_of evs) <= Z.to_nat (max_retries config) * 4)%nat
    /\ match o with
       | Return true => n = 4%nat
       | Return false =>
           exists step_name before,
             step_names !! n = Some step_name
             /\ calls_of evs
                = before ++ replicate (Z.to_nat (max_retries config))
                                      (step_name, Return false)
       | Raise e =>
           exists step_name before,
             step_names !! n = Some step_name
             /\ calls_of evs = before ++ [(step_name, Raise e)]
       end.
Proof.
  intros Hmax Hrun. unfold deploy in Hrun.
  destruct (run_steps (max_retries config) steps w) as [[[w1 evs1] o1]|] eqn:Hsteps;
    [|done].
  injection Hrun as <- <- <-.
  destruct (run_steps_shape _ steps Hmax _ _ _ _ Hsteps) as (n & Hn & Hsucc & Hsl & Hlen & Ho).
  exists n. done.
Qed.

(** X13. In build-only mode the calls are an initial part of validation,
    installation and build, each called at most once and only after the
    one before it returned [True]; there is no retry, no sleep and no
    server start.  The exit status is 0 when the build was reached and
    returned [True], 1 when the last call returned [False]. *)
Theorem build_only_mode (args : Args) (w : W) :
  build_only args = true ->
  exists w' evs o,
    main args w = Some (w', evs, o)
    /\ (calls_of evs).*1
       `prefix_of` ["Environment Validation"; "Dependency Installation";
                    "Application Build"]
    /\ deploy_sleeps evs = []
    /\ match last (calls_of evs) with
       | Some (step_name, Return true) =>
           step_name = "Application Build"
           /\ length (successful_steps evs) = 3%nat /\ exit_status o = 0
       | Some (step_name, Return false) =>
           length (successful_steps evs) = pred (length (calls_of evs))
           /\ exit_status o = 1
       | Some (step_name, Raise e) =>
           length (successful_steps evs) = pred (length (calls_of evs))
           /\ exit_status o = documented_exit_code (Raise e)
       | None => False
       end.
Proof.
  intros Hmode.
  unfold main, main_body, requested_operation. rewrite Hmode.
  unfold build_only_steps, and_then, call.
  destruct (validate_environment w) as [w1 [[|]|[| |c1|m1]]]; simpl;
    try (eexists _, _, _; split; [reflexivity|];
         repeat split; first [ by eexists | done ]).
  destruct (install_dependencies w1) as [w2 [[|]|[| |c2|m2]]]; simpl;
    try (eexists _, _, _; split; [reflexivity|];
         repeat split; first [ by eexists | done ]).
  destruct (build_application w2) as [w3 [[|]|[| |c3|m3]]]; simpl;
    eexists _, _, _; (split; [reflexivity|]);
    repeat split; first [ by eexists | done ].
Qed.

End DeploySteps.

(** * The environment checks *)

Section ChecksFacts.

Import Checks.
Context {W : Type} `{!Project W}.

Lemma first_missing_None (w : W) files :
  first_missing w files = None <-> forall f, f ∈ files -> path_exists w f = true.
Proof.
  induction files as [|file rest IH]; simpl.
  - split; [|done]. intros _ f Hf. by apply elem_of_nil in Hf.
  - destruct (path_exists w file) eqn:Hfile.
    + rewrite IH. split.
      * intros Hall f Hf. apply elem_of_cons in Hf as [->|Hf]; eauto.
      * intros Hall f Hf. apply Hall. by right.
    + split; [done|]. intros Hall. rewrite Hall in Hfile; [done|left].
Qed.

Lemma first_missing_Some (w : W) files f :
  first_missing w files = Some f ->
  exists before after,
    files = before ++ f :: after
    /\ path_exists w f = false
    /\ forall g, g ∈ before -> path_exists w g = true.
Proof.
  induction files as [|file rest IH]; simpl; [done|].
  destruct (path_exists w file) eqn:Hfile.
  - intros Hrest. destruct (IH Hrest) as (before & after & -> & Hf & Hbefore).
    exists (file :: before), after. repeat split; [done|].
    intros g Hg. apply elem_of_cons in Hg as [->|Hg]; eauto.
  - intros [= <-]. exists [], rest. repeat split; [done|].
    intros g Hg. by apply elem_of_nil in Hg.
Qed.

Lemma validate_environment_package_json (w : W) :
  (validate_environment w).2 = Return true ->
  path_exists (validate_environment w).1.1 "package.json" = true.
Proof.
  unfold validate_environment, detect.
  destruct (run_tool w ["node"; "--version"]) as [w1 [p1| |e1]]; cbn -[first_missing]; try done.
  destruct (run_tool w1 ["npm"; "--version"]) as [w2 [p2| |e2]]; cbn -[first_missing]; try done.
  destruct (path_exists w2 "package.json") eqn:Hpkg; cbn -[first_missing]; [|done].
  by destruct (first_missing w2 required_files).
Qed.

(** X14. [validate_environment] returns [True] exactly when [node] and
    [npm] can be started (whatever they print and whatever their exit
    status) and [package.json], [vite.config.ts], [src/App.tsx] and
    [tailwind.config.js] all exist.  When it returns [False] with both
    tools present, it reports exactly one file, the first one of this list
    that does not exist. *)
Theorem validate_environment_result (w : W) :
  ((validate_environment w).2 = Return true
   <-> exists w1 w2 p1 p2,
         run_tool w ["node"; "--version"] = (w1, Ran p1)
         /\ run_tool w1 ["npm"; "--version"] = (w2, Ran p2)
         /\ forall f, f ∈ "package.json" :: required_files -> path_exists w2 f = true)
  /\ ((validate_environment w).2 = Return false ->
      (exists argv, CTool argv NotFound ∈ (validate_environment w).1.2)
      \/ exists before f after,
           "package.json" :: required_files = before ++ f :: after
           /\ reported_missing (validate_environment w).1.2 = [f]
           /\ path_exists (validate_environment w).1.1 f = false
           /\ forall g, g ∈ before -> path_exists (validate_environment w).1.1 g = true).
Proof.
  unfold validate_environment, detect.
  destruct (run_tool w ["node"; "--version"]) as [w1 [p1| |e1]] eqn:Hnode; cbn -[first_missing].
  2:{ split; [split; [done|] |].
      - intros (? & ? & ? & ? & [=] & _).
      - intros _. left. exists ["node"; "--version"]. repeat first [by left | right]. }
  2:{ split; [split; [done|] | done]. intros (? & ? & ? & ? & [=] & _). }
  destruct (run_tool w1 ["npm"; "--version"]) as [w2 [p2| |e2]] eqn:Hnpm; cbn -[first_missing].
  2:{ split; [split; [done|] |].
      - intros (? & ? & ? & ? & [= <- <-] & Hn & _). congruence.
      - intros _. left. exists ["npm"; "--version"]. repeat first [by left | right]. }
  2:{ split; [split; [done|] | done].
      intros (? & ? & ? & ? & [= <- <-] & Hn & _). congruence. }
  destruct (path_exists w2 "package.json") eqn:Hpkg; cbn -[first_missing].
  2:{ split; [split; [done|] |].
      - intros (? & ? & ? & ? & [= <- <-] & Hn & Hall).
        rewrite Hnpm in Hn. injection Hn as <- <-.
        rewrite Hall in Hpkg; [done|left].
      - intros _. right. exists [], "package.json", required_files.
        repeat split; [done|]. intros g Hg. by apply elem_of_nil in Hg. }
  destruct (first_missing w2 required_files) as [f|] eqn:Hmiss; cbn -[first_missing].
  - split; [split; [done|] |].
    + intros (? & ? & ? & ? & [= <- <-] & Hn & Hall).
      rewrite Hnpm in Hn. injection Hn as <- <-.
      assert (first_missing w2 required_files = None) as Hnone.
      { apply first_missing_None. intros g Hg. apply Hall. by right. }
      congruence.
    + intros _. right.
      destruct (first_missing_Some _ _ _ Hmiss) as (before & after & Hreq & Hf & Hbefore).
      exists ("package.json" :: before), f, after. rewrite Hreq.
      repeat split; [done|].
      intros g Hg. apply elem_of_cons in Hg as [->|Hg]; eauto.
  - split; [|done]. split; [|done]. intros _.
    exists w1, w2, p1, p2. split; [done|]. split; [done|].
    intros f Hf. apply elem_of_cons in Hf as [->|Hf]; [done|].
    by apply (first_missing_None w2 required_files).
Qed.

Lemma validate_environment_events (w : W) :
  Forall (fun e => forall f, e <> CLog ERROR (MsgPipelineFileMissing f))
         (validate_environment w).1.2
  /\ ((validate_environment w).2 = Return true ->
      reported_missing (validate_environment w).1.2 = []).
Proof.
  unfold validate_environment, detect.
  destruct (run_tool w ["node"; "--version"]) as [w1 [p1| |e1]];
    cbn -[first_missing]; try (split; [by repeat constructor|done]).
  destruct (run_tool w1 ["npm"; "--version"]) as [w2 [p2| |e2]];
    cbn -[first_missing]; try (split; [by repeat constructor|done]).
  destruct (path_exists w2 "package.json");
    cbn -[first_missing]; try (split; [by repeat constructor|done]).
  destruct (first_missing w2 required_files);
    cbn -[first_missing]; split; first [by repeat constructor | done].
Qed.

(** X15. The result of [validate_pipeline] does not depend on the
    configuration (the GitHub token only changes a log line).  It is [True]
    exactly when [validate_environment] returns [True] and
    [nits_rdl_deployment.py] exists; its own check of [package.json] can
    never fail, since [validate_environment] has checked that file: after a
    successful environment validation the only file it can report is
    [nits_rdl_deployment.py]. *)
Theorem validate_pipeline_result (config config' : PipelineConfig.t) (w : W) :
  (validate_pipeline config w).2 = (validate_pipeline config' w).2
  /\ ((validate_pipeline config w).2 = Return true
      <-> (validate_environment w).2 = Return true
          /\ path_exists (validate_environment w).1.1 "nits_rdl_deployment.py" = true)
  /\ ~ (CLog ERROR (MsgPipelineFileMissing "package.json")
          ∈ (validate_pipeline config w).1.2)
  /\ ((validate_environment w).2 = Return true ->
      (validate_pipeline config w).2 = Return false ->
      reported_missing (validate_pipeline config w).1.2 = ["nits_rdl_deployment.py"]).
Proof.
  pose proof (validate_environment_package_json w) as Hpkg.
  pose proof (validate_environment_events w) as [Hevs Hnone].
  unfold validate_pipeline.
  destruct (validate_environment w) as [[w1 evs1] r]. cbn [fst snd] in *.
  assert (forall l, ~ (CLog ERROR (MsgPipelineFileMissing "package.json") ∈ evs1 ++ l)
                    <-> ~ (CLog ERROR (MsgPipelineFileMissing "package.json") ∈ l))
    as Hskip.
  { intros l. rewrite elem_of_app. split; [tauto|].
    intros Hl [Hin|Hin]; [|done].
    rewrite Forall_forall in Hevs. by apply (Hevs _ Hin "package.json"). }
  assert (forall (x : check_event) l, reported_missing (x :: l)
                                      = reported_missing [x] ++ reported_missing l)
    as Hcons by (intros x l; apply (omap_app _ [x] l)).
  set (token := match PipelineConfig.github_token config with
                | Some s =>
                    if bool_decide (s = EmptyString) then CLog WARNING MsgTokenNotConfigured
                    else CLog INFO MsgTokenConfigured
                | None => CLog WARNING MsgTokenNotConfigured
                end).
  assert ((forall f, token <> CLog ERROR (MsgPipelineFileMissing f))
          /\ reported_missing [token] = []) as [Htoken Htoken'].
  { unfold token.
    by destruct (PipelineConfig.github_token config) as [s|];
      [destruct (bool_decide (s = EmptyString))|]. }
  clearbody token.
  destruct r as [[|]|e]; cbn [fst snd].
  - cbn [first_missing pipeline_required_files]. rewrite (Hpkg eq_refl).
    destruct (path_exists w1 "nits_rdl_deployment.py"); cbn [fst snd].
    + split; [done|]. split; [done|]. split; [|done].
      intros Hin. apply elem_of_cons in Hin as [Hin|Hin]; [done|].
      apply Hskip in Hin; [done|].
      intros Hl. apply elem_of_cons in Hl as [Hl|Hl]; [by apply (Htoken "package.json")|].
      apply elem_of_cons in Hl as [Hl|Hl]; [done|]. by apply elem_of_nil in Hl.
    + split; [done|]. split; [split; [done|by intros [_ ?]]|]. split.
      * intros Hin. apply elem_of_cons in Hin as [Hin|Hin]; [done|].
        apply Hskip in Hin; [done|].
        intros Hl.
        apply elem_of_cons in Hl as [Hl|Hl]; [by apply (Htoken "package.json")|].
        apply elem_of_cons in Hl as [Hl|Hl]; [done|]. by apply elem_of_nil in Hl.
      * intros _ _. rewrite Hcons. unfold reported_missing at 2.
        rewrite omap_app. fold (reported_missing evs1). rewrite (Hnone eq_refl).
        rewrite (Hcons token). by rewrite Htoken'.
  - split; [done|]. split; [split; [done|by intros [? _]]|]. split; [|done].
    intros Hin. apply elem_of_cons in Hin as [Hin|Hin]; [done|].
    apply Hskip in Hin; [done|].
    intros Hl. apply elem_of_cons in Hl as [Hl|Hl]; [done|]. by apply elem_of_nil in Hl.
  - split; [done|]. split; [split; [done|by intros [? _]]|]. split; [|done].
    intros Hin. apply elem_of_cons in Hin as [Hin|Hin]; [done|].
    rewrite Forall_forall in Hevs. by apply (Hevs _ Hin "package.json").
Qed.

End ChecksFacts.

(** * The static file server *)

(** X16. The path [do_GET] serves is the requested path when it lies under
    [/assets/], ends in one of the static suffixes, or is [/] (or is
    [/index.html] already), and [/index.html] in every other case; serving
    the served path again changes nothing. *)
Theorem do_GET_routes (path : string) :
  (Server.do_GET path = path \/ Server.do_GET path = "/index.html")
  /\ (Server.do_GET path = path
      <-> Server.startswith path "/assets/" = true
          \/ existsb (Server.endswith path) Server.static_suffixes = true
          \/ path = "/" \/ path = "/index.html")
  /\ Server.do_GET (Server.do_GET path) = Server.do_GET path.
Proof.
  assert (Server.do_GET "/index.html" = "/index.html") as Hindex by reflexivity.
  assert (Server.do_GET path = path \/ Server.do_GET path = "/index.html") as Hcases.
  { unfold Server.do_GET.
    destruct (negb _ && negb _); [|by left].
    destruct (negb (String.eqb path "/")); [by right|by left]. }
  split; [exact Hcases|]. split.
  - unfold Server.do_GET.
    destruct (Server.startswith path "/assets/") eqn:Hassets; [by split; auto|].
    destruct (existsb (Server.endswith path) Server.static_suffixes) eqn:Hsuffix;
      [by split; auto|].
    destruct (String.eqb path "/") eqn:Hroot; cbn [negb andb].
    + apply String.eqb_eq in Hroot. by split; auto.
    + apply String.eqb_neq in Hroot. split.
      * intros <-. by do 3 right.
      * by intros [?|[?|[?|?]]].
  - destruct Hcases as [Hsame|Hindex']; [by rewrite !Hsame|].
    by rewrite Hindex', Hindex.
Qed.

Section ServerFacts.

Import Server.
Context {W : Type} `{!Host W}.

Lemma probes_of_app (evs1 evs2 : list server_event) :
  probes_of (evs1 ++ evs2) = probes_of evs1 ++ probes_of evs2.
Proof. apply omap_app. Qed.

Lemma busy_until_cons (start port : Z) :
  start < port ->
  busy_until start port = (start, BindOSError) :: busy_until (start + 1) port.
Proof.
  intros Hlt. unfold busy_until. rewrite (seqZ_cons start) by lia.
  rewrite fmap_cons. do 3 f_equal; lia.
Qed.

(** The loop probes the ports one after the other and stops at the first
    whose bind does not raise [OSError]. *)
Lemma find_port_loop_spec host start_port : forall fuel port w,
  (Z.to_nat (start_port + 100 - port) <= fuel)%nat ->
  exists w' evs o,
    find_port_loop fuel host start_port port w = Some (w', evs, o)
    /\ evs = (fun pr => Probe host pr.1 pr.2) <$> probes_of evs
    /\ match o with
       | Return p =>
           port <= p < start_port + 100
           /\ probes_of evs = busy_until port p ++ [(p, Bound)]
       | Raise e =>
           (e = OtherException "No available ports found in range"
            /\ probes_of evs = busy_until port (Z.max port (start_port + 100)))
           \/ exists p,
                port <= p < start_port + 100
                /\ probes_of evs = busy_until port p ++ [(p, BindFailed e)]
       end.
Proof.
  induction fuel as [|fuel IH]; intros port w Hfuel; cbn [find_port_loop].
  { replace (port <? start_port + 100) with false by (symmetry; apply Z.ltb_ge; lia).
    eexists _, _, _. split; [reflexivity|]. split; [done|]. left. split; [done|].
    unfold busy_until. by rewrite seqZ_nil by lia. }
  destruct (port <? start_port + 100) eqn:Hlt.
  2:{ apply Z.ltb_ge in Hlt.
      eexists _, _, _. split; [reflexivity|]. split; [done|]. left. split; [done|].
      unfold busy_until. by rewrite seqZ_nil by lia. }
  apply Z.ltb_lt in Hlt. unfold check_port_availability.
  destruct (bind w host port) as [w1 [| |e]].
  - eexists _, _, _. split; [reflexivity|]. split; [done|]. split; [lia|].
    unfold busy_until. by rewrite seqZ_nil by lia.
  - destruct (IH (port + 1) w1) as (w2 & evs2 & o & -> & Hevs & Ho); [lia|].
    eexists _, _, _. split; [reflexivity|].
    split; [by rewrite probes_of_app, fmap_app, <- Hevs|].
    destruct o as [p|e].
    + destruct Ho as [Hp Hprobes]. split; [lia|].
      simpl. rewrite Hprobes, (busy_until_cons port p) by lia. done.
    + destruct Ho as [[-> Hprobes]|(p & Hp & Hprobes)].
      * left. split; [done|]. simpl. rewrite Hprobes.
        rewrite (busy_until_cons port) by lia. do 2 f_equal. lia.
      * right. exists p. split; [lia|].
        simpl. rewrite Hprobes, (busy_until_cons port p) by lia. done.
  - eexists _, _, _. split; [reflexivity|]. split; [done|]. right.
    exists port. split; [lia|]. unfold busy_until. by rewrite seqZ_nil by lia.
Qed.

Lemma find_available_port_events (host : string) (start_port : Z) (w : W) :
  exists w' evs o,
    find_available_port host start_port w = Some (w', evs, o)
    /\ evs = (fun pr => Probe host pr.1 pr.2) <$> probes_of evs
    /\ match o with
       | Return p =>
           start_port <= p < start_port + 100
           /\ probes_of evs = busy_until start_port p ++ [(p, Bound)]
       | Raise e =>
           (e = OtherException "No available ports found in range"
            /\ probes_of evs = busy_until start_port (start_port + 100))
           \/ exists p,
                start_port <= p < start_port + 100
                /\ probes_of evs = busy_until start_port p ++ [(p, BindFailed e)]
       end.
Proof.
  unfold find_available_port.
  destruct (find_port_loop_spec host start_port 100 start_port w)
    as (w' & evs & o & Hrun & Hevs & Ho); [lia|].
  exists w', evs, o. split; [done|]. split; [done|].
  by replace (Z.max start_port (start_port + 100)) with (start_port + 100) in Ho by lia.
Qed.

(** X17. [find_available_port] probes the ports [start_port],
    [start_port + 1], ... in order and returns the first one that can be
    bound, every port before it having failed with [OSError].  It raises
    [RuntimeError] only after the 100 ports from [start_port] on all failed
    with [OSError]; any other exception of a bind escapes at once.  No port
    outside these 100 is ever probed. *)
Theorem find_available_port_first_free (host : string) (start_port : Z) (w : W) :
  exists w' evs o,
    find_available_port host start_port w = Some (w', evs, o)
    /\ evs = (fun pr => Probe host pr.1 pr.2) <$> probes_of evs
    /\ match o with
       | Return p =>
           start_port <= p < start_port + 100
           /\ probes_of evs = busy_until start_port p ++ [(p, Bound)]
       | Raise e =>
           (e = OtherException "No available ports found in range"
            /\ probes_of evs = busy_until start_port (start_port + 100))
           \/ exists p,
                start_port <= p < start_port + 100
                /\ probes_of evs = busy_until start_port p ++ [(p, BindFailed e)]
       end.
Proof.
  destruct (find_available_port_events host start_port w)
    as (w' & evs & o & Hrun & Hevs & Ho).
  exists w', evs, o. split; [exact Hrun|]. split; [exact Hevs|].
  destruct o as [p|e]; [exact Ho|].
  destruct Ho as [[He Hprobes]|(p & Hp & Hprobes)]; [left|right]; eauto.
Qed.

End ServerFacts.

Section StartServerFacts.

Import Server.
Context {W : Type} `{!Host W}.

(** What the serving part of [start_server] does, by what was raised
    inside the [try] statement. *)
Lemma serve_guarded_cases (d d' : Deployment) (w w' : W) evs o :
  serve_guarded d w = (d', w', evs, o) ->
  config d' = config d
  /\ probes_of evs = []
  /\ changed_directories evs = [NitsRdlDeployment.build_dir (config d)]
  /\ (listens_of evs = []
      \/ listens_of evs
         = [(NitsRdlDeployment.host (config d), NitsRdlDeployment.port (config d))])
  /\ (NitsRdlDeployment.auto_open_browser (config d) = false -> browser_timers evs = [])
  /\ (NitsRdlDeployment.environment (config d) <> "production" -> health_threads evs = [])
  /\ match raised_in_try evs with
     | [] =>
         o = Return true
         /\ server_process d'
            = Some (NitsRdlDeployment.host (config d), NitsRdlDeployment.port (config d))
         /\ shutdowns evs = []
     | [KeyboardInterrupt] =>
         o = Return true
         /\ server_process d' = None
         /\ health_monitor_active d' = false
         /\ (created_servers evs <> [] -> shutdowns evs = [tt])
     | [e] =>
         (is_Exception e = true /\ o = Return false
          \/ is_Exception e = false /\ o = Raise e)
         /\ shutdowns evs = []
     | _ => False
     end.
Proof.
  unfold serve_guarded, serve, stop_server, start_health_monitoring.
  destruct (chdir w (NitsRdlDeployment.build_dir (config d))) as [w1 [u1|e1]].
  2:{ destruct e1 as [| |code|msg]; [| destruct (server_process d) | |];
        intros [= <- <- <- <-]; cbn; repeat split; auto; done. }
  destruct (TCPServer w1 _ _) as [w2 [u2|e2]].
  2:{ destruct e2 as [| |code|msg]; [| destruct (server_process d) | |];
        intros [= <- <- <- <-]; cbn; repeat split; auto; done. }
  destruct (NitsRdlDeployment.auto_open_browser (config d));
    destruct (String.eqb (NitsRdlDeployment.environment (config d)) "production") eqn:Henv;
    try apply String.eqb_eq in Henv;
    destruct (serve_forever w2) as [w3 [u3|[| |code|msg]]];
    intros [= <- <- <- <-]; cbn; repeat split; auto; done.
Qed.

(** Probes and log lines contribute nothing to the other projections. *)
Lemma selection_events_skip (pre rest : list server_event) :
  Forall (fun e => match e with Probe _ _ _ | SLog _ _ => True | _ => False end) pre ->
  raised_in_try (pre ++ rest) = raised_in_try rest
  /\ changed_directories (pre ++ rest) = changed_directories rest
  /\ created_servers (pre ++ rest) = created_servers rest
  /\ listens_of (pre ++ rest) = listens_of rest
  /\ browser_timers (pre ++ rest) = browser_timers rest
  /\ health_threads (pre ++ rest) = health_threads rest
  /\ shutdowns (pre ++ rest) = shutdowns rest.
Proof.
  induction 1 as [|e pre He _ IH]; [done|].
  destruct e; try done; exact IH.
Qed.

Lemma probes_only (host : string) (l : list (Z * bind_result)) :
  Forall (fun e => match e with Probe _ _ _ | SLog _ _ => True | _ => False end)
         ((fun pr => Probe host pr.1 pr.2) <$> l).
Proof. induction l as [|[p r] l IH]; by constructor. Qed.

(** The three ways [start_server] goes: the build directory is missing;
    the choice of a port raises; a port is chosen and the server part
    runs. *)
Lemma start_server_cases (d d' : Deployment) (w w' : W) evs o :
  start_server d w = Some (d', w', evs, o) ->
  let c := config d in
  (path_exists w (NitsRdlDeployment.build_dir c) = false
   /\ d' = d /\ w' = w /\ o = Return false
   /\ evs = [SLog ERROR MsgBuildDirectoryNotFound])
  \/ (path_exists w (NitsRdlDeployment.build_dir c) = true
      /\ d' = d
      /\ Forall (fun e => match e with Probe _ _ _ | SLog _ _ => True | _ => False end) evs
      /\ exists e, o = Raise e)
  \/ (path_exists w (NitsRdlDeployment.build_dir c) = true
      /\ exists d1 w1 pre evs3,
           serve_guarded d1 w1 = (d', w', evs3, o)
           /\ evs = pre ++ evs3
           /\ Forall (fun e => match e with Probe _ _ _ | SLog _ _ => True | _ => False end)
                     pre
           /\ last (probes_of pre) = Some (NitsRdlDeployment.port (config d1), Bound)
           /\ NitsRdlDeployment.port c <= NitsRdlDeployment.port (config d1)
              < NitsRdlDeployment.port c + 100
           /\ (d1 = d
               \/ d1 = set_port d (NitsRdlDeployment.port (config d1))
                  /\ head (probes_of pre) = Some (NitsRdlDeployment.port c, BindOSError))).
Proof.
  intros Hrun c. unfold start_server in Hrun. fold c in Hrun.
  destruct (path_exists w (NitsRdlDeployment.build_dir c)) eqn:Hdir; cbn [negb] in Hrun.
  2:{ injection Hrun as <- <- <- <-. left. done. }
  right. unfold check_port_availability in Hrun.
  destruct (bind w (NitsRdlDeployment.host c) (NitsRdlDeployment.port c))
    as [w1 [| |e]].
  - destruct (serve_guarded d w1) as [[[d2 w3] evs3] o3] eqn:Hserve.
    injection Hrun as <- <- <- <-. right. split; [done|].
    exists d, w1,
      [Probe (NitsRdlDeployment.host c) (NitsRdlDeployment.port c) Bound;
       SLog INFO (MsgStartingServer (NitsRdlDeployment.host c) (NitsRdlDeployment.port c))],
      evs3.
    split; [done|]. split; [done|]. split; [by repeat constructor|].
    split; [done|]. split; [fold c; lia|]. by left.
  - destruct (find_available_port_events (NitsRdlDeployment.host c)
                (NitsRdlDeployment.port c) w1) as (w2 & evs2 & o2 & Hfind & Hevs2 & Ho2).
    rewrite Hfind in Hrun.
    pose proof (probes_only (NitsRdlDeployment.host c) (probes_of evs2)) as Honly.
    rewrite <- Hevs2 in Honly.
    destruct o2 as [p|e].
    + destruct Ho2 as [Hp Hprobes].
      destruct (serve_guarded (set_port d p) w2) as [[[d2 w3] evs3] o3] eqn:Hserve.
      injection Hrun as <- <- <- <-. right. split; [done|].
      exists (set_port d p), w2,
        ([Probe (NitsRdlDeployment.host c) (NitsRdlDeployment.port c) BindOSError]
           ++ evs2
           ++ [SLog WARNING (MsgPortUnavailable (NitsRdlDeployment.port c) p);
               SLog INFO (MsgStartingServer (NitsRdlDeployment.host c) p)]),
        evs3.
      split; [done|]. split; [by rewrite <- !app_assoc|]. split.
      { apply Forall_app. split; [by repeat constructor|].
        apply Forall_app. split; [done|]. by repeat constructor. }
      rewrite !probes_of_app, Hprobes. cbn [probes_of omap list_omap set_port config].
      rewrite app_nil_r.
      split; [by rewrite app_assoc, last_snoc|]. split; [fold c; cbn; lia|].
      right. by split.
    + injection Hrun as <- <- <- <-. left. split; [done|]. split; [done|].
      split; [|by exists e].
      by constructor.
  - injection Hrun as <- <- <- <-. left. split; [done|]. split; [done|].
    split; [by repeat constructor|by exists e].
Qed.

End StartServerFacts.

Section StartServer.

Import Server.
Context {W : Type} `{!Host W}.

Lemma set_port_same (d : Deployment) :
  config (set_port d (NitsRdlDeployment.port (config d))) = config d.
Proof. by destruct d as [[] ? ?]. Qed.

Lemma set_port_config (d : Deployment) (p : Z) :
  config (set_port (set_port d p) (NitsRdlDeployment.port (config (set_port d p))))
  = config (set_port d p)
  /\ NitsRdlDeployment.host (config (set_port d p)) = NitsRdlDeployment.host (config d)
  /\ NitsRdlDeployment.build_dir (config (set_port d p))
     = NitsRdlDeployment.build_dir (config d)
  /\ NitsRdlDeployment.auto_open_browser (config (set_port d p))
     = NitsRdlDeployment.auto_open_browser (config d)
  /\ NitsRdlDeployment.environment (config (set_port d p))
     = NitsRdlDeployment.environment (config d)
  /\ NitsRdlDeployment.port (config (set_port d p)) = p.
Proof. by destruct d as [[] ? ?]. Qed.

Lemma start_server_listens (d d' : Deployment) (w w' : W) evs o :
  start_server d w = Some (d', w', evs, o) ->
  NitsRdlDeployment.port (config d) <= NitsRdlDeployment.port (config d')
    < NitsRdlDeployment.port (config d) + 100
  /\ config d' = config (set_port d (NitsRdlDeployment.port (config d')))
  /\ (listens_of evs = []
      \/ listens_of evs
         = [(NitsRdlDeployment.host (config d), NitsRdlDeployment.port (config d'))]
         /\ last (probes_of evs) = Some (NitsRdlDeployment.port (config d'), Bound))
  /\ (NitsRdlDeployment.port (config d') <> NitsRdlDeployment.port (config d) ->
      head (probes_of evs) = Some (NitsRdlDeployment.port (config d), BindOSError)).
Proof.
  intros Hrun.
  destruct (start_server_cases _ _ _ _ _ _ Hrun)
    as [(_ & -> & _ & _ & ->)
       |[(_ & -> & Hpre & _)
        |(_ & d1 & w1 & pre & evs3 & Hserve & -> & Hpre & Hlast & Hrange & Hd1)]].
  - split; [lia|]. split; [by rewrite set_port_same|]. split; [by left|done].
  - split; [lia|]. split; [by rewrite set_port_same|]. split; [|done].
    left. destruct (selection_events_skip evs [] Hpre) as (_ & _ & _ & Hl & _).
    by rewrite app_nil_r in Hl.
  - destruct (serve_guarded_cases _ _ _ _ _ _ Hserve)
      as (Hconfig & Hprobes & _ & Hlistens & _).
    destruct (selection_events_skip pre evs3 Hpre) as (_ & _ & _ & -> & _).
    rewrite probes_of_app, Hprobes, app_nil_r, Hconfig.
    assert (config d1 = config (set_port d (NitsRdlDeployment.port (config d1)))
            /\ NitsRdlDeployment.host (config d1) = NitsRdlDeployment.host (config d))
      as [Hcfg Hhost].
    { destruct Hd1 as [->|[Hset _]]; [by rewrite set_port_same|].
      rewrite Hset at 1 3.
      by destruct (set_port_config d (NitsRdlDeployment.port (config d1)))
        as (_ & ? & _). }
    split; [done|]. split; [done|]. split.
    + destruct Hlistens as [-> | ->]; [by left|right]. by rewrite Hhost.
    + intros Hne. destruct Hd1 as [->|[_ Hhead]]; [done|].
      destruct (probes_of pre); [done|]. done.
Qed.

(** X18. [start_server] listens at most once, on the configured host and
    on a port it has just probed as free: the configured port, or the first
    free one among the 100 ports from it on, in which case the configured
    port was probed as busy and [config.port] is updated.  No other field
    of the configuration changes. *)
Theorem start_server_port (d d' : Deployment) (w w' : W) evs o :
  start_server d w = Some (d', w', evs, o) ->
  NitsRdlDeployment.port (config d) <= NitsRdlDeployment.port (config d')
    < NitsRdlDeployment.port (config d) + 100
  /\ config d' = config (set_port d (NitsRdlDeployment.port (config d')))
  /\ (listens_of evs = []
      \/ listens_of evs
         = [(NitsRdlDeployment.host (config d), NitsRdlDeployment.port (config d'))]
         /\ last (probes_of evs) = Some (NitsRdlDeployment.port (config d'), Bound))
  /\ (NitsRdlDeployment.port (config d') <> NitsRdlDeployment.port (config d) ->
      head (probes_of evs) = Some (NitsRdlDeployment.port (config d), BindOSError)).
Proof. apply start_server_listens. Qed.

Lemma projections_nil (evs : list server_event) :
  Forall (fun e => match e with Probe _ _ _ | SLog _ _ => True | _ => False end) evs ->
  raised_in_try evs = [] /\ changed_directories evs = [] /\ created_servers evs = []
  /\ shutdowns evs = [].
Proof.
  intros Hpre.
  destruct (selection_events_skip evs [] Hpre) as (H1 & H2 & H3 & _ & _ & _ & H4).
  rewrite app_nil_r in *. done.
Qed.

(** X19. [start_server] returns [True] in two ways only: [serve_forever]
    returned, the server object being kept in [server_process]; or a
    [KeyboardInterrupt] was raised inside the [try] statement, and then the
    server is stopped ([server_process] is [None], the health flag is off,
    and a server that had been created is shut down).  An [Exception]
    raised inside the [try] statement makes it return [False], without a
    shutdown.  Before the [try] statement is entered it never returns
    [True]. *)
Theorem start_server_result (d d' : Deployment) (w w' : W) evs o :
  start_server d w = Some (d', w', evs, o) ->
  match raised_in_try evs with
  | [] =>
      (changed_directories evs = [] /\ o <> Return true /\ d' = d
       /\ created_servers evs = [])
      \/ (changed_directories evs = [NitsRdlDeployment.build_dir (config d)]
          /\ o = Return true
          /\ server_process d'
             = Some (NitsRdlDeployment.host (config d'),
                     NitsRdlDeployment.port (config d'))
          /\ shutdowns evs = [])
  | [KeyboardInterrupt] =>
      o = Return true
      /\ server_process d' = None
      /\ health_monitor_active d' = false
      /\ (created_servers evs <> [] -> shutdowns evs = [tt])
  | [e] =>
      (is_Exception e = true /\ o = Return false
       \/ is_Exception e = false /\ o = Raise e)
      /\ shutdowns evs = []
  | _ => False
  end.
Proof.
  intros Hrun.
  destruct (start_server_cases _ _ _ _ _ _ Hrun)
    as [(_ & -> & _ & -> & ->)
       |[(_ & -> & Hpre & e & ->)
        |(_ & d1 & w1 & pre & evs3 & Hserve & -> & Hpre & _ & _ & Hd1)]].
  - left. done.
  - destruct (projections_nil evs Hpre) as (-> & -> & -> & _). left. done.
  - destruct (serve_guarded_cases _ _ _ _ _ _ Hserve)
      as (Hconfig & _ & Hdirs & _ & _ & _ & Hcases).
    destruct (selection_events_skip pre evs3 Hpre) as (-> & -> & -> & _ & _ & _ & ->).
    assert (NitsRdlDeployment.build_dir (config d1) = NitsRdlDeployment.build_dir (config d))
      as Hdir.
    { destruct Hd1 as [->|[-> _]]; [done|].
      by destruct (set_port_config d (NitsRdlDeployment.port (config d1)))
        as (_ & _ & ? & _). }
    destruct (raised_in_try evs3) as [|e [|? ?]]; [|exact Hcases|exact Hcases].
    right. rewrite Hdirs, Hdir, Hconfig. destruct Hcases as (-> & -> & ->). done.
Qed.

Lemma find_port_loop_all_busy host start_port :
  (forall w0 p, start_port <= p < start_port + 100 -> (bind w0 host p).2 = BindOSError) ->
  forall fuel port w,
    start_port <= port ->
    (Z.to_nat (start_port + 100 - port) <= fuel)%nat ->
    exists w' evs,
      find_port_loop fuel host start_port port w
      = Some (w', evs, Raise (OtherException "No available ports found in range"))
      /\ length (probes_of evs) = Z.to_nat (start_port + 100 - port)
      /\ Forall (fun e => match e with Probe _ _ _ | SLog _ _ => True | _ => False end) evs.
Proof.
  intros Hbusy. induction fuel as [|fuel IH]; intros port w Hport Hfuel;
    cbn [find_port_loop].
  { replace (port <? start_port + 100) with false by (symmetry; apply Z.ltb_ge; lia).
    eexists _, _. split; [reflexivity|]. split; [simpl; lia|constructor]. }
  destruct (port <? start_port + 100) eqn:Hlt.
  2:{ apply Z.ltb_ge in Hlt. eexists _, _. split; [reflexivity|].
      split; [simpl; lia|constructor]. }
  apply Z.ltb_lt in Hlt. unfold check_port_availability.
  specialize (Hbusy w port (conj Hport Hlt)) as Hhere.
  destruct (bind w host port) as [w1 r]. cbn [snd] in Hhere. subst r.
  destruct (IH (port + 1) w1) as (w2 & evs2 & -> & Hlen & Hall); [lia|lia|].
  eexists _, _. split; [reflexivity|]. split.
  - simpl. rewrite Hlen. lia.
  - by constructor.
Qed.

(** X20. When the build directory exists but none of the 100 ports from
    the configured one on can be bound, [start_server] does not return
    [False]: the [RuntimeError] of [find_available_port] escapes it, after
    101 probes (the configured port is probed twice), and no server is
    created. *)
Theorem start_server_no_free_port (d : Deployment) (w : W) :
  path_exists w (NitsRdlDeployment.build_dir (config d)) = true ->
  (forall w0 p,
     NitsRdlDeployment.port (config d) <= p < NitsRdlDeployment.port (config d) + 100 ->
     (bind w0 (NitsRdlDeployment.host (config d)) p).2 = BindOSError) ->
  exists w' evs,
    start_server d w
    = Some (d, w', evs, Raise (OtherException "No available ports found in range"))
    /\ length (probes_of evs) = 101%nat
    /\ changed_directories evs = []
    /\ created_servers evs = [].
Proof.
  intros Hdir Hbusy. unfold start_server, check_port_availability, find_available_port.
  rewrite Hdir. cbn [negb].
  specialize (Hbusy w (NitsRdlDeployment.port (config d))) as Hfirst.
  destruct (bind w _ _) as [w1 r]. cbn [snd] in Hfirst. rewrite Hfirst by lia.
  destruct (find_port_loop_all_busy _ (NitsRdlDeployment.port (config d)) Hbusy 100
              (NitsRdlDeployment.port (config d)) w1)
    as (w2 & evs2 & -> & Hlen & Hall); [lia|lia|].
  eexists _, _. split; [reflexivity|].
  assert (Forall (fun e => match e with Probe _ _ _ | SLog _ _ => True | _ => False end)
            ([Probe (NitsRdlDeployment.host (config d))
                (NitsRdlDeployment.port (config d)) BindOSError] ++ evs2)) as Hpre.
  { by constructor. }
  destruct (projections_nil _ Hpre) as (_ & -> & -> & _).
  split; [|done]. simpl. rewrite Hlen. lia.
Qed.


End StartServer.

(** * The further properties on concrete runs *)

(** A job with [retry_count = -1]. *)
Lemma execute_job_negative_retry_count_witness :
  let shell := scripted [] (exit_code 0) in
  let run := @execute_job nat shell no_sleep (fresh_state ∅) negative_budget in
  PipelineJob.retry_count negative_budget < 0
  /\ run.2 = Return false
  /\ attempts_of run.1.2 = []
  /\ runs_of run.1.2 = [].
Proof.
  intros shell run.
  assert (PipelineJob.retry_count negative_budget < 0) as Hr by reflexivity.
  pose proof (@execute_job_negative_retry_count nat shell no_sleep negative_budget
                (fresh_state ∅) Hr) as Hrun.
  split; [exact Hr|]. unfold run. rewrite Hrun. repeat split.
Defined.

(** A job without commands in a world where every command would time
    out. *)
Lemma execute_job_no_commands_witness :
  let shell := scripted [] (Raise TimeoutExpired) in
  let run := @execute_job nat shell no_sleep (fresh_state ∅) no_commands in
  PipelineJob.commands no_commands = []
  /\ 0 <= PipelineJob.retry_count no_commands
  /\ run.2 = Return true
  /\ runs_of run.1.2 = []
  /\ sleeps_of run.1.2 = [].
Proof.
  intros shell run.
  assert (PipelineJob.commands no_commands = []) as Hc by reflexivity.
  assert (0 <= PipelineJob.retry_count no_commands) as Hr by (vm_compute; discriminate).
  pose proof (@execute_job_no_commands nat shell no_sleep no_commands (fresh_state ∅)
                Hc Hr) as Hrun.
  split; [exact Hc|]. split; [exact Hr|]. unfold run. rewrite Hrun. repeat split.
Defined.

(** The command exits with status 1 on the first attempt and cannot be
    started on the second. *)
Lemma execute_job_error_ends_job_witness :
  let shell := scripted [exit_code 1] (Raise (OtherException "No such file")) in
  let run := @execute_job nat shell no_sleep (fresh_state ∅) one_command in
  Z.of_nat 1 <= PipelineJob.retry_count one_command
  /\ @attempt_result nat shell no_sleep one_command (fresh_state ∅) 0 = Return false
  /\ @attempt_result nat shell no_sleep one_command (fresh_state ∅) 1
     = Raise (OtherException "No such file")
  /\ run.2 = Return false
  /\ attempts_of run.1.2 = range (Z.of_nat 1 + 1)
  /\ sleeps_of run.1.2 = replicate 1 2.
Proof.
  intros shell run.
  assert (Z.of_nat 1 <= PipelineJob.retry_count one_command) as Hr
    by (vm_compute; discriminate).
  assert (@attempt_result nat shell no_sleep one_command (fresh_state ∅) 0 = Return false)
    as Hfirst by reflexivity.
  assert (@attempt_result nat shell no_sleep one_command (fresh_state ∅) 1
          = Raise (OtherException "No such file")) as Hsecond by reflexivity.
  destruct (@execute_job_error_ends_job nat shell no_sleep one_command (fresh_state ∅)
              1%nat "No such file" Hr) as (Hres & _ & Hattempts & Hsleeps & _).
  { intros [|i] Hi; [exact Hfirst|lia]. }
  { exact Hsecond. }
  repeat split; assumption.
Defined.

(** The stages Setup, Test and Deploy without auto-deploy, in a world
    where every command would fail. *)
Lemma run_pipeline_nothing_to_do_witness :
  let shell := scripted [] (exit_code 1) in
  let run :=
    @run_pipeline nat shell no_sleep PipelineConfig.default (fresh_state ∅)
      [SETUP; TEST; DEPLOY] in
  (VALIDATE ∉ [SETUP; TEST; DEPLOY])
  /\ (BUILD ∉ [SETUP; TEST; DEPLOY])
  /\ PipelineConfig.auto_deploy PipelineConfig.default = false
  /\ run.2 = Return true
  /\ run.1.1 = fresh_state ∅
  /\ runs_of run.1.2 = [].
Proof.
  intros shell run.
  assert (VALIDATE ∉ [SETUP; TEST; DEPLOY]) as Hv
    by (apply (bool_decide_unpack _); vm_compute; exact I).
  assert (BUILD ∉ [SETUP; TEST; DEPLOY]) as Hb
    by (apply (bool_decide_unpack _); vm_compute; exact I).
  assert (PipelineConfig.auto_deploy PipelineConfig.default = false) as Ha by reflexivity.
  destruct (@run_pipeline_nothing_to_do nat shell no_sleep PipelineConfig.default
              (fresh_state ∅) [SETUP; TEST; DEPLOY] Hv Hb (or_intror Ha))
    as (Hres & Hst & Hruns & _).
  repeat split; assumption.
Defined.

(** Validation succeeds and the build fails on all three attempts: one of
    the two recorded jobs is a success, and the rate is one half. *)
Lemma report_after_run_witness :
  let shell := scripted [exit_code 0] (exit_code 1) in
  let run :=
    @run_pipeline nat shell no_sleep PipelineConfig.default (fresh_state ∅)
      [VALIDATE; BUILD] in
  job_results (fresh_state ∅) = ∅
  /\ run.2 = Return false
  /\ exists rate : Q,
       success_rate (job_results run.1.1) = Return rate
       /\ successes (job_results run.1.1) = len (job_results run.1.1) - 1
       /\ ~ (rate == 1)%Q.
Proof.
  intros shell run.
  assert (job_results (fresh_state ∅) = ∅) as Hempty by reflexivity.
  assert (run.2 = Return false) as Hverdict by (vm_compute; reflexivity).
  split; [exact Hempty|]. split; [exact Hverdict|].
  destruct (@report_after_run nat shell no_sleep PipelineConfig.default (fresh_state ∅)
              [VALIDATE; BUILD] false Hempty Hverdict) as (rate & Hrate & _ & Hfailed).
  destruct (Hfailed eq_refl) as (Hsucc & _ & _ & Hne).
  exists rate. repeat split; assumption.
Defined.

(** A deployment whose configuration has [max_retries = 0], over steps
    that would all succeed. *)
Lemma deploy_without_attempts_witness :
  NitsRdlDeployment.max_retries without_retries <= 0
  /\ exists evs,
       @NitsRdlDeployment.deploy nat no_sleep (build_fails_until 0) without_retries O
       = Some (O, evs, Return true)
       /\ NitsRdlDeployment.calls_of evs = [].
Proof.
  assert (NitsRdlDeployment.max_retries without_retries <= 0) as Hr
    by (vm_compute; discriminate).
  destruct (@deploy_without_attempts nat no_sleep (build_fails_until 0) without_retries O Hr)
    as (evs & Hrun & Hcalls & _).
  split; [exact Hr|]. exists evs. split; assumption.
Defined.

(** A deployment with three tries for each step whose build never
    succeeds: validation and installation succeed, and [deploy] returns
    [False] after three calls of the build. *)
Lemma deploy_steps_in_order_witness :
  let config := NitsRdlDeployment.make_config deployment_args in
  let run := @NitsRdlDeployment.deploy nat no_sleep (build_fails_until 100) config O in
  let evs := (run_of run (O, [], Return true)).1.2 in
  0 < NitsRdlDeployment.max_retries config
  /\ run = Some (5%nat, evs, Return false)
  /\ exists (n : nat) step_name before,
       successful_steps evs = take n step_names
       /\ step_names !! n = Some step_name
       /\ NitsRdlDeployment.calls_of evs
          = before ++ replicate (Z.to_nat (NitsRdlDeployment.max_retries config))
                                (step_name, Return false).
Proof.
  intros config run evs.
  assert (0 < NitsRdlDeployment.max_retries config) as Hr by reflexivity.
  assert (run = Some (5%nat, evs, Return false)) as Hrun by reflexivity.
  destruct (@deploy_steps_in_order nat no_sleep (build_fails_until 100) config O 5%nat evs
              (Return false) Hr Hrun)
    as (n & _ & Hsteps & _ & _ & step_name & before & Hname & Hcalls).
  split; [exact Hr|]. split; [exact Hrun|].
  exists n, step_name, before. repeat split; assumption.
Defined.

(** The build-only mode over steps that all succeed. *)
Lemma build_only_mode_witness :
  NitsRdlDeployment.build_only build_only_args = true
  /\ exists w' evs o,
       @NitsRdlDeployment.main nat no_sleep (build_fails_until 0) build_only_args O
       = Some (w', evs, o)
       /\ (NitsRdlDeployment.calls_of evs).*1
          `prefix_of` ["Environment Validation"; "Dependency Installation";
                       "Application Build"]
       /\ deploy_sleeps evs = [].
Proof.
  assert (NitsRdlDeployment.build_only build_only_args = true) as Hmode by reflexivity.
  destruct (@build_only_mode nat no_sleep (build_fails_until 0) build_only_args O Hmode)
    as (w' & evs & o & Hrun & Hprefix & Hsleeps & _).
  split; [exact Hmode|]. exists w', evs, o. repeat split; assumption.
Defined.

(** Ports 5000 and 5001 are taken and the build directory exists: the
    server listens on port 5002, and serving is interrupted from the
    keyboard. *)
Lemma start_server_port_witness :
  let host := machine [5000; 5001] ["dist"] (Raise KeyboardInterrupt) in
  let d := Server.new Server.default_config in
  let run := @Server.start_server unit host d tt in
  let d' := (run_of run (d, tt, [], Return false)).1.1.1 in
  let evs := (run_of run (d, tt, [], Return false)).1.2 in
  run = Some (d', tt, evs, Return true)
  /\ NitsRdlDeployment.port (Server.config d') = 5002
  /\ (Server.listens_of evs = []
      \/ Server.listens_of evs = [("localhost", 5002)]
         /\ last (Server.probes_of evs) = Some (5002, Server.Bound))
  /\ head (Server.probes_of evs) = Some (5000, Server.BindOSError).
Proof.
  intros host d run d' evs.
  assert (run = Some (d', tt, evs, Return true)) as Hrun by reflexivity.
  destruct (@start_server_port unit host d d' tt tt evs (Return true) Hrun)
    as (_ & _ & Hlistens & Hhead).
  split; [exact Hrun|]. split; [reflexivity|]. split; [exact Hlistens|].
  apply Hhead. vm_compute. discriminate.
Defined.

(** The same run: the interrupt makes [start_server] stop the server it
    created and return [True]. *)
Lemma start_server_result_witness :
  let host := machine [5000; 5001] ["dist"] (Raise KeyboardInterrupt) in
  let d := Server.new Server.default_config in
  let run := @Server.start_server unit host d tt in
  let d' := (run_of run (d, tt, [], Return false)).1.1.1 in
  let evs := (run_of run (d, tt, [], Return false)).1.2 in
  run = Some (d', tt, evs, Return true)
  /\ Server.raised_in_try evs = [KeyboardInterrupt]
  /\ Server.server_process d' = None
  /\ Server.health_monitor_active d' = false
  /\ shutdowns evs = [tt].
Proof.
  intros host d run d' evs.
  assert (run = Some (d', tt, evs, Return true)) as Hrun by reflexivity.
  assert (Server.raised_in_try evs = [KeyboardInterrupt]) as Hraised by reflexivity.
  pose proof (@start_server_result unit host d d' tt tt evs (Return true) Hrun) as Hresult.
  rewrite Hraised in Hresult. destruct Hresult as (_ & Hprocess & Hhealth & Hshutdown).
  split; [exact Hrun|]. split; [exact Hraised|]. split; [exact Hprocess|].
  split; [exact Hhealth|]. apply Hshutdown. vm_compute. discriminate.
Defined.

(** The ports 5000 to 5099 are all taken. *)
Lemma start_server_no_free_port_witness :
  let host := machine (seqZ 5000 100) ["dist"] (Return tt) in
  let d := Server.new Server.default_config in
  @Server.path_exists unit host tt (NitsRdlDeployment.build_dir (Server.config d)) = true
  /\ (forall w0 p,
        5000 <= p < 5100 -> (@Server.bind unit host w0 "localhost" p).2 = Server.BindOSError)
  /\ exists w' evs,
       @Server.start_server unit host d tt
       = Some (d, w', evs, Raise (OtherException "No available ports found in range"))
       /\ length (Server.probes_of evs) = 101%nat.
Proof.
  intros host d.
  assert (@Server.path_exists unit host tt (NitsRdlDeployment.build_dir (Server.config d))
          = true) as Hdir by reflexivity.
  assert (forall w0 p,
            5000 <= p < 5100
            -> (@Server.bind unit host w0 "localhost" p).2 = Server.BindOSError) as Hbusy.
  { intros w0 p Hp. unfold host, machine, Server.bind. cbn [snd].
    destruct (Z.ltb_spec 65535 p) as [Hbig|_]; [lia|].
    rewrite bool_decide_eq_true_2; [reflexivity|]. apply elem_of_seqZ. lia. }
  destruct (@start_server_no_free_port unit host d tt Hdir Hbusy)
    as (w' & evs & Hrun & Hprobes & _).
  split; [exact Hdir|]. split; [exact Hbusy|]. exists w', evs. split; assumption.
Defined.

